(** * JobMatcher: the matching and scoring engine

    A shallow embedding of [app/services/matching_service.py],
    [app/services/category_matching.py] and the records of
    [app/domain/models.py].

    Modelling conventions.
    - Python [float] values (scores, salaries, clock readings) are exact
      rationals [Q]; [==] on floats is [Qeq_bool].  Rounding error, NaN and
      infinities are outside the model.
    - Python [str] is [string]; [str.lower] folds the ASCII letters and
      [str.strip] removes the ASCII white space.
    - Exceptions are carried by an error-and-state monad; the state holds
      the embedding cache, the number of clock readings taken so far and the
      log of the texts handed to the embedding model.
    - What the service gets from outside is a record [Env]: the embedding
      model, the cosine similarity, the hash, the clock, the formatting of
      a float, and the exceptions a scorer may raise on a pair.  Every
      statement below holds for every such environment.
    - [cachetools.TTLCache] and [list.sort] are library code; they are
      modelled by their documented behaviour. *)

From Stdlib Require Import QArith Qround Lqa ZArith Lia List String Ascii Bool.
From Stdlib Require Import DecimalString Permutation Sorted.
Import ListNotations.

Open Scope string_scope.
Open Scope Q_scope.

(* ------------------------------------------------------------------ *)
(** ** Python strings *)

Module PyStr.

Definition is_upper (c : ascii) : bool :=
  let n := nat_of_ascii c in (65 <=? n)%nat && (n <=? 90)%nat.

Definition lower_char (c : ascii) : ascii :=
  if is_upper c then ascii_of_nat (nat_of_ascii c + 32) else c.

(** [s.lower()] *)
Fixpoint lower (s : string) : string :=
  match s with
  | EmptyString => EmptyString
  | String c s' => String (lower_char c) (lower s')
  end.

(** The characters [str.strip] removes: tab, line feed, vertical tab, form
    feed, carriage return, the four separators 28..31 and the space. *)
Definition is_space (c : ascii) : bool :=
  let n := nat_of_ascii c in
  ((9 <=? n)%nat && (n <=? 13)%nat) || ((28 <=? n)%nat && (n <=? 32)%nat).

Fixpoint lstrip (s : string) : string :=
  match s with
  | EmptyString => EmptyString
  | String c s' => if is_space c then lstrip s' else s
  end.

Fixpoint rev (s : string) : string :=
  match s with
  | EmptyString => EmptyString
  | String c s' => rev s' ++ String c EmptyString
  end.

Definition rstrip (s : string) : string := rev (lstrip (rev s)).

(** [s.strip()] *)
Definition strip (s : string) : string := rstrip (lstrip s).

(** [needle in hay] *)
Fixpoint contains (needle hay : string) : bool :=
  String.prefix needle hay ||
  match hay with
  | EmptyString => false
  | String _ hay' => contains needle hay'
  end.

(** [sep.join(parts)] *)
Definition join (sep : string) (parts : list string) : string :=
  String.concat sep parts.

(** [x in xs] for a list of strings *)
Definition mem (x : string) (xs : list string) : bool :=
  existsb (String.eqb x) xs.

(** The distinct elements of a list, first occurrences kept: the elements of
    the Python [set] built from it. *)
Fixpoint to_set (xs : list string) : list string :=
  match xs with
  | [] => []
  | x :: xs' => x :: filter (fun y => negb (String.eqb x y)) (to_set xs')
  end.

(** [str(n)] for a non-negative [int] *)
Definition of_nat (n : nat) : string :=
  NilEmpty.string_of_uint (Nat.to_uint n).

End PyStr.

(* ------------------------------------------------------------------ *)
(** ** Python floats as rationals *)

Definition Qltb (x y : Q) : bool := negb (Qle_bool y x).

(** [min(a, b)] and [max(a, b)]: the first argument wins unless the second
    is strictly better. *)
Definition py_min (a b : Q) : Q := if Qltb b a then b else a.
Definition py_max (a b : Q) : Q := if Qltb a b then b else a.

(** [len(xs) / len(ys)] *)
Definition div_len (k n : nat) : Q :=
  inject_Z (Z.of_nat k) / inject_Z (Z.of_nat n).

(** The integer nearest to [y], ties to the even one. *)
Definition round_half_even (y : Q) : Z :=
  let f := Qfloor y in
  let r := y - inject_Z f in
  if Qltb r 0.5 then f
  else if Qltb 0.5 r then (f + 1)%Z
  else if Z.even f then f else (f + 1)%Z.

(** [round(x, 2)] *)
Definition round2 (x : Q) : Q := inject_Z (round_half_even (x * 100)) / 100.

(* ------------------------------------------------------------------ *)
(** ** app/domain/models.py *)

Inductive JobCategory :=
| TECHNOLOGY | HEALTHCARE | RETAIL | HOSPITALITY | MANUFACTURING | EDUCATION
| FINANCE | CONSTRUCTION | LOGISTICS | CUSTOMER_SERVICE | SALES
| ADMINISTRATION | OTHER.

Inductive ExperienceLevel :=
| ENTRY_LEVEL | JUNIOR | MID_LEVEL | SENIOR | EXECUTIVE | NO_EXPERIENCE.

Inductive EmploymentType :=
| FULL_TIME | PART_TIME | CONTRACT | TEMPORARY | INTERNSHIP | FREELANCE.

Definition EmploymentType_value (t : EmploymentType) : string :=
  match t with
  | FULL_TIME => "Full Time"
  | PART_TIME => "Part Time"
  | CONTRACT => "Contract"
  | TEMPORARY => "Temporary"
  | INTERNSHIP => "Internship"
  | FREELANCE => "Freelance"
  end.

Definition EmploymentType_eqb (a b : EmploymentType) : bool :=
  String.eqb (EmploymentType_value a) (EmploymentType_value b).

Module JobDB.
Record t := mk {
  id : string;
  title : string;
  location : string;
  description : string;
  category : JobCategory;
  employment_type : EmploymentType;
  experience_level : ExperienceLevel;
  salary_min : option Q;
  salary_max : option Q;
  requirements : list string;
  advantages : list string;
  required_languages : list string;
  physical_requirements : option string;
  certifications_required : list string;
  shift_work : bool;
  weekend_work : bool;
  benefits : list string
}.
End JobDB.

Module CandidateDB.
Record t := mk {
  id : string;
  name : string;
  location : string;
  email : option string;
  phone : option string;
  year_of_birth : option string;
  education : string;
  experience : list string;
  years_of_experience : option Z;
  experience_level : option ExperienceLevel;
  skills : list string;
  languages : list string;
  certifications : list string;
  willing_to_work_shifts : bool;
  willing_to_work_weekends : bool;
  preferred_employment_type : option EmploymentType;
  salary_expectation : Q;
  resume_filename : option string;
  resume_content_type : option string
}.

(** The candidate with one more entry at the end of [experience]. *)
Definition add_experience (c : t) (entry : string) : t :=
  mk (id c) (name c) (location c) (email c) (phone c) (year_of_birth c)
     (education c) (experience c ++ [entry]) (years_of_experience c)
     (experience_level c) (skills c) (languages c) (certifications c)
     (willing_to_work_shifts c) (willing_to_work_weekends c)
     (preferred_employment_type c) (salary_expectation c)
     (resume_filename c) (resume_content_type c).
End CandidateDB.
(* ------------------------------------------------------------------ *)
(** ** The pictographs that open the reason strings, byte for byte as the
    two source files spell them *)

Module Icon.
Definition loc : string := "üìç".
Definition sal : string := "üí∞".
Definition req : string := "‚úÖ".
Definition adv : string := "‚≠ê".
Definition lang : string := "üó£Ô∏è".
Definition avail : string := "üìÖ".
Definition cert : string := "üìú".
Definition emp : string := "üìã".
Definition cross : string := "‚ùå".
Definition ok : string := "✅".
Definition warn : string := "⚠️".
Definition no : string := "❌".
End Icon.

(* ------------------------------------------------------------------ *)
(** ** Exceptions, the environment and the service state *)

(** An embedding, [torch.Tensor]. *)
Definition Tensor := list Q.

(** The outcome of a call: a value, or an exception with its [str(e)]. *)
Inductive result (A : Type) : Type :=
| Ok (a : A)
| Raise (msg : string).
Arguments Ok {A} a.
Arguments Raise {A} msg.

(** The per-factor scorers a pair goes through. *)
Inductive scorer :=
| SLocation | SSalary | SRequirements | SAdvantages | SLanguages
| SAvailability | SCertifications | SEmploymentType.

(** What the engine takes from outside.  [timer n] is the [n]-th reading of
    the cache's clock; [unexpected s job cand] is the message of the
    exception scorer [s] raises on the pair, if it raises one. *)
Record Env := {
  repr_float : Q -> string;
  format_employment_type : EmploymentType -> string;
  md5_hexdigest : string -> string;
  encode : string -> result Tensor;
  pytorch_cos_sim : Tensor -> Tensor -> result Q;
  timer : nat -> Q;
  unexpected : scorer -> JobDB.t -> CandidateDB.t -> option string
}.

(** Modelled from the spec: [cachetools.TTLCache], which the repository
    imports and does not define.  Section 4.1: a bounded map whose entries
    expire a fixed time after they are stored and which evicts the least
    recently used entry once full.  [entries] is kept in the order the
    entries were stored (the order in which they expire), [lru] lists the
    keys from the least to the most recently used. *)
Module TTLCache.

Record t := mk {
  maxsize : Z;
  ttl : Q;
  entries : list (string * (Tensor * Q));
  lru : list string
}.

Definition empty (maxsize : Z) (ttl : Q) : t := mk maxsize ttl [] [].

Fixpoint find (k : string) (es : list (string * (Tensor * Q)))
  : option (Tensor * Q) :=
  match es with
  | [] => None
  | (k', x) :: es' => if String.eqb k k' then Some x else find k es'
  end.

Definition remove (k : string) (es : list (string * (Tensor * Q)))
  : list (string * (Tensor * Q)) :=
  filter (fun e => negb (String.eqb k (fst e))) es.

Definition remove_key (k : string) (ks : list string) : list string :=
  filter (fun k' => negb (String.eqb k k')) ks.

(** [OrderedDict.move_to_end] *)
Definition move_to_end (k : string) (ks : list string) : list string :=
  remove_key k ks ++ [k].

(** The entries at the head of the expiry order that are due at [time]. *)
Fixpoint expired_prefix (time : Q) (es : list (string * (Tensor * Q)))
  : list string :=
  match es with
  | [] => []
  | (k, (_, e)) :: es' =>
      if Qltb time e then [] else k :: expired_prefix time es'
  end.

Fixpoint drop_expired (time : Q) (es : list (string * (Tensor * Q)))
  : list (string * (Tensor * Q)) :=
  match es with
  | [] => []
  | (k, (v, e)) :: es' =>
      if Qltb time e then es else drop_expired time es'
  end.

(** [expire(time)] *)
Definition expire (time : Q) (c : t) : t :=
  mk (maxsize c) (ttl c)
     (drop_expired time (entries c))
     (fold_left (fun ks k => remove_key k ks)
                (expired_prefix time (entries c)) (lru c)).

(** [popitem()] once the expired entries are gone: the least recently used
    key leaves. *)
Definition popitem (c : t) : result unit * t :=
  match lru c with
  | [] => (Raise "'TTLCache is empty'", c)
  | k :: ks => (Ok tt, mk (maxsize c) (ttl c) (remove k (entries c)) ks)
  end.

(** [while currsize + 1 > maxsize: popitem()] *)
Fixpoint make_room (fuel : nat) (c : t) : result unit * t :=
  if (Z.of_nat (List.length (entries c)) + 1 >? maxsize c)%Z then
    match fuel with
    | O => (Raise "'TTLCache is empty'", c)
    | S fuel' =>
        match popitem c with
        | (Ok _, c') => make_room fuel' c'
        | (Raise msg, c') => (Raise msg, c')
        end
    end
  else (Ok tt, c).

(** [cache[k] = v] at clock reading [time]; every value has size 1.  The
    cache returned is the one left behind, also when the store raises. *)
Definition setitem (time : Q) (k : string) (v : Tensor) (c : t)
  : result unit * t :=
  let c1 := expire time c in
  if (1 >? maxsize c1)%Z then (Raise "value too large", c1)
  else
    let room :=
      match find k (entries c1) with
      | None => make_room (List.length (entries c1)) c1
      | Some _ => (Ok tt, c1)
      end in
    match room with
    | (Raise msg, c2) => (Raise msg, c2)
    | (Ok _, c2) =>
        (Ok tt,
         mk (maxsize c2) (ttl c2)
            (remove k (entries c2) ++ [(k, (v, time + ttl c2))])
            (move_to_end k (lru c2)))
    end.

(** The entries [len(cache)] counts at clock reading [time]. *)
Definition len (time : Q) (c : t) : nat :=
  List.length (entries c) - List.length (expired_prefix time (entries c)).

End TTLCache.

(** The state of one [MatchingService]: its cache, the number of clock
    readings taken and the texts passed to [model.encode], latest first. *)
Record Service := {
  _embedding_cache : TTLCache.t;
  clock_reads : nat;
  encode_calls : list string
}.

(** [settings.CACHE_SIZE] and [settings.CACHE_TTL] *)
Record Settings := { CACHE_SIZE : Z; CACHE_TTL : Q }.

Definition default_settings : Settings :=
  {| CACHE_SIZE := 1000; CACHE_TTL := 3600 |}.

(** [MatchingService.__init__] *)
Definition __init__ (settings : Settings) : Service :=
  {| _embedding_cache :=
       TTLCache.empty (CACHE_SIZE settings) (CACHE_TTL settings);
     clock_reads := 0;
     encode_calls := [] |}.

(** A computation of the service: it may raise and it may change the
    state; a raised exception keeps the changes made before it. *)
Definition M (A : Type) : Type := Service -> result A * Service.

Definition ret {A} (a : A) : M A := fun s => (Ok a, s).

Definition raise {A} (msg : string) : M A := fun s => (Raise msg, s).

Definition bind {A B} (m : M A) (k : A -> M B) : M B :=
  fun s =>
    match m s with
    | (Ok a, s') => k a s'
    | (Raise msg, s') => (Raise msg, s')
    end.

(** [try: body  except Exception as e: handler(str(e))] *)
Definition try_except {A} (body : M A) (handler : string -> M A) : M A :=
  fun s =>
    match body s with
    | (Ok a, s') => (Ok a, s')
    | (Raise msg, s') => handler msg s'
    end.

Definition lift {A} (r : result A) : M A := fun s => (r, s).

Notation "x <- c1 ;; c2" := (bind c1 (fun x => c2))
  (at level 61, c1 at next level, right associativity).
Notation "' pat <- c1 ;; c2" :=
  (bind c1 (fun x => match x with pat => c2 end))
  (at level 61, pat pattern, c1 at next level, right associativity).

Definition get_cache : M TTLCache.t := fun s => (Ok (_embedding_cache s), s).

Definition put_cache (c : TTLCache.t) : M unit :=
  fun s => (Ok tt, {| _embedding_cache := c;
                      clock_reads := clock_reads s;
                      encode_calls := encode_calls s |}).

(* ------------------------------------------------------------------ *)
(** ** The data classes of matching_service.py *)

Module ScoringBreakdown.
Record t := mk {
  location_match : Q;
  salary_match : Q;
  requirements_match : Q;
  advantages_match : Q;
  language_match : Q;
  semantic_similarity : Q
}.

(** [breakdown.semantic_similarity = x] *)
Definition set_semantic_similarity (b : t) (x : Q) : t :=
  mk (location_match b) (salary_match b) (requirements_match b)
     (advantages_match b) (language_match b) x.
End ScoringBreakdown.

Module MatchResult.
Record t := mk {
  candidate : option CandidateDB.t;
  job : option JobDB.t;
  score : Q;
  semantic_score : Q;
  rule_score : Q;
  breakdown : option ScoringBreakdown.t;
  match_reasons : list string
}.
End MatchResult.

(** The value under ["breakdown"] in a ranking entry. *)
Module BreakdownDict.
Record t := mk {
  location : Q;
  salary : Q;
  requirements : Q;
  advantages : Q;
  languages : Q
}.

Definition of_breakdown (b : option ScoringBreakdown.t) : t :=
  mk (match b with Some b => ScoringBreakdown.location_match b | None => 0 end)
     (match b with Some b => ScoringBreakdown.salary_match b | None => 0 end)
     (match b with Some b => ScoringBreakdown.requirements_match b | None => 0 end)
     (match b with Some b => ScoringBreakdown.advantages_match b | None => 0 end)
     (match b with Some b => ScoringBreakdown.language_match b | None => 0 end).
End BreakdownDict.

(** An entry of the list [rank_candidates_for_job] returns. *)
Module CandidateEntry.
Record t := mk {
  candidate : option CandidateDB.t;
  score : Q;
  semantic_score : Q;
  rule_score : Q;
  match_reasons : list string;
  breakdown : BreakdownDict.t
}.

Definition of_match (m : MatchResult.t) : t :=
  mk (MatchResult.candidate m) (MatchResult.score m)
     (MatchResult.semantic_score m) (MatchResult.rule_score m)
     (MatchResult.match_reasons m)
     (BreakdownDict.of_breakdown (MatchResult.breakdown m)).
End CandidateEntry.

(** An entry of the list [rank_jobs_for_candidate] returns. *)
Module JobEntry.
Record t := mk {
  job : option JobDB.t;
  score : Q;
  semantic_score : Q;
  rule_score : Q;
  match_reasons : list string;
  breakdown : BreakdownDict.t
}.

Definition of_match (m : MatchResult.t) : t :=
  mk (MatchResult.job m) (MatchResult.score m)
     (MatchResult.semantic_score m) (MatchResult.rule_score m)
     (MatchResult.match_reasons m)
     (BreakdownDict.of_breakdown (MatchResult.breakdown m)).
End JobEntry.

(** [xs.sort(key=key, reverse=True)].  Python's sort is stable, with
    [reverse=True] as well: elements with equal keys keep their order.
    Straight insertion does the same: an element goes in front of the first
    one whose key is not greater than its own. *)
Fixpoint insert_reverse {A} (key : A -> Q) (x : A) (l : list A) : list A :=
  match l with
  | [] => [x]
  | y :: l' =>
      if Qltb (key x) (key y) then y :: insert_reverse key x l' else x :: l
  end.

Definition sort_reverse {A} (key : A -> Q) (l : list A) : list A :=
  fold_right (insert_reverse key) [] l.

(** [xs.append(x)] *)
Definition append {A} (xs : list A) (x : A) : list A := (xs ++ [x])%list.

(** [d.get(k, default)] *)
Fixpoint dict_get (d : list (string * Q)) (k : string) (default : Q) : Q :=
  match d with
  | [] => default
  | (k', v) :: d' => if String.eqb k k' then v else dict_get d' k default
  end.

(* ------------------------------------------------------------------ *)
(** ** app/services/category_matching.py *)

Section CategoryMatchingStrategy.

Variable E : Env.

Definition get_scoring_weights (category : JobCategory)
  : list (string * Q) :=
  match category with
  | TECHNOLOGY =>
      [("skills", 0.40); ("experience", 0.25); ("education", 0.20);
       ("languages", 0.10); ("availability", 0.05)]
  | RETAIL =>
      [("skills", 0.15); ("experience", 0.20); ("education", 0.05);
       ("languages", 0.20); ("availability", 0.40)]
  | HOSPITALITY =>
      [("skills", 0.15); ("experience", 0.20); ("education", 0.05);
       ("languages", 0.30); ("availability", 0.30)]
  | HEALTHCARE =>
      [("skills", 0.25); ("experience", 0.25); ("education", 0.20);
       ("languages", 0.15); ("availability", 0.15);
       ("certifications", 0.30)]
  | MANUFACTURING =>
      [("skills", 0.25); ("experience", 0.30); ("education", 0.05);
       ("languages", 0.05); ("availability", 0.25);
       ("certifications", 0.10)]
  | CUSTOMER_SERVICE =>
      [("skills", 0.20); ("experience", 0.20); ("education", 0.10);
       ("languages", 0.35); ("availability", 0.15)]
  | _ =>
      [("skills", 0.25); ("experience", 0.25); ("education", 0.15);
       ("languages", 0.15); ("availability", 0.15);
       ("certifications", 0.05)]
  end.

Definition score_availability (job : JobDB.t) (candidate : CandidateDB.t)
  : Q * string :=
  let score := 0.0 in
  let reasons : list string := [] in
  (* Shift work *)
  let shift : option (Q * list string) :=
    if JobDB.shift_work job then
      if CandidateDB.willing_to_work_shifts candidate then
        Some (score + 0.5, append reasons (Icon.ok ++ " Willing to work shifts"))
      else None
    else Some (score + 0.5, reasons) in
  match shift with
  | None =>
      (0.0, PyStr.join " | "
              (append reasons
                 (Icon.warn ++ " Not willing to work shifts (required)")))
  | Some (score, reasons) =>
      (* Weekend work *)
      let weekend : option (Q * list string) :=
        if JobDB.weekend_work job then
          if CandidateDB.willing_to_work_weekends candidate then
            Some (score + 0.5,
                  append reasons (Icon.ok ++ " Willing to work weekends"))
          else None
        else Some (score + 0.5, reasons) in
      match weekend with
      | None =>
          (0.0, PyStr.join " | "
                  (append reasons
                     (Icon.warn ++ " Not willing to work weekends (required)")))
      | Some (score, reasons) =>
          (score,
           match reasons with
           | [] => "No special availability required"
           | _ => PyStr.join " | " reasons
           end)
      end
  end.

Definition score_certifications (job : JobDB.t) (candidate : CandidateDB.t)
  : Q * string :=
  let required_certs :=
    PyStr.to_set (map PyStr.lower (JobDB.certifications_required job)) in
  let candidate_certs :=
    PyStr.to_set (map PyStr.lower (CandidateDB.certifications candidate)) in
  match required_certs with
  | [] => (1.0, "No certifications required")
  | _ =>
      let matched :=
        filter (fun c => PyStr.mem c candidate_certs) required_certs in
      let missing :=
        filter (fun c => negb (PyStr.mem c candidate_certs)) required_certs in
      match missing with
      | _ :: _ =>
          (0.0, Icon.no ++ " Missing certifications: "
                ++ PyStr.join ", " missing)
      | [] =>
          (1.0, Icon.ok ++ " Has all required certifications: "
                ++ PyStr.join ", " matched)
      end
  end.

Definition score_employment_type (job : JobDB.t) (candidate : CandidateDB.t)
  : Q * string :=
  match CandidateDB.preferred_employment_type candidate with
  | None => (0.5, "No employment type preference")
  | Some preferred =>
      if EmploymentType_eqb (JobDB.employment_type job) preferred then
        (1.0, Icon.ok ++ " Prefers "
              ++ format_employment_type E (JobDB.employment_type job))
      else
        (0.3, Icon.warn ++ " Prefers " ++ format_employment_type E preferred
              ++ ", job is "
              ++ format_employment_type E (JobDB.employment_type job))
  end.

End CategoryMatchingStrategy.

(* ------------------------------------------------------------------ *)
(** ** app/services/matching_service.py: the rule scorers *)

Section RuleScorers.

Variable E : Env.

Definition _score_location (job : JobDB.t) (candidate : CandidateDB.t)
  : Q * string :=
  let job_loc := PyStr.strip (PyStr.lower (JobDB.location job)) in
  let cand_loc := PyStr.strip (PyStr.lower (CandidateDB.location candidate)) in
  if String.eqb job_loc cand_loc then (1.0, "Exact location match")
  else if PyStr.contains job_loc cand_loc || PyStr.contains cand_loc job_loc
  then (0.8, "Partial location match")
  else (0.3, "Different location").

Definition _score_salary (job : JobDB.t) (candidate : CandidateDB.t)
  : Q * string :=
  match JobDB.salary_min job, JobDB.salary_max job with
  | None, None => (0.5, "No salary constraints")
  | salary_min, salary_max =>
      let expectation := CandidateDB.salary_expectation candidate in
      let below :=
        match salary_min with
        | Some lo => if Qltb expectation lo then Some lo else None
        | None => None
        end in
      match below with
      | Some lo =>
          (0.0, "Below minimum salary (expects " ++ repr_float E expectation
                ++ ", min " ++ repr_float E lo ++ ")")
      | None =>
          let above :=
            match salary_max with
            | Some hi => if Qltb hi expectation then Some hi else None
            | None => None
            end in
          match above with
          | Some hi =>
              (0.0, "Above maximum salary (expects "
                    ++ repr_float E expectation
                    ++ ", max " ++ repr_float E hi ++ ")")
          | None =>
              match salary_min, salary_max with
              | Some lo, Some hi =>
                  (1.0, "Salary in range (" ++ repr_float E lo ++ "-"
                        ++ repr_float E hi ++ ")")
              | _, Some hi =>
                  (1.0, "Below maximum salary (max " ++ repr_float E hi ++ ")")
              | Some lo, None =>
                  (1.0, "Above minimum salary (min " ++ repr_float E lo ++ ")")
              | None, None => (0.5, "Salary not specified")
              end
          end
      end
  end.

(** The text the requirement and advantage scorers search. *)
Definition combined_text (candidate : CandidateDB.t) : string :=
  let experience_text :=
    PyStr.lower (PyStr.join " " (CandidateDB.experience candidate)) in
  let skill_text :=
    PyStr.lower (PyStr.join " " (CandidateDB.skills candidate)) in
  experience_text ++ " " ++ skill_text.

(** The list the loop [for req in ...: if req.lower() in combined_text:
    matched.append(req)] builds. *)
Definition matched_in (items : list string) (text : string) : list string :=
  filter (fun item => PyStr.contains (PyStr.lower item) text) items.

Definition _score_requirements (job : JobDB.t) (candidate : CandidateDB.t)
  : Q * string :=
  match JobDB.requirements job with
  | [] => (1.0, "No requirements specified")
  | requirements =>
      let matched_requirements :=
        matched_in requirements (combined_text candidate) in
      let match_ratio :=
        div_len (List.length matched_requirements)
                (List.length requirements) in
      if Qeq_bool match_ratio 1.0 then
        (1.0, "Meets all " ++ PyStr.of_nat (List.length requirements)
              ++ " requirements")
      else if Qltb 0 match_ratio then
        (match_ratio,
         "Meets " ++ PyStr.of_nat (List.length matched_requirements) ++ "/"
         ++ PyStr.of_nat (List.length requirements) ++ " requirements")
      else (0.0, "No requirements met")
  end.

Definition _score_advantages (job : JobDB.t) (candidate : CandidateDB.t)
  : Q * string :=
  match JobDB.advantages job with
  | [] => (0.0, "No advantages specified")
  | advantages =>
      let matched_advantages :=
        matched_in advantages (combined_text candidate) in
      let bonus_per_match := 0.2 in
      let bonus :=
        py_min 1.0
          (inject_Z (Z.of_nat (List.length matched_advantages))
           * bonus_per_match) in
      match matched_advantages with
      | _ :: _ =>
          (bonus,
           "Has " ++ PyStr.of_nat (List.length matched_advantages) ++ "/"
           ++ PyStr.of_nat (List.length advantages) ++ " nice-to-haves")
      | [] => (0.0, "No advantages matched")
      end
  end.

(** The elements of a Python set are listed in the order of their first
    occurrence; Python leaves the order open, and only the wording of two
    reasons depends on it. *)
Definition _score_languages (job : JobDB.t) (candidate : CandidateDB.t)
  : Q * string :=
  match JobDB.required_languages job with
  | [] => (0.0, "No language requirements")
  | required_languages =>
      let normal lang := PyStr.strip (PyStr.lower lang) in
      let required_set := PyStr.to_set (map normal required_languages) in
      let candidate_langs :=
        PyStr.to_set (map normal (CandidateDB.languages candidate)) in
      let matched :=
        filter (fun l => PyStr.mem l candidate_langs) required_set in
      if Nat.eqb (List.length matched) (List.length required_set) then
        (1.0, "Speaks all required languages: " ++ PyStr.join ", " matched)
      else
        match matched with
        | _ :: _ =>
            (div_len (List.length matched) (List.length required_set),
             "Speaks " ++ PyStr.of_nat (List.length matched) ++ "/"
             ++ PyStr.of_nat (List.length required_set)
             ++ " required languages")
        | [] =>
            (0.0, "Missing required languages: "
                  ++ PyStr.join ", " required_set)
        end
  end.

End RuleScorers.

(* ------------------------------------------------------------------ *)
(** ** app/services/matching_service.py: class MatchingService *)

Section MatchingService.

Variable E : Env.

Definition SEMANTIC_WEIGHT : Q := 0.6.
Definition RULE_WEIGHT : Q := 0.4.
Definition LOCATION_MAX : Q := 1.0.
Definition SALARY_MAX : Q := 1.0.
Definition REQUIREMENTS_MAX : Q := 1.0.

(** *** The clock, the model and the cache as the service uses them *)

(** [self.timer()] *)
Definition read_timer : M Q :=
  fun s =>
    (Ok (timer E (clock_reads s)),
     {| _embedding_cache := _embedding_cache s;
        clock_reads := S (clock_reads s);
        encode_calls := encode_calls s |}).

(** [self.model.encode(text, convert_to_tensor=True)] *)
Definition model_encode (text : string) : M Tensor :=
  fun s =>
    (encode E text,
     {| _embedding_cache := _embedding_cache s;
        clock_reads := clock_reads s;
        encode_calls := text :: encode_calls s |}).

(** [str(KeyError(key))] *)
Definition KeyError (key : string) : string := "'" ++ key ++ "'".

(** [key in self._embedding_cache]: the clock is read only for a key that
    is stored. *)
Definition cache_contains (key : string) : M bool :=
  c <- get_cache;;
  match TTLCache.find key (TTLCache.entries c) with
  | None => ret false
  | Some (_, expires) =>
      time <- read_timer;;
      ret (Qltb time expires)
  end.

(** [self._embedding_cache[key]]: a stored key becomes the most recently
    used, then its expiry is compared with a new clock reading. *)
Definition cache_getitem (key : string) : M Tensor :=
  c <- get_cache;;
  match TTLCache.find key (TTLCache.entries c) with
  | None => raise (KeyError key)
  | Some (value, expires) =>
      _ <- put_cache
             (TTLCache.mk (TTLCache.maxsize c) (TTLCache.ttl c)
                (TTLCache.entries c)
                (TTLCache.move_to_end key (TTLCache.lru c)));;
      time <- read_timer;;
      if Qltb time expires then ret value else raise (KeyError key)
  end.

(** [self._embedding_cache[key] = value] *)
Definition cache_setitem (key : string) (value : Tensor) : M unit :=
  time <- read_timer;;
  c <- get_cache;;
  let '(r, c') := TTLCache.setitem time key value c in
  _ <- put_cache c';;
  lift r.

(** *** Embedding and caching *)

Definition _get_text_hash (text : string) : string := md5_hexdigest E text.

Definition _get_embedding (text : string) : M Tensor :=
  let cache_key := _get_text_hash text in
  hit <- cache_contains cache_key;;
  if hit : bool then cache_getitem cache_key
  else
    try_except
      (embedding <- model_encode text;;
       _ <- cache_setitem cache_key embedding;;
       ret embedding)
      (fun e => raise e).

(** [filter(None, parts)] *)
Definition nonempty_parts (parts : list string) : list string :=
  filter (fun p => negb (String.eqb p "")) parts.

Definition _build_job_text (job : JobDB.t) : string :=
  let parts :=
    [JobDB.title job;
     JobDB.location job;
     JobDB.description job;
     PyStr.join " " (JobDB.requirements job);
     PyStr.join " " (JobDB.advantages job);
     PyStr.join " " (JobDB.required_languages job)] in
  PyStr.join " " (nonempty_parts parts).

Definition _build_candidate_text (candidate : CandidateDB.t) : string :=
  let parts :=
    [CandidateDB.name candidate;
     CandidateDB.location candidate;
     CandidateDB.education candidate;
     PyStr.join " " (CandidateDB.experience candidate);
     PyStr.join " " (CandidateDB.languages candidate);
     PyStr.join " " (CandidateDB.skills candidate)] in
  PyStr.join " " (nonempty_parts parts).

(** *** Semantic similarity *)

Definition _calculate_semantic_score
  (job : JobDB.t) (candidate : CandidateDB.t) : M Q :=
  try_except
    (let job_text := _build_job_text job in
     let candidate_text := _build_candidate_text candidate in
     job_emb <- _get_embedding job_text;;
     cand_emb <- _get_embedding candidate_text;;
     similarity <- lift (pytorch_cos_sim E job_emb cand_emb);;
     ret (py_max 0.0 (py_min 1.0 similarity)))
    (fun _ => ret 0.0).

(** *** Rule-based scoring *)

(** A call of scorer [s] on the pair: it raises when the environment says
    so, and returns what the scorer computes otherwise. *)
Definition scoring {A} (s : scorer) (job : JobDB.t)
  (candidate : CandidateDB.t) (value : A) : M A :=
  match unexpected E s job candidate with
  | Some msg => raise msg
  | None => ret value
  end.

Definition _calculate_rule_score
  (job : JobDB.t) (candidate : CandidateDB.t)
  : M (Q * ScoringBreakdown.t * list string) :=
  let reasons : list string := [] in
  (* Location *)
  '(loc_score, loc_reason) <-
    scoring SLocation job candidate (_score_location job candidate);;
  let reasons := append reasons (Icon.loc ++ " " ++ loc_reason) in
  (* Salary *)
  '(sal_score, sal_reason) <-
    scoring SSalary job candidate (_score_salary E job candidate);;
  let reasons := append reasons (Icon.sal ++ " " ++ sal_reason) in
  (* Requirements (critical) *)
  '(req_score, req_reason) <-
    scoring SRequirements job candidate (_score_requirements job candidate);;
  let reasons := append reasons (Icon.req ++ " " ++ req_reason) in
  (* Advantages (bonus) *)
  '(adv_score, adv_reason) <-
    scoring SAdvantages job candidate (_score_advantages job candidate);;
  let reasons :=
    if Qltb 0 adv_score
    then append reasons (Icon.adv ++ " " ++ adv_reason) else reasons in
  (* Languages *)
  '(lang_score, lang_reason) <-
    scoring SLanguages job candidate (_score_languages job candidate);;
  let reasons :=
    if Qltb 0 lang_score
       || negb (Nat.eqb (List.length (JobDB.required_languages job)) 0)
    then append reasons (Icon.lang ++ " " ++ lang_reason) else reasons in
  (* Create breakdown *)
  let breakdown :=
    ScoringBreakdown.mk
      (loc_score * LOCATION_MAX)
      (sal_score * SALARY_MAX)
      (req_score * REQUIREMENTS_MAX)
      adv_score
      lang_score
      0.0 in
  let core_score :=
    ScoringBreakdown.location_match breakdown
    + ScoringBreakdown.salary_match breakdown
    + ScoringBreakdown.requirements_match breakdown in
  (* Normalize core to 0-1, then add bonuses *)
  let normalized_core := core_score / 3.0 in
  let total_with_bonus := normalized_core + (adv_score + lang_score) * 0.1 in
  (* Clamp to [0, 1] *)
  let final_rule_score := py_max 0.0 (py_min 1.0 total_with_bonus) in
  ret (final_rule_score, breakdown, reasons).

(** *** High-level matching *)

Definition _calculate_match (job : JobDB.t) (candidate : CandidateDB.t)
  : M MatchResult.t :=
  try_except
    ((* Semantic scoring *)
     semantic_score <- _calculate_semantic_score job candidate;;
     (* Rule-based scoring *)
     '(rule_score, breakdown, reasons) <-
       _calculate_rule_score job candidate;;
     (* Update breakdown with semantic score *)
     let breakdown :=
       ScoringBreakdown.set_semantic_similarity breakdown semantic_score in
     (* Hard filters (immediate rejection) *)
     if Qeq_bool (ScoringBreakdown.salary_match breakdown) 0.0 then
       let reasons :=
         append reasons (Icon.cross ++ " REJECTED: Salary mismatch") in
       ret (MatchResult.mk (Some candidate) (Some job)
              0.0
              (semantic_score * 100)
              (rule_score * 100)
              (Some breakdown)
              reasons)
     else if Qeq_bool (ScoringBreakdown.requirements_match breakdown) 0.0 then
       let reasons :=
         append reasons
           (Icon.cross ++ " REJECTED: Missing critical requirements") in
       ret (MatchResult.mk (Some candidate) (Some job)
              0.0
              (semantic_score * 100)
              (rule_score * 100)
              (Some breakdown)
              reasons)
     else
       (* Calculate final weighted score *)
       let final_score :=
         SEMANTIC_WEIGHT * semantic_score + RULE_WEIGHT * rule_score in
       (* Convert to percentage *)
       let final_percentage := final_score * 100 in
       ret (MatchResult.mk (Some candidate) (Some job)
              (round2 final_percentage)
              (round2 (semantic_score * 100))
              (round2 (rule_score * 100))
              (Some breakdown)
              reasons))
    (fun e =>
       ret (MatchResult.mk (Some candidate) (Some job)
              0.0 0.0 0.0 None
              [Icon.cross ++ " Error during matching: " ++ e])).

(** The body of the loop of [rank_candidates_for_job] for one candidate:
    [results] after the iteration. *)
Definition rank_candidates_step (job : JobDB.t) (min_score : Q)
  (results : list CandidateEntry.t) (candidate : CandidateDB.t)
  : M (list CandidateEntry.t) :=
  try_except
    (match_ <- _calculate_match job candidate;;
     (* Apply minimum score filter *)
     if Qltb (MatchResult.score match_) min_score then ret results
     else ret (append results (CandidateEntry.of_match match_)))
    (fun _ => ret results).

Fixpoint rank_candidates_loop (job : JobDB.t) (min_score : Q)
  (candidates : list CandidateDB.t) (results : list CandidateEntry.t)
  : M (list CandidateEntry.t) :=
  match candidates with
  | [] => ret results
  | candidate :: rest =>
      results <- rank_candidates_step job min_score results candidate;;
      rank_candidates_loop job min_score rest results
  end.

Definition rank_candidates_for_job (job : JobDB.t)
  (candidates : list CandidateDB.t) (min_score : Q)
  : M (list CandidateEntry.t) :=
  results <- rank_candidates_loop job min_score candidates [];;
  (* Sort by score descending *)
  ret (sort_reverse CandidateEntry.score results).

Definition rank_jobs_step (candidate : CandidateDB.t) (min_score : Q)
  (results : list JobEntry.t) (job : JobDB.t) : M (list JobEntry.t) :=
  try_except
    (match_ <- _calculate_match job candidate;;
     if Qltb (MatchResult.score match_) min_score then ret results
     else ret (append results (JobEntry.of_match match_)))
    (fun _ => ret results).

Fixpoint rank_jobs_loop (candidate : CandidateDB.t) (min_score : Q)
  (jobs : list JobDB.t) (results : list JobEntry.t) : M (list JobEntry.t) :=
  match jobs with
  | [] => ret results
  | job :: rest =>
      results <- rank_jobs_step candidate min_score results job;;
      rank_jobs_loop candidate min_score rest results
  end.

Definition rank_jobs_for_candidate (candidate : CandidateDB.t)
  (jobs : list JobDB.t) (min_score : Q) : M (list JobEntry.t) :=
  results <- rank_jobs_loop candidate min_score jobs [];;
  ret (sort_reverse JobEntry.score results).

(** *** Category mode *)

Definition _calculate_rule_score_with_category
  (job : JobDB.t) (candidate : CandidateDB.t)
  : M (Q * option ScoringBreakdown.t * list string) :=
  let weights := get_scoring_weights (JobDB.category job) in
  let reasons : list string := [] in
  (* Location *)
  '(loc_score, loc_reason) <-
    scoring SLocation job candidate (_score_location job candidate);;
  let reasons := append reasons (Icon.loc ++ " " ++ loc_reason) in
  (* Salary *)
  '(sal_score, sal_reason) <-
    scoring SSalary job candidate (_score_salary E job candidate);;
  let reasons := append reasons (Icon.sal ++ " " ++ sal_reason) in
  (* Requirements *)
  '(req_score, req_reason) <-
    scoring SRequirements job candidate (_score_requirements job candidate);;
  let reasons := append reasons (Icon.req ++ " " ++ req_reason) in
  (* Languages *)
  '(lang_score, lang_reason) <-
    scoring SLanguages job candidate (_score_languages job candidate);;
  let reasons := append reasons (Icon.lang ++ " " ++ lang_reason) in
  (* Availability *)
  '(avail_score, avail_reason) <-
    scoring SAvailability job candidate (score_availability job candidate);;
  if Qeq_bool avail_score 0.0 then
    (* Hard filter - immediate rejection *)
    ret (0.0, None,
         append reasons (Icon.cross ++ " REJECTED: " ++ avail_reason))
  else
    let reasons := append reasons (Icon.avail ++ " " ++ avail_reason) in
    (* Certifications *)
    '(cert_score, cert_reason) <-
      scoring SCertifications job candidate
        (score_certifications job candidate);;
    if Qeq_bool cert_score 0.0 then
      ret (0.0, None,
           append reasons (Icon.cross ++ " REJECTED: " ++ cert_reason))
    else
      let reasons := append reasons (Icon.cert ++ " " ++ cert_reason) in
      (* Employment type preference *)
      '(emp_score, emp_reason) <-
        scoring SEmploymentType job candidate
          (score_employment_type E job candidate);;
      let reasons := append reasons (Icon.emp ++ " " ++ emp_reason) in
      (* Calculate weighted final score *)
      let final_score :=
        loc_score * 0.15
        + sal_score * 0.15
        + req_score * dict_get weights "skills" 0.25
        + lang_score * dict_get weights "languages" 0.15
        + avail_score * dict_get weights "availability" 0.15
        + cert_score * dict_get weights "certifications" 0.10
        + emp_score * 0.10 in
      let breakdown :=
        ScoringBreakdown.mk loc_score sal_score req_score 0.0 lang_score 0.0 in
      ret (final_score, Some breakdown, reasons).

End MatchingService.

(* ------------------------------------------------------------------ *)
(** ** app/services/recommendation_service.py *)

(** The dictionary [calculate_recommendation_score] returns. *)
Module Recommendation.
Record t := mk {
  candidate : CandidateDB.t;
  score : Z;
  rule_score : Z;
  semantic_score : Z
}.
End Recommendation.

(** [return None] is [None]; the scores are Python integers. *)
Definition calculate_recommendation_score (job : JobDB.t)
  (candidate : CandidateDB.t) : option Recommendation.t :=
  let rule_score := 0%Z in
  let semantic_score := 0%Z in
  (* 1. location *)
  let rule_score :=
    if String.eqb (PyStr.lower (CandidateDB.location candidate))
                  (PyStr.lower (JobDB.location job))
    then (rule_score + 25)%Z else (rule_score + 10)%Z in
  (* 2. salary filtering + scoring *)
  let after_salary : option Z :=
    match JobDB.salary_max job with
    | Some salary_max =>
        if Qltb salary_max (CandidateDB.salary_expectation candidate)
        then None else Some (rule_score + 25)%Z
    | None => Some rule_score
    end in
  match after_salary with
  | None => None
  | Some rule_score =>
      (* 3. required languages *)
      let required_langs := PyStr.to_set (JobDB.required_languages job) in
      let candidate_langs := PyStr.to_set (CandidateDB.languages candidate) in
      let after_languages : option Z :=
        match required_langs with
        | [] => Some rule_score
        | _ :: _ =>
            let overlap :=
              List.length
                (filter (fun l => PyStr.mem l candidate_langs)
                        required_langs) in
            if Nat.eqb overlap 0 then None
            else if Nat.eqb overlap (List.length required_langs)
            then Some (rule_score + 20)%Z
            else Some (rule_score + 10)%Z
        end in
      match after_languages with
      | None => None
      | Some rule_score =>
          (* 4. mandatory requirements *)
          let mandatory := PyStr.to_set (JobDB.requirements job) in
          let candidate_exp_text :=
            PyStr.lower (PyStr.join " " (CandidateDB.experience candidate)) in
          if existsb
               (fun req =>
                  negb (PyStr.contains (PyStr.lower req) candidate_exp_text))
               mandatory
          then None
          else
            let rule_score := (rule_score + 20)%Z in
            (* 5. advantages *)
            let advantages := JobDB.advantages job in
            let adv_matches :=
              Z.of_nat
                (List.length
                   (filter
                      (fun adv =>
                         PyStr.contains (PyStr.lower adv) candidate_exp_text)
                      advantages)) in
            let semantic_score :=
              (semantic_score + Z.min 20 (adv_matches * 5))%Z in
            (* 6. experience bonus *)
            let semantic_score :=
              (semantic_score
               + Z.min 20
                   (Z.of_nat (List.length (CandidateDB.experience candidate))
                    * 2))%Z in
            (* 7. final score *)
            let final_score := Z.min 100 (rule_score + semantic_score) in
            Some (Recommendation.mk candidate final_score rule_score
                    semantic_score)
      end
  end.

(* ------------------------------------------------------------------ *)
(** ** The endpoints that call the two services

    The handlers are modelled from the point where the repositories have
    answered: what [job_repo.get], [cand_repo.get] and the [list] calls
    returned is an argument. *)

(** What a handler ends with: the value it returns, the [HTTPException] it
    raises, or another exception it lets through. *)
Inductive outcome (A : Type) : Type :=
| Response (a : A)
| HTTPException (status_code : Z) (detail : string)
| Unhandled (msg : string).
Arguments Response {A} a.
Arguments HTTPException {A} status_code detail.
Arguments Unhandled {A} msg.

(** app/api/recommendations.py, [recommend_for_job]. *)
Definition recommend_for_job (job : option JobDB.t)
  (candidates : list CandidateDB.t) : outcome (list Recommendation.t) :=
  match job with
  | None => HTTPException 404 "Job not found"
  | Some job =>
      let results :=
        fold_left
          (fun results candidate =>
             match calculate_recommendation_score job candidate with
             | Some match_ => append results match_
             | None => results
             end)
          candidates [] in
      (* Sort highest score first *)
      Response
        (sort_reverse (fun r => inject_Z (Recommendation.score r)) results)
  end.

(** An entry of the list [recommended_jobs_for_candidate] returns. *)
Module RecommendedJob.
Record t := mk {
  job : option JobDB.t;
  score : Q;
  semantic_score : Q;
  rule_score : Q
}.

Definition of_entry (r : JobEntry.t) : t :=
  mk (JobEntry.job r) (JobEntry.score r) (JobEntry.semantic_score r)
     (JobEntry.rule_score r).
End RecommendedJob.

(** app/api/candidates.py, [recommended_jobs_for_candidate]: a service of
    its own for the request, a ranking without threshold, then the entries
    of at least 40. *)
Definition recommended_jobs_for_candidate (E : Env) (settings : Settings)
  (candidate : option CandidateDB.t) (jobs : list JobDB.t)
  : outcome (list RecommendedJob.t) :=
  match candidate with
  | None => HTTPException 404 "Candidate not found"
  | Some candidate =>
      let matcher := __init__ settings in
      match rank_jobs_for_candidate E candidate jobs 0.0 matcher with
      | (Raise msg, _) => Unhandled msg
      | (Ok ranked, _) =>
          let ranked :=
            filter (fun r => Qle_bool 40 (JobEntry.score r)) ranked in
          Response (map RecommendedJob.of_entry ranked)
      end
  end.

(** app/api/candidate_matches.py, [MatchFilters]. *)
Module MatchFilters.
Record t := mk {
  location : option string;
  min_salary : option Q;
  max_salary : option Q;
  required_skills : option (list string)
}.
End MatchFilters.

(** [set(xs).issubset(ys)] *)
Definition issubset (xs ys : list string) : bool :=
  forallb (fun x => PyStr.mem x ys) xs.

(** The loop of [match_with_filters] that fills [filtered_jobs]: what one
    job goes through.  A filter that is [None], the empty string, 0.0 or the
    empty list is not applied, as Python's truth value has it. *)
Definition passes_filters (filters : MatchFilters.t) (job : JobDB.t) : bool :=
  (* Location filter *)
  let location_out :=
    match MatchFilters.location filters with
    | Some location =>
        negb (String.eqb location "")
        && negb (PyStr.contains (PyStr.lower location)
                   (PyStr.lower (JobDB.location job)))
    | None => false
    end in
  (* Salary filter *)
  let min_salary_out :=
    match MatchFilters.min_salary filters with
    | Some min_salary =>
        negb (Qeq_bool min_salary 0)
        && match JobDB.salary_max job with
           | None => true
           | Some salary_max => Qltb salary_max min_salary
           end
    | None => false
    end in
  let max_salary_out :=
    match MatchFilters.max_salary filters with
    | Some max_salary =>
        negb (Qeq_bool max_salary 0)
        && match JobDB.salary_min job with
           | None => true
           | Some salary_min => Qltb max_salary salary_min
           end
    | None => false
    end in
  (* Skills filter (job must have ALL required skills) *)
  let skills_out :=
    match MatchFilters.required_skills filters with
    | Some [] => false
    | Some required_skills =>
        let job_skills :=
          PyStr.to_set
            (map PyStr.lower
               (JobDB.requirements job ++ JobDB.advantages job)%list) in
        let required := PyStr.to_set (map PyStr.lower required_skills) in
        negb (issubset required job_skills)
    | None => false
    end in
  if location_out then false
  else if min_salary_out then false
  else if max_salary_out then false
  else if skills_out then false
  else true.

Definition filtered_jobs (filters : MatchFilters.t) (all_jobs : list JobDB.t)
  : list JobDB.t :=
  filter (passes_filters filters) all_jobs.

(** The three numbers of the summary [match_with_filters] returns, and the
    ranking, once the candidate and the jobs are fetched. *)
Module FilteredMatches.
Record t := mk {
  total_jobs : nat;
  after_filters : nat;
  matches_found : nat;
  matches : list JobEntry.t
}.
End FilteredMatches.

(** app/api/candidate_matches.py, [match_with_filters], from the fetch of
    the candidate on; [matcher] is the service the request was given. *)
Definition match_with_filters (E : Env) (candidate : option CandidateDB.t)
  (all_jobs : list JobDB.t) (filters : MatchFilters.t) (min_score : Q)
  : Service -> outcome FilteredMatches.t * Service :=
  fun matcher =>
    match candidate with
    | None => (HTTPException 404 "Candidate not found", matcher)
    | Some candidate =>
        let filtered := filtered_jobs filters all_jobs in
        match filtered with
        | [] =>
            (Response (FilteredMatches.mk (List.length all_jobs) 0 0 []),
             matcher)
        | _ :: _ =>
            match rank_jobs_for_candidate E candidate filtered min_score
                    matcher with
            | (Ok matches, matcher') =>
                (Response
                   (FilteredMatches.mk (List.length all_jobs)
                      (List.length filtered) (List.length matches) matches),
                 matcher')
            | (Raise _, matcher') =>
                (HTTPException 500 "Error performing filtered match",
                 matcher')
            end
        end
    end.

(* ------------------------------------------------------------------ *)
(** ** The reading of the spec the code is compared with *)

(** [item] occurs in [text] when the case of the letters is ignored. *)
Definition occurs_ignoring_case (item text : string) : bool :=
  PyStr.contains (PyStr.lower item) (PyStr.lower text).

(** The concatenation of the candidate's experience and skills text. *)
Definition experience_and_skills (candidate : CandidateDB.t) : string :=
  PyStr.join " " (CandidateDB.experience candidate) ++ " "
  ++ PyStr.join " " (CandidateDB.skills candidate).

(** The required items found in the candidate's text. *)
Definition requirements_found (job : JobDB.t) (candidate : CandidateDB.t)
  : list string :=
  filter (fun req => occurs_ignoring_case req (experience_and_skills candidate))
         (JobDB.requirements job).

(** A dimension of availability is met when the job does not ask for it or
    the candidate accepts it. *)
Definition dimension_met (required willing : bool) : bool :=
  negb required || willing.

(** No scorer raises on the pair. *)
Definition runs_clean (E : Env) (job : JobDB.t) (candidate : CandidateDB.t)
  : Prop :=
  forall s, unexpected E s job candidate = None.

(** The scorers the default mode of [_calculate_match] goes through. *)
Definition default_mode_scorer (s : scorer) : bool :=
  match s with
  | SLocation | SSalary | SRequirements | SAdvantages | SLanguages => true
  | SAvailability | SCertifications | SEmploymentType => false
  end.

(** [_calculate_match] on every counterpart in turn, the cache carried
    from one pair to the next. *)
Fixpoint evaluate_candidates (E : Env) (job : JobDB.t)
  (candidates : list CandidateDB.t) : M (list MatchResult.t) :=
  match candidates with
  | [] => ret []
  | candidate :: rest =>
      m <- _calculate_match E job candidate;;
      ms <- evaluate_candidates E job rest;;
      ret (m :: ms)
  end.

Fixpoint evaluate_jobs (E : Env) (candidate : CandidateDB.t)
  (jobs : list JobDB.t) : M (list MatchResult.t) :=
  match jobs with
  | [] => ret []
  | job :: rest =>
      m <- _calculate_match E job candidate;;
      ms <- evaluate_jobs E candidate rest;;
      ret (m :: ms)
  end.

(** The results that are not strictly below the threshold. *)
Definition kept (min_score : Q) (ms : list MatchResult.t)
  : list MatchResult.t :=
  filter (fun m => negb (Qltb (MatchResult.score m) min_score)) ms.

(** Scores from the highest to the lowest. *)
Definition descending {A} (key : A -> Q) (l : list A) : Prop :=
  StronglySorted (fun a b => key b <= key a) l.

(** The elements of [l'] that share a score stand in the order they have
    in [l]. *)
Definition keeps_order_of_ties {A} (key : A -> Q) (l l' : list A) : Prop :=
  forall q, filter (fun x => Qeq_bool (key x) q) l'
            = filter (fun x => Qeq_bool (key x) q) l.

(** The result [_calculate_match] gives when the evaluation of the pair
    raised [msg]. *)
Definition error_result (job : JobDB.t) (candidate : CandidateDB.t)
  (msg : string) : MatchResult.t :=
  MatchResult.mk (Some candidate) (Some job) 0.0 0.0 0.0 None
    [Icon.cross ++ " Error during matching: " ++ msg].

(** Every requirement found in the searched text is found without
    crossing the seam: in the experience text with the blank that follows
    it, or in the skills text with the blank that precedes it. *)
Definition found_within_one_field (job : JobDB.t)
  (candidate : CandidateDB.t) : Prop :=
  let experience_text :=
    PyStr.lower (PyStr.join " " (CandidateDB.experience candidate)) in
  let skill_text :=
    PyStr.lower (PyStr.join " " (CandidateDB.skills candidate)) in
  forall req,
    In req (JobDB.requirements job) ->
    PyStr.contains (PyStr.lower req) (combined_text candidate) = true ->
    PyStr.contains (PyStr.lower req) (experience_text ++ " ") = true \/
    PyStr.contains (PyStr.lower req) (" " ++ skill_text) = true.

(** What [_calculate_match] builds from the two scores. *)
Definition assembled (job : JobDB.t) (candidate : CandidateDB.t)
  (semantic_score rule_score : Q) (b : ScoringBreakdown.t)
  (reasons : list string) : MatchResult.t :=
  let b := ScoringBreakdown.set_semantic_similarity b semantic_score in
  if Qeq_bool (ScoringBreakdown.salary_match b) 0.0 then
    MatchResult.mk (Some candidate) (Some job) 0.0
      (semantic_score * 100) (rule_score * 100) (Some b)
      (append reasons (Icon.cross ++ " REJECTED: Salary mismatch"))
  else if Qeq_bool (ScoringBreakdown.requirements_match b) 0.0 then
    MatchResult.mk (Some candidate) (Some job) 0.0
      (semantic_score * 100) (rule_score * 100) (Some b)
      (append reasons
         (Icon.cross ++ " REJECTED: Missing critical requirements"))
  else
    MatchResult.mk (Some candidate) (Some job)
      (round2 ((SEMANTIC_WEIGHT * semantic_score + RULE_WEIGHT * rule_score)
               * 100))
      (round2 (semantic_score * 100)) (round2 (rule_score * 100)) (Some b)
      reasons.

(** When the entry stored for [text], if there is one, expires. *)
Definition expiry_of (E : Env) (st : Service) (text : string) : option Q :=
  option_map snd
    (TTLCache.find (_get_text_hash E text)
       (TTLCache.entries (_embedding_cache st))).

(** The advantages found, case ignored, in the candidate's text. *)
Definition advantages_found (job : JobDB.t) (candidate : CandidateDB.t)
  : list string :=
  filter (fun adv => occurs_ignoring_case adv (experience_and_skills candidate))
         (JobDB.advantages job).

(** A language as the language scorer compares it. *)
Definition normal_language (lang : string) : string :=
  PyStr.strip (PyStr.lower lang).

(** The candidate lists the language, case and surrounding blanks apart. *)
Definition speaks (candidate : CandidateDB.t) (lang : string) : bool :=
  existsb (fun l => String.eqb (normal_language lang) (normal_language l))
          (CandidateDB.languages candidate).

(** The candidate holds the certification, case apart. *)
Definition holds_certification (candidate : CandidateDB.t) (cert : string)
  : bool :=
  existsb (fun c => String.eqb (PyStr.lower cert) (PyStr.lower c))
          (CandidateDB.certifications candidate).

(** The result is a hard reject or an error result. *)
Definition rejected_or_failed (m : MatchResult.t) : Prop :=
  match MatchResult.breakdown m with
  | None => True
  | Some b =>
      ScoringBreakdown.salary_match b == 0.0 \/
      ScoringBreakdown.requirements_match b == 0.0
  end.

(** The two orders of the cache list the same keys, each once. *)
Definition TTLCache_in_step (c : TTLCache.t) : Prop :=
  NoDup (TTLCache.lru c) /\
  Permutation (map fst (TTLCache.entries c)) (TTLCache.lru c).

(** The cache holds no more entries than its capacity allows, and its two
    orders list the same keys, each once. *)
Definition within_capacity (c : TTLCache.t) : Prop :=
  (Z.of_nat (List.length (TTLCache.entries c))
   <= Z.max 0 (TTLCache.maxsize c))%Z /\
  NoDup (TTLCache.lru c) /\
  Permutation (map fst (TTLCache.entries c)) (TTLCache.lru c).

(** The cache is within its capacity and keeps the capacity and the time
    to live it had in [before]. *)
Definition capacity_kept (before after : Service) : Prop :=
  within_capacity (_embedding_cache after) /\
  TTLCache.maxsize (_embedding_cache after)
  = TTLCache.maxsize (_embedding_cache before) /\
  TTLCache.ttl (_embedding_cache after)
  = TTLCache.ttl (_embedding_cache before).

(** The three strict filters of [calculate_recommendation_score]. *)
Definition too_expensive (job : JobDB.t) (candidate : CandidateDB.t) : Prop :=
  exists salary_max,
    JobDB.salary_max job = Some salary_max /\
    salary_max < CandidateDB.salary_expectation candidate.

Definition no_common_language (job : JobDB.t) (candidate : CandidateDB.t)
  : Prop :=
  JobDB.required_languages job <> [] /\
  forall lang, In lang (JobDB.required_languages job) ->
               ~ In lang (CandidateDB.languages candidate).

Definition misses_requirement (job : JobDB.t) (candidate : CandidateDB.t)
  : Prop :=
  exists req,
    In req (JobDB.requirements job) /\
    PyStr.contains (PyStr.lower req)
      (PyStr.lower (PyStr.join " " (CandidateDB.experience candidate)))
    = false.

(** The recommendations for the candidates that pass the strict filters,
    in the order of the candidates. *)
Definition recommendations (job : JobDB.t) (candidates : list CandidateDB.t)
  : list Recommendation.t :=
  flat_map
    (fun candidate =>
       match calculate_recommendation_score job candidate with
       | Some r => [r]
       | None => []
       end)
    candidates.

(** No filter of the request is active. *)
Definition no_filter (filters : MatchFilters.t) : Prop :=
  (MatchFilters.location filters = None \/
   MatchFilters.location filters = Some "") /\
  (MatchFilters.min_salary filters = None \/
   exists q, MatchFilters.min_salary filters = Some q /\ q == 0) /\
  (MatchFilters.max_salary filters = None \/
   exists q, MatchFilters.max_salary filters = Some q /\ q == 0) /\
  (MatchFilters.required_skills filters = None \/
   MatchFilters.required_skills filters = Some []).

(* ------------------------------------------------------------------ *)
(** ** Sample data *)

Module Sample.

Definition env : Env :=
  {| repr_float := fun q => PyStr.of_nat (Z.to_nat (Qfloor q));
     format_employment_type := EmploymentType_value;
     md5_hexdigest := fun text => text;
     encode := fun text => Ok [inject_Z (Z.of_nat (String.length text))];
     pytorch_cos_sim := fun _ _ => Ok 0.5;
     timer := fun n => inject_Z (Z.of_nat n);
     unexpected := fun _ _ _ => None |}.

(** The environment in which an hour and more passes between two clock
    readings. *)
Definition slow_env : Env :=
  {| repr_float := repr_float env;
     format_employment_type := EmploymentType_value;
     md5_hexdigest := fun text => text;
     encode := encode env;
     pytorch_cos_sim := pytorch_cos_sim env;
     timer := fun n => inject_Z (4000 * Z.of_nat n);
     unexpected := fun _ _ _ => None |}.

(** The environment in which the salary scorer raises on the candidates
    who expect 4000. *)
Definition faulty_env : Env :=
  {| repr_float := repr_float env;
     format_employment_type := EmploymentType_value;
     md5_hexdigest := fun text => text;
     encode := encode env;
     pytorch_cos_sim := pytorch_cos_sim env;
     timer := timer env;
     unexpected := fun s _ candidate =>
       match s with
       | SSalary =>
           if Qeq_bool (CandidateDB.salary_expectation candidate) 4000
           then Some "unsupported operand" else None
       | _ => None
       end |}.

Definition service : Service := __init__ default_settings.

Definition job (category : JobCategory) (salary_min salary_max : option Q)
  (requirements required_languages certifications_required : list string)
  (shift_work weekend_work : bool) : JobDB.t :=
  JobDB.mk "job-1" "Python developer" "Tel Aviv" "Backend services"
    category FULL_TIME MID_LEVEL salary_min salary_max requirements []
    required_languages None certifications_required shift_work weekend_work
    [].

Definition candidate (experience skills languages certifications : list string)
  (shifts weekends : bool) (preferred : option EmploymentType)
  (salary_expectation : Q) : CandidateDB.t :=
  CandidateDB.mk "cand-1" "Dana" "Tel Aviv" None None None "BSc"
    experience None None skills languages certifications shifts weekends
    preferred salary_expectation None None.

(** Section 8 of the spec: salary 5000 to 8000, one requirement. *)
Definition python_job : JobDB.t :=
  job OTHER (Some 5000) (Some 8000) ["python"] [] [] false false.

Definition python_dev : CandidateDB.t :=
  candidate ["3 years python developer"] [] [] [] false false None 6000.

Definition expensive_dev : CandidateDB.t :=
  candidate ["3 years python developer"] [] [] [] false false None 9000.

Definition cheap_dev : CandidateDB.t :=
  candidate ["3 years python developer"] [] [] [] false false None 4000.

Definition cook : CandidateDB.t :=
  candidate ["line cook"] ["knife skills"] [] [] false false None 6000.

Definition open_job : JobDB.t :=
  job OTHER None None [] [] [] false false.

Definition floor_job : JobDB.t :=
  job OTHER (Some 5000) None ["python"; "docker"] [] [] false false.

Definition shift_job : JobDB.t :=
  job RETAIL None None [] [] [] true false.

Definition weekend_job : JobDB.t :=
  job RETAIL None None [] [] [] false true.

(** A Technology job that asks for everything, and a candidate who has
    everything. *)
Definition tech_job : JobDB.t :=
  job TECHNOLOGY (Some 5000) (Some 8000) ["python"] ["English"] ["AWS"]
    true true.

Definition tech_candidate : CandidateDB.t :=
  candidate ["3 years python developer"] [] ["English"] ["AWS"]
    true true (Some FULL_TIME) 6000.

(** Two requirements, one of which is met only across the seam between the
    experience text and the skills text. *)
Definition seam_job : JobDB.t :=
  job OTHER None None ["java script"; "python"] [] [] false false.

Definition seam_candidate : CandidateDB.t :=
  candidate ["python java"] ["script"] [] [] false false None 6000.

(** A job that asks for two languages and two certifications, and a
    candidate who writes them in another case. *)
Definition clinic_job : JobDB.t :=
  job HEALTHCARE None None [] ["English"; " hebrew "] ["First Aid"; "CPR"]
    false false.

Definition nurse : CandidateDB.t :=
  candidate ["ward nurse"] [] ["HEBREW"; "english"] ["cpr"; "first aid"]
    false false None 6000.

Definition english_only : CandidateDB.t :=
  candidate ["ward nurse"] [] ["English"] ["cpr"] false false None 6000.

(** A job with advantages. *)
Definition bonus_job : JobDB.t :=
  JobDB.mk "job-2" "Backend developer" "Haifa" "APIs" TECHNOLOGY FULL_TIME
    SENIOR None (Some 8000) ["python"]
    ["docker"; "aws"; "sql"; "git"; "linux"; "react"] ["English"] None []
    false false [].

Definition all_rounder : CandidateDB.t :=
  candidate ["python with docker, aws, sql, git, linux and react"] []
    ["English"] [] false false None 6000.

(** An environment whose model cannot encode anything. *)
Definition offline_env : Env :=
  {| repr_float := repr_float env;
     format_employment_type := EmploymentType_value;
     md5_hexdigest := fun text => text;
     encode := fun _ => Raise "model not available";
     pytorch_cos_sim := pytorch_cos_sim env;
     timer := timer env;
     unexpected := fun _ _ _ => None |}.

(** A service whose cache holds one embedding. *)
Definition tiny_service : Service :=
  __init__ {| CACHE_SIZE := 1; CACHE_TTL := 3600 |}.

Definition salary_filter : MatchFilters.t :=
  MatchFilters.mk None (Some 6000) None None.

Definition idle_filter : MatchFilters.t :=
  MatchFilters.mk (Some "") (Some 0) None (Some []).

End Sample.

(* ------------------------------------------------------------------ *)
(** ** Comparisons and bounds on scores *)

Lemma Qltb_lt (x y : Q) : Qltb x y = true <-> x < y.
Proof.
  unfold Qltb. rewrite negb_true_iff.
  split; intro H.
  - apply Qnot_le_lt. intro Hle. apply Qle_bool_iff in Hle. congruence.
  - destruct (Qle_bool y x) eqn:Hb; [|reflexivity].
    apply Qle_bool_iff in Hb. exfalso. exact (Qlt_not_le _ _ H Hb).
Qed.

Lemma Qltb_ge (x y : Q) : Qltb x y = false <-> y <= x.
Proof.
  unfold Qltb. rewrite negb_false_iff. apply Qle_bool_iff.
Qed.

Lemma py_min_spec (a b : Q) :
  (b < a /\ py_min a b = b) \/ (a <= b /\ py_min a b = a).
Proof.
  unfold py_min. destruct (Qltb b a) eqn:H.
  - left. split; [now apply Qltb_lt | reflexivity].
  - right. split; [now apply Qltb_ge | reflexivity].
Qed.

Lemma py_max_spec (a b : Q) :
  (a < b /\ py_max a b = b) \/ (b <= a /\ py_max a b = a).
Proof.
  unfold py_max. destruct (Qltb a b) eqn:H.
  - left. split; [now apply Qltb_lt | reflexivity].
  - right. split; [now apply Qltb_ge | reflexivity].
Qed.

(** The clamp [max(0.0, min(1.0, x))] lands in the unit interval. *)
Lemma clamp_unit (x : Q) :
  0 <= py_max 0.0 (py_min 1.0 x) <= 1.
Proof.
  destruct (py_min_spec 1.0 x) as [[H1 E1]|[H1 E1]];
    destruct (py_max_spec 0.0 (py_min 1.0 x)) as [[H2 E2]|[H2 E2]];
    rewrite E2; rewrite ?E1 in *; lra.
Qed.

Lemma round_half_even_bounds (y : Q) (lo hi : Z) :
  inject_Z lo <= y -> y <= inject_Z hi ->
  (lo <= round_half_even y <= hi)%Z.
Proof.
  intros Hlo Hhi.
  assert (Hf : (lo <= Qfloor y)%Z).
  { rewrite <- (Qfloor_Z lo). now apply Qfloor_resp_le. }
  assert (Hle : inject_Z (Qfloor y) <= y) by apply Qfloor_le.
  assert (Hup : (Qfloor y <= hi)%Z).
  { rewrite <- (Qfloor_Z hi). now apply Qfloor_resp_le. }
  assert (Hstep : 0.5 <= y - inject_Z (Qfloor y) -> (Qfloor y + 1 <= hi)%Z).
  { intro Hr.
    assert (Hlt : inject_Z (Qfloor y) < inject_Z hi) by lra.
    rewrite <- Zlt_Qlt in Hlt. lia. }
  unfold round_half_even.
  destruct (Qltb (y - inject_Z (Qfloor y)) 0.5) eqn:H1.
  - lia.
  - apply Qltb_ge in H1.
    destruct (Qltb 0.5 (y - inject_Z (Qfloor y))).
    + specialize (Hstep H1). lia.
    + destruct (Z.even (Qfloor y)); [lia|]. specialize (Hstep H1). lia.
Qed.

(** [round(x, 2)] keeps a percentage a percentage. *)
Lemma round2_percentage (x : Q) :
  0 <= x <= 100 -> 0 <= round2 x <= 100.
Proof.
  intros [H0 H1].
  assert (H : (0 <= round_half_even (x * 100) <= 10000)%Z).
  { apply round_half_even_bounds; unfold inject_Z; lra. }
  destruct H as [Ha Hb].
  rewrite Zle_Qle in Ha, Hb.
  unfold round2.
  set (k := inject_Z (round_half_even (x * 100))) in *.
  unfold inject_Z in Ha, Hb.
  split.
  - apply Qle_shift_div_l; lra.
  - apply Qle_shift_div_r; lra.
Qed.

(** [len(xs) / len(ys)] for a sublist [xs] of a non-empty [ys]. *)
Lemma div_len_unit (k n : nat) :
  (k <= n)%nat -> (0 < n)%nat -> 0 <= div_len k n <= 1.
Proof.
  intros Hk Hn. unfold div_len.
  assert (Hn' : 0 < inject_Z (Z.of_nat n)).
  { change 0 with (inject_Z 0). rewrite <- Zlt_Qlt. lia. }
  assert (Hk0 : 0 <= inject_Z (Z.of_nat k)).
  { change 0 with (inject_Z 0). rewrite <- Zle_Qle. lia. }
  assert (Hkn : inject_Z (Z.of_nat k) <= inject_Z (Z.of_nat n)).
  { rewrite <- Zle_Qle. lia. }
  split.
  - apply Qle_shift_div_l; lra.
  - apply Qle_shift_div_r; lra.
Qed.

Lemma div_len_zero (k n : nat) :
  (0 < n)%nat -> (div_len k n == 0 <-> k = 0%nat).
Proof.
  intros Hn. unfold div_len.
  assert (Hn' : 0 < inject_Z (Z.of_nat n)).
  { change 0 with (inject_Z 0). rewrite <- Zlt_Qlt. lia. }
  split.
  - intro H.
    assert (Hk : inject_Z (Z.of_nat k) == 0).
    { assert (Hm : inject_Z (Z.of_nat k) / inject_Z (Z.of_nat n)
                   * inject_Z (Z.of_nat n) == inject_Z (Z.of_nat k)).
      { rewrite Qmult_comm. apply Qmult_div_r. lra. }
      rewrite H, Qmult_0_l in Hm. symmetry. exact Hm. }
    unfold Qeq in Hk. simpl in Hk. lia.
  - intros ->. unfold Qdiv. simpl. apply Qmult_0_l.
Qed.

Lemma div_len_one (k n : nat) :
  (0 < n)%nat -> (div_len k n == 1 <-> k = n).
Proof.
  intros Hn. unfold div_len.
  assert (Hn' : 0 < inject_Z (Z.of_nat n)).
  { change 0 with (inject_Z 0). rewrite <- Zlt_Qlt. lia. }
  assert (Hm : inject_Z (Z.of_nat k) / inject_Z (Z.of_nat n)
               * inject_Z (Z.of_nat n) == inject_Z (Z.of_nat k)).
  { rewrite Qmult_comm. apply Qmult_div_r. lra. }
  split.
  - intro H. rewrite H in Hm.
    assert (Hk : inject_Z (Z.of_nat n) == inject_Z (Z.of_nat k)) by lra.
    unfold Qeq in Hk. simpl in Hk. lia.
  - intros ->. apply Qmult_inv_r. lra.
Qed.

Lemma div_len_monotone (k k' n : nat) :
  (k <= k')%nat -> (0 < n)%nat -> div_len k n <= div_len k' n.
Proof.
  intros Hk Hn. unfold div_len, Qdiv.
  assert (Hn' : 0 < inject_Z (Z.of_nat n)).
  { change 0 with (inject_Z 0). rewrite <- Zlt_Qlt. lia. }
  apply Qmult_le_compat_r.
  - rewrite <- Zle_Qle. lia.
  - apply Qlt_le_weak. now apply Qinv_lt_0_compat.
Qed.

(* ------------------------------------------------------------------ *)
(** ** The salary scorer *)

Ltac literal := simpl; unfold Qeq; simpl; reflexivity.

Ltac by_comparison :=
  repeat match goal with
  | H : Qltb _ _ = true |- _ => apply Qltb_lt in H
  | H : Qltb _ _ = false |- _ => apply Qltb_ge in H
  end.

(** C3. The salary scorer gives 0.5 to a job without salary bounds, 0.0
    to an expectation below a set minimum, 0.0 to an expectation above a
    set maximum, and 1.0 in every other case with at least one bound set. *)
Theorem salary_scorer_cases (E : Env) (job : JobDB.t)
  (candidate : CandidateDB.t) :
  let score := fst (_score_salary E job candidate) in
  let expectation := CandidateDB.salary_expectation candidate in
  (JobDB.salary_min job = None -> JobDB.salary_max job = None ->
   score == 0.5) /\
  (forall lo, JobDB.salary_min job = Some lo -> expectation < lo ->
   score == 0.0) /\
  (forall hi, JobDB.salary_max job = Some hi -> hi < expectation ->
   score == 0.0) /\
  ((JobDB.salary_min job <> None \/ JobDB.salary_max job <> None) ->
   (forall lo, JobDB.salary_min job = Some lo -> ~ expectation < lo) ->
   (forall hi, JobDB.salary_max job = Some hi -> ~ hi < expectation) ->
   score == 1.0).
Proof.
  unfold _score_salary.
  destruct (JobDB.salary_min job) as [lo|], (JobDB.salary_max job) as [hi|];
    cbv zeta.
  - (* both bounds *)
    destruct (Qltb (CandidateDB.salary_expectation candidate) lo) eqn:Hlo;
      [|destruct (Qltb hi (CandidateDB.salary_expectation candidate)) eqn:Hhi];
      by_comparison;
      (split; [discriminate|]);
      (split; [intros ? [= <-] ?; try literal; exfalso; lra|]);
      (split; [intros ? [= <-] ?; try literal; exfalso; lra|]);
      intros _ Hmin Hmax; try literal; exfalso.
    + exact (Hmin lo eq_refl Hlo).
    + exact (Hmax hi eq_refl Hhi).
  - (* a minimum only *)
    destruct (Qltb (CandidateDB.salary_expectation candidate) lo) eqn:Hlo;
      by_comparison;
      (split; [discriminate|]);
      (split; [intros ? [= <-] ?; try literal; exfalso; lra|]);
      (split; [discriminate|]);
      intros _ Hmin _; try literal; exfalso.
    exact (Hmin lo eq_refl Hlo).
  - (* a maximum only *)
    destruct (Qltb hi (CandidateDB.salary_expectation candidate)) eqn:Hhi;
      by_comparison;
      (split; [discriminate|]);
      (split; [discriminate|]);
      (split; [intros ? [= <-] ?; try literal; exfalso; lra|]);
      intros _ _ Hmax; try literal; exfalso.
    exact (Hmax hi eq_refl Hhi).
  - (* no bound *)
    split; [intros _ _; literal|].
    split; [discriminate|].
    split; [discriminate|].
    intros [H|H]; congruence.
Qed.

(** The four cases of C3 on the jobs and candidates of [Sample]. *)
Lemma salary_scorer_cases_witness :
  fst (_score_salary Sample.env Sample.open_job Sample.python_dev) == 0.5 /\
  fst (_score_salary Sample.env Sample.python_job Sample.cheap_dev) == 0.0 /\
  fst (_score_salary Sample.env Sample.python_job Sample.expensive_dev) == 0.0 /\
  fst (_score_salary Sample.env Sample.floor_job Sample.python_dev) == 1.0.
Proof.
  split; [|split; [|split]].
  - apply (salary_scorer_cases Sample.env Sample.open_job Sample.python_dev);
      reflexivity.
  - apply (proj1 (proj2 (salary_scorer_cases
                           Sample.env Sample.python_job Sample.cheap_dev))
             5000); [reflexivity | simpl; lra].
  - apply (proj1 (proj2 (proj2 (salary_scorer_cases
                                  Sample.env Sample.python_job
                                  Sample.expensive_dev)))
             8000); [reflexivity | simpl; lra].
  - apply (proj2 (proj2 (proj2 (salary_scorer_cases
                                  Sample.env Sample.floor_job
                                  Sample.python_dev)))).
    + left. discriminate.
    + intros lo [= <-]. simpl. lra.
    + discriminate.
Defined.

(* ------------------------------------------------------------------ *)
(** ** Availability and the category mode *)

Lemma scoring_clean {A} (E : Env) (s : scorer) (job : JobDB.t)
  (candidate : CandidateDB.t) (value : A) (st : Service) :
  unexpected E s job candidate = None ->
  scoring E s job candidate value st = (Ok value, st).
Proof.
  intro H. unfold scoring. now rewrite H.
Qed.

Lemma scoring_raises {A} (E : Env) (s : scorer) (job : JobDB.t)
  (candidate : CandidateDB.t) (value : A) (st : Service) (msg : string) :
  unexpected E s job candidate = Some msg ->
  scoring E s job candidate value st = (Raise msg, st).
Proof.
  intro H. unfold scoring. now rewrite H.
Qed.

Lemma availability_values (job : JobDB.t) (candidate : CandidateDB.t) :
  fst (score_availability job candidate) =
  if dimension_met (JobDB.shift_work job)
       (CandidateDB.willing_to_work_shifts candidate)
     && dimension_met (JobDB.weekend_work job)
          (CandidateDB.willing_to_work_weekends candidate)
  then 0.0 + 0.5 + 0.5 else 0.0.
Proof.
  unfold score_availability, dimension_met.
  destruct (JobDB.shift_work job),
    (CandidateDB.willing_to_work_shifts candidate),
    (JobDB.weekend_work job),
    (CandidateDB.willing_to_work_weekends candidate); reflexivity.
Qed.

(** C8. The availability scorer gives 0.0 when shift work is required and
    refused, and when weekend work is required and refused; each dimension
    that is met or not asked for adds 0.5, which makes 1.0 when both are;
    and in the category mode an availability score of 0.0 makes the rule
    score 0.0, without a breakdown, the rejection being the last reason. *)
Theorem availability_hard_filter (E : Env) (job : JobDB.t)
  (candidate : CandidateDB.t) (st : Service) :
  let score := fst (score_availability job candidate) in
  (JobDB.shift_work job = true ->
   CandidateDB.willing_to_work_shifts candidate = false -> score == 0.0) /\
  (JobDB.weekend_work job = true ->
   CandidateDB.willing_to_work_weekends candidate = false -> score == 0.0) /\
  (dimension_met (JobDB.shift_work job)
     (CandidateDB.willing_to_work_shifts candidate) = true ->
   dimension_met (JobDB.weekend_work job)
     (CandidateDB.willing_to_work_weekends candidate) = true ->
   score == 0.5 + 0.5 /\ score == 1.0) /\
  (runs_clean E job candidate -> score == 0.0 ->
   exists reasons,
     _calculate_rule_score_with_category E job candidate st
     = (Ok (0.0, None,
            append reasons
              (Icon.cross ++ " REJECTED: "
               ++ snd (score_availability job candidate))),
        st)).
Proof.
  cbv zeta. rewrite availability_values.
  split; [|split; [|split]].
  - intros -> ->. literal.
  - intros -> ->. rewrite andb_false_r. literal.
  - intros -> ->. split; literal.
  - intros Hclean Hzero.
    assert (Hb : Qeq_bool (fst (score_availability job candidate)) 0.0 = true).
    { apply Qeq_bool_iff. now rewrite availability_values. }
    unfold _calculate_rule_score_with_category, bind.
    rewrite !scoring_clean by apply Hclean.
    destruct (_score_location job candidate) as [loc_score loc_reason].
    destruct (_score_salary E job candidate) as [sal_score sal_reason].
    destruct (_score_requirements job candidate) as [req_score req_reason].
    destruct (_score_languages job candidate) as [lang_score lang_reason].
    rewrite !scoring_clean by apply Hclean.
    destruct (score_availability job candidate) as [avail_score avail_reason].
    simpl in Hb. rewrite Hb.
    eexists. reflexivity.
Qed.

(** C8 on the jobs of [Sample]: a shift job and a weekend job against a
    candidate who accepts neither, and a job that asks for neither. *)
Lemma availability_hard_filter_witness :
  fst (score_availability Sample.shift_job Sample.cook) == 0.0 /\
  fst (score_availability Sample.weekend_job Sample.cook) == 0.0 /\
  fst (score_availability Sample.open_job Sample.cook) == 1.0 /\
  exists reasons,
    _calculate_rule_score_with_category Sample.env Sample.shift_job
      Sample.cook Sample.service
    = (Ok (0.0, None,
           append reasons
             (Icon.cross ++ " REJECTED: "
              ++ snd (score_availability Sample.shift_job Sample.cook))),
       Sample.service).
Proof.
  split; [|split; [|split]].
  - apply (proj1 (availability_hard_filter Sample.env Sample.shift_job
                    Sample.cook Sample.service)); reflexivity.
  - apply (proj1 (proj2 (availability_hard_filter Sample.env
                           Sample.weekend_job Sample.cook Sample.service)));
      reflexivity.
  - apply (proj1 (proj2 (proj2 (availability_hard_filter Sample.env
                                  Sample.open_job Sample.cook
                                  Sample.service)))); reflexivity.
  - apply (proj2 (proj2 (proj2 (availability_hard_filter Sample.env
                                  Sample.shift_job Sample.cook
                                  Sample.service)))).
    + intro s. reflexivity.
    + literal.
Defined.

(** C10. A Technology job whose every factor the candidate meets in full
    gets a category-mode rule score of 1.05: the seven coefficients add up
    to more than one and the total is returned as it is. *)
Theorem category_score_exceeds_one :
  exists (E : Env) (job : JobDB.t) (candidate : CandidateDB.t)
         (st : Service) (score : Q) (breakdown : ScoringBreakdown.t)
         (reasons : list string),
    JobDB.category job = TECHNOLOGY /\
    fst (_score_location job candidate) == 1.0 /\
    fst (_score_salary E job candidate) == 1.0 /\
    fst (_score_requirements job candidate) == 1.0 /\
    fst (_score_languages job candidate) == 1.0 /\
    JobDB.shift_work job = true /\ JobDB.weekend_work job = true /\
    fst (score_availability job candidate) == 1.0 /\
    JobDB.certifications_required job <> [] /\
    fst (score_certifications job candidate) == 1.0 /\
    fst (score_employment_type E job candidate) == 1.0 /\
    _calculate_rule_score_with_category E job candidate st
    = (Ok (score, Some breakdown, reasons), st) /\
    score == 1.05 /\
    1.0 < score.
Proof.
  exists Sample.env, Sample.tech_job, Sample.tech_candidate, Sample.service.
  eexists. eexists. eexists.
  repeat match goal with |- _ /\ _ => split end;
    try (vm_compute; reflexivity); try discriminate.
Qed.

(* ------------------------------------------------------------------ *)
(** ** Substrings *)

Module PyStrFacts.
Import PyStr.

Lemma append_assoc (a b c : string) : (a ++ b) ++ c = a ++ (b ++ c).
Proof.
  induction a as [|x a IH]; simpl; [reflexivity | now rewrite IH].
Qed.

Lemma lower_append (a b : string) : lower (a ++ b) = lower a ++ lower b.
Proof.
  induction a as [|x a IH]; simpl; [reflexivity | now rewrite IH].
Qed.

Lemma prefix_append (n a b : string) :
  String.prefix n a = true -> String.prefix n (a ++ b) = true.
Proof.
  revert a. induction n as [|x n IH]; intros a H.
  - destruct (a ++ b); reflexivity.
  - destruct a as [|y a]; simpl in *; [discriminate|].
    destruct (Ascii.ascii_dec x y); [now apply IH | discriminate].
Qed.

(** A needle found in [a] is found in [a ++ b]. *)
Lemma contains_append_l (n a b : string) :
  contains n a = true -> contains n (a ++ b) = true.
Proof.
  induction a as [|y a IH]; intro H.
  - simpl in H. rewrite orb_false_r in H.
    destruct n; [|discriminate].
    destruct b; reflexivity.
  - cbn [contains] in H. apply orb_true_iff in H.
    change ((String y a) ++ b) with (String y (a ++ b)).
    cbn [contains]. apply orb_true_iff.
    destruct H as [H|H].
    + left. now apply (prefix_append n (String y a) b).
    + right. now apply IH.
Qed.

(** A needle found in [b] is found in [a ++ b]. *)
Lemma contains_append_r (n a b : string) :
  contains n b = true -> contains n (a ++ b) = true.
Proof.
  intro H. induction a as [|y a IH]; [exact H|].
  change ((String y a) ++ b) with (String y (a ++ b)).
  cbn [contains]. rewrite IH. apply orb_true_r.
Qed.

(** [" ".join(xs + [x])] *)
Lemma join_snoc (sep : string) (xs : list string) (x : string) :
  join sep (xs ++ [x]) =
  match xs with
  | [] => x
  | _ :: _ => join sep xs ++ sep ++ x
  end.
Proof.
  unfold join.
  induction xs as [|y ys IH]; [reflexivity|].
  destruct ys as [|z ys].
  - reflexivity.
  - change (String.concat sep ((y :: z :: ys) ++ [x]))
      with (y ++ sep ++ String.concat sep ((z :: ys) ++ [x])).
    rewrite IH.
    change (String.concat sep (y :: z :: ys))
      with (y ++ sep ++ String.concat sep (z :: ys)).
    now rewrite !append_assoc.
Qed.

Lemma filter_length_monotone {A} (f g : A -> bool) (l : list A) :
  (forall x, In x l -> f x = true -> g x = true) ->
  (List.length (filter f l) <= List.length (filter g l))%nat.
Proof.
  induction l as [|x l IH]; intro H; [reflexivity|].
  assert (IH' := IH (fun y Hy => H y (or_intror Hy))).
  simpl. destruct (f x) eqn:Hf.
  - rewrite (H x (or_introl eq_refl) Hf). simpl. lia.
  - destruct (g x); simpl; lia.
Qed.

End PyStrFacts.

(* ------------------------------------------------------------------ *)
(** ** The requirements scorer *)

(** With requirements to meet, the score is the share of them found in the
    text the scorer searches. *)
Lemma requirements_score_ratio (job : JobDB.t) (candidate : CandidateDB.t) :
  JobDB.requirements job <> [] ->
  fst (_score_requirements job candidate)
  == div_len
       (List.length
          (matched_in (JobDB.requirements job) (combined_text candidate)))
       (List.length (JobDB.requirements job)).
Proof.
  intro Hne. unfold _score_requirements.
  destruct (JobDB.requirements job) as [|r rs] eqn:Hreq; [congruence|].
  cbv zeta.
  set (k := List.length (matched_in (r :: rs) (combined_text candidate))).
  set (n := List.length (r :: rs)).
  assert (Hn : (0 < n)%nat) by (subst n; simpl; lia).
  assert (Hk : (k <= n)%nat) by apply filter_length_le.
  destruct (Qeq_bool (div_len k n) 1.0) eqn:Hone.
  - apply Qeq_bool_iff in Hone. simpl. now rewrite Hone.
  - destruct (Qltb 0 (div_len k n)) eqn:Hpos.
    + reflexivity.
    + apply Qltb_ge in Hpos. simpl.
      destruct (div_len_unit k n Hk Hn) as [H0 _].
      unfold Qeq; simpl.
      assert (Hz : div_len k n == 0) by lra.
      unfold Qeq in Hz; simpl in Hz. lia.
Qed.

(** The text the scorer searches is the lower-cased concatenation of the
    candidate's experience and skills. *)
Lemma combined_text_lower (candidate : CandidateDB.t) :
  combined_text candidate = PyStr.lower (experience_and_skills candidate).
Proof.
  unfold combined_text, experience_and_skills.
  now rewrite !PyStrFacts.lower_append.
Qed.

Lemma matched_in_found (job : JobDB.t) (candidate : CandidateDB.t) :
  matched_in (JobDB.requirements job) (combined_text candidate)
  = requirements_found job candidate.
Proof.
  unfold matched_in, requirements_found, occurs_ignoring_case.
  now rewrite combined_text_lower.
Qed.

(** C4. The requirements scorer gives 1.0 to a job without requirements;
    otherwise it gives the number of requirements that occur, case ignored,
    in the candidate's experience and skills text, divided by the number of
    requirements, and that is 0.0 exactly when none occurs. *)
Theorem requirements_scorer_fraction (job : JobDB.t)
  (candidate : CandidateDB.t) :
  let score := fst (_score_requirements job candidate) in
  let found := List.length (requirements_found job candidate) in
  let total := List.length (JobDB.requirements job) in
  (JobDB.requirements job = [] -> score == 1.0) /\
  (JobDB.requirements job <> [] ->
   score == div_len found total /\
   (score == 0.0 <-> found = 0%nat) /\
   (score == 1.0 <-> found = total)).
Proof.
  cbv zeta. split.
  - intro H. unfold _score_requirements. rewrite H. literal.
  - intro Hne.
    assert (Hn : (0 < List.length (JobDB.requirements job))%nat).
    { destruct (JobDB.requirements job); [congruence | simpl; lia]. }
    assert (Hs := requirements_score_ratio job candidate Hne).
    rewrite matched_in_found in Hs.
    split; [exact Hs|]. split.
    + rewrite Hs.
      assert (H0 : 0.0 == 0) by reflexivity. rewrite H0.
      now apply div_len_zero.
    + rewrite Hs.
      assert (H1 : 1.0 == 1) by reflexivity. rewrite H1.
      now apply div_len_one.
Qed.

(** C4 on a job without requirements and on a job with two, one of which
    the candidate meets. *)
Lemma requirements_scorer_fraction_witness :
  fst (_score_requirements Sample.open_job Sample.python_dev) == 1.0 /\
  fst (_score_requirements Sample.floor_job Sample.python_dev)
  == div_len 1 2.
Proof.
  split.
  - apply (proj1 (requirements_scorer_fraction Sample.open_job
                    Sample.python_dev)). reflexivity.
  - apply (proj2 (requirements_scorer_fraction Sample.floor_job
                    Sample.python_dev)). discriminate.
Defined.

(** *** Adding an experience entry *)

(** The searched text after an entry is added to the experience: the entry
    goes between the old experience text and the skills text. *)
Lemma combined_text_add_experience (candidate : CandidateDB.t)
  (entry : string) :
  let experience_text :=
    PyStr.lower (PyStr.join " " (CandidateDB.experience candidate)) in
  let skill_text :=
    PyStr.lower (PyStr.join " " (CandidateDB.skills candidate)) in
  combined_text (CandidateDB.add_experience candidate entry)
  = match CandidateDB.experience candidate with
    | [] => PyStr.lower entry ++ " " ++ skill_text
    | _ :: _ =>
        (experience_text ++ " ") ++ PyStr.lower entry ++ " " ++ skill_text
    end.
Proof.
  unfold combined_text, CandidateDB.add_experience. cbn [CandidateDB.experience
    CandidateDB.skills].
  rewrite PyStrFacts.join_snoc.
  destruct (CandidateDB.experience candidate) as [|e es]; [reflexivity|].
  rewrite !PyStrFacts.lower_append.
  now rewrite !PyStrFacts.append_assoc.
Qed.

Lemma found_stays_found (job : JobDB.t) (candidate : CandidateDB.t)
  (entry req : string) :
  found_within_one_field job candidate ->
  In req (JobDB.requirements job) ->
  PyStr.contains (PyStr.lower req) (combined_text candidate) = true ->
  PyStr.contains (PyStr.lower req)
    (combined_text (CandidateDB.add_experience candidate entry)) = true.
Proof.
  intros Hfield Hin Hfound.
  destruct (Hfield req Hin Hfound) as [H|H];
    rewrite combined_text_add_experience;
    destruct (CandidateDB.experience candidate) as [|e es].
  - apply PyStrFacts.contains_append_r.
    now apply (PyStrFacts.contains_append_l _ " ").
  - now apply PyStrFacts.contains_append_l.
  - now apply PyStrFacts.contains_append_r.
  - rewrite <- !PyStrFacts.append_assoc.
    rewrite PyStrFacts.append_assoc.
    now apply PyStrFacts.contains_append_r.
Qed.

(** Two plain cases in which no requirement is found across the seam: a
    candidate without skills, and a candidate without experience. *)
Lemma no_skills_within_one_field (job : JobDB.t)
  (candidate : CandidateDB.t) :
  CandidateDB.skills candidate = [] ->
  found_within_one_field job candidate.
Proof.
  intros Hskills req _ Hfound. left.
  unfold combined_text in Hfound. rewrite Hskills in Hfound.
  exact Hfound.
Qed.

Lemma no_experience_within_one_field (job : JobDB.t)
  (candidate : CandidateDB.t) :
  CandidateDB.experience candidate = [] ->
  found_within_one_field job candidate.
Proof.
  intros Hexperience req _ Hfound. right.
  unfold combined_text in Hfound. rewrite Hexperience in Hfound.
  exact Hfound.
Qed.

(** C7, as the code has it.  With requirements to meet, an experience
    entry that contains one of them, added at the end of the candidate's
    experience, never lowers the requirements score, provided that no
    requirement was found only across the seam between the experience text
    and the skills text. *)
Theorem requirements_monotone_within_fields (job : JobDB.t)
  (candidate : CandidateDB.t) (entry : string) :
  JobDB.requirements job <> [] ->
  (exists req, In req (JobDB.requirements job) /\
               occurs_ignoring_case req entry = true) ->
  found_within_one_field job candidate ->
  fst (_score_requirements job candidate)
  <= fst (_score_requirements job
            (CandidateDB.add_experience candidate entry)).
Proof.
  intros Hne _ Hfield.
  rewrite (requirements_score_ratio job candidate Hne).
  rewrite (requirements_score_ratio job _ Hne).
  apply div_len_monotone.
  - apply PyStrFacts.filter_length_monotone.
    intros req Hin Hfound.
    now apply (found_stays_found job candidate entry req).
  - destruct (JobDB.requirements job); [congruence | simpl; lia].
Qed.

(** A candidate without skills: the python developer gains a docker
    entry. *)
Lemma requirements_monotone_within_fields_witness :
  fst (_score_requirements Sample.floor_job Sample.python_dev)
  <= fst (_score_requirements Sample.floor_job
            (CandidateDB.add_experience Sample.python_dev
               "Docker in production")).
Proof.
  apply (requirements_monotone_within_fields Sample.floor_job
           Sample.python_dev "Docker in production").
  - discriminate.
  - exists "docker". split; [right; left; reflexivity | reflexivity].
  - intros req [<-|[<-|[]]] H.
    + left. reflexivity.
    + discriminate H.
Defined.

(** C7, as the spec has it, fails: the candidate of [Sample.seam_job] meets
    "java script" across the seam; a "python" entry moves the two halves
    apart and the score falls from 1 to 1/2. *)
Lemma requirements_not_monotone :
  ~ (forall (job : JobDB.t) (candidate : CandidateDB.t) (entry : string),
       JobDB.requirements job <> [] ->
       (exists req, In req (JobDB.requirements job) /\
                    occurs_ignoring_case req entry = true) ->
       fst (_score_requirements job candidate)
       <= fst (_score_requirements job
                 (CandidateDB.add_experience candidate entry))).
Proof.
  intro H.
  specialize (H Sample.seam_job Sample.seam_candidate "python").
  assert (Hle : 1.0 <= 1 # 2).
  { apply H.
    - discriminate.
    - exists "python". split; [right; left; reflexivity | reflexivity]. }
  revert Hle. unfold Qle. simpl. lia.
Qed.

(* ------------------------------------------------------------------ *)
(** ** The match evaluator *)

(** Semantic scoring never raises, and its score lies in the unit
    interval. *)
Lemma _calculate_semantic_score_total (E : Env) (job : JobDB.t)
  (candidate : CandidateDB.t) (st : Service) :
  exists sem st',
    _calculate_semantic_score E job candidate st = (Ok sem, st') /\
    0 <= sem <= 1.
Proof.
  unfold _calculate_semantic_score, try_except, bind, lift, ret.
  destruct (_get_embedding E (_build_job_text job) st) as [[job_emb|e1] s1].
  - destruct (_get_embedding E (_build_candidate_text candidate) s1)
      as [[cand_emb|e2] s2].
    + destruct (pytorch_cos_sim E job_emb cand_emb) as [similarity|e3].
      * eexists. eexists. split; [reflexivity | apply clamp_unit].
      * eexists. eexists. split; [reflexivity | split; discriminate].
    + eexists. eexists. split; [reflexivity | split; discriminate].
  - eexists. eexists. split; [reflexivity | split; discriminate].
Qed.

(** Rule scoring leaves the state alone.  It raises what the first failing
    scorer raises; otherwise its score is clamped to the unit interval and
    its breakdown holds what the scorers returned. *)
Lemma _calculate_rule_score_cases (E : Env) (job : JobDB.t)
  (candidate : CandidateDB.t) (st : Service) :
  (exists s msg,
      default_mode_scorer s = true /\
      unexpected E s job candidate = Some msg /\
      _calculate_rule_score E job candidate st = (Raise msg, st)) \/
  (exists rule b reasons,
      (forall s, default_mode_scorer s = true ->
                 unexpected E s job candidate = None) /\
      _calculate_rule_score E job candidate st = (Ok (rule, b, reasons), st) /\
      0 <= rule <= 1 /\
      ScoringBreakdown.salary_match b
      = fst (_score_salary E job candidate) * SALARY_MAX /\
      ScoringBreakdown.requirements_match b
      = fst (_score_requirements job candidate) * REQUIREMENTS_MAX).
Proof.
  unfold _calculate_rule_score, bind, scoring.
  destruct (_score_location job candidate) as [loc_score loc_reason].
  destruct (_score_salary E job candidate) as [sal_score sal_reason].
  destruct (_score_requirements job candidate) as [req_score req_reason].
  destruct (_score_advantages job candidate) as [adv_score adv_reason].
  destruct (_score_languages job candidate) as [lang_score lang_reason].
  destruct (unexpected E SLocation job candidate) as [msg|] eqn:H1.
  { left. exists SLocation, msg. repeat split; assumption || reflexivity. }
  destruct (unexpected E SSalary job candidate) as [msg|] eqn:H2.
  { left. exists SSalary, msg. repeat split; assumption || reflexivity. }
  destruct (unexpected E SRequirements job candidate) as [msg|] eqn:H3.
  { left. exists SRequirements, msg.
    repeat split; assumption || reflexivity. }
  destruct (unexpected E SAdvantages job candidate) as [msg|] eqn:H4.
  { left. exists SAdvantages, msg. repeat split; assumption || reflexivity. }
  destruct (unexpected E SLanguages job candidate) as [msg|] eqn:H5.
  { left. exists SLanguages, msg. repeat split; assumption || reflexivity. }
  right. eexists. eexists. eexists.
  split; [|split; [reflexivity|split; [apply clamp_unit|split; reflexivity]]].
  intros [] Hs; try assumption; discriminate Hs.
Qed.

(** [_calculate_match] never raises: it returns the assembled result, or
    the error result when rule scoring raised. *)
Lemma _calculate_match_cases (E : Env) (job : JobDB.t)
  (candidate : CandidateDB.t) (st : Service) :
  exists sem st',
    _calculate_semantic_score E job candidate st = (Ok sem, st') /\
    0 <= sem <= 1 /\
    ((exists s msg,
         default_mode_scorer s = true /\
         unexpected E s job candidate = Some msg /\
         _calculate_match E job candidate st
         = (Ok (error_result job candidate msg), st')) \/
     (exists rule b reasons,
         (forall s, default_mode_scorer s = true ->
                    unexpected E s job candidate = None) /\
         _calculate_rule_score E job candidate st'
         = (Ok (rule, b, reasons), st') /\
         0 <= rule <= 1 /\
         ScoringBreakdown.salary_match b
         = fst (_score_salary E job candidate) * SALARY_MAX /\
         ScoringBreakdown.requirements_match b
         = fst (_score_requirements job candidate) * REQUIREMENTS_MAX /\
         _calculate_match E job candidate st
         = (Ok (assembled job candidate sem rule b reasons), st'))).
Proof.
  destruct (_calculate_semantic_score_total E job candidate st)
    as (sem & st' & Hsem & Hunit).
  exists sem, st'. split; [exact Hsem|]. split; [exact Hunit|].
  destruct (_calculate_rule_score_cases E job candidate st')
    as [(s & msg & Hs & Hmsg & Hrule)
       |(rule & b & reasons & Hclean & Hrule & Hbound & Hsal & Hreq)].
  - left. exists s, msg. repeat split; try assumption.
    unfold _calculate_match, try_except, bind.
    rewrite Hsem, Hrule. reflexivity.
  - right. exists rule, b, reasons. repeat split; try assumption;
      try apply Hbound.
    unfold _calculate_match, try_except, bind.
    rewrite Hsem, Hrule. unfold assembled. cbv zeta.
    destruct (Qeq_bool _ 0.0); [reflexivity|].
    destruct (Qeq_bool _ 0.0); reflexivity.
Qed.

(** C1. [_calculate_match] always returns a result.  When the salary
    sub-score or the requirements sub-score of that result is 0.0, its
    final score is 0.0 whatever the semantic similarity is, its reasons are
    those of the rule scorer followed by a rejection, and the semantic
    score, computed first, is reported as a percentage and in the
    breakdown.  The sub-scores of the result are the values of the salary
    scorer and of the requirements scorer whenever no scorer raises. *)
Theorem hard_reject_forces_zero (E : Env) (job : JobDB.t)
  (candidate : CandidateDB.t) (st : Service) :
  exists m st' sem,
    _calculate_match E job candidate st = (Ok m, st') /\
    _calculate_semantic_score E job candidate st = (Ok sem, st') /\
    (forall b,
       MatchResult.breakdown m = Some b ->
       ScoringBreakdown.salary_match b == 0.0 \/
       ScoringBreakdown.requirements_match b == 0.0 ->
       MatchResult.score m = 0.0 /\
       MatchResult.semantic_score m = sem * 100 /\
       ScoringBreakdown.semantic_similarity b = sem /\
       exists rule b0 reasons,
         _calculate_rule_score E job candidate st'
         = (Ok (rule, b0, reasons), st') /\
         (MatchResult.match_reasons m
          = append reasons (Icon.cross ++ " REJECTED: Salary mismatch") \/
          MatchResult.match_reasons m
          = append reasons
              (Icon.cross ++ " REJECTED: Missing critical requirements"))) /\
    ((forall s, default_mode_scorer s = true ->
                unexpected E s job candidate = None) ->
     exists b,
       MatchResult.breakdown m = Some b /\
       ScoringBreakdown.salary_match b
       == fst (_score_salary E job candidate) /\
       ScoringBreakdown.requirements_match b
       == fst (_score_requirements job candidate)).
Proof.
  destruct (_calculate_match_cases E job candidate st)
    as (sem & st' & Hsem & _ & [(s & msg & Hs & Hmsg & Hrun)
        |(rule & b0 & reasons & _ & Hrule & _ & Hsal0 & Hreq0 & Hrun)]).
  - exists (error_result job candidate msg), st', sem.
    split; [exact Hrun|]. split; [exact Hsem|]. split.
    + intros b Hb. discriminate Hb.
    + intro Hclean. rewrite (Hclean s Hs) in Hmsg. discriminate.
  - exists (assembled job candidate sem rule b0 reasons), st', sem.
    split; [exact Hrun|]. split; [exact Hsem|]. split.
    + intros b Hb Hzero. unfold assembled in *. cbv zeta in *.
      destruct (Qeq_bool (ScoringBreakdown.salary_match
                            (ScoringBreakdown.set_semantic_similarity b0 sem))
                  0.0) eqn:Hsal.
      * injection Hb as <-.
        repeat split. exists rule, b0, reasons. split; [exact Hrule|].
        left. reflexivity.
      * destruct (Qeq_bool (ScoringBreakdown.requirements_match
                              (ScoringBreakdown.set_semantic_similarity
                                 b0 sem))
                    0.0) eqn:Hreq.
        -- injection Hb as <-.
           repeat split. exists rule, b0, reasons. split; [exact Hrule|].
           right. reflexivity.
        -- injection Hb as <-. exfalso.
           destruct Hzero as [Hz|Hz]; apply Qeq_bool_iff in Hz; congruence.
    + intros _.
      exists (ScoringBreakdown.set_semantic_similarity b0 sem).
      split; [|split].
      * unfold assembled. cbv zeta.
        destruct (Qeq_bool _ 0.0); [reflexivity|].
        destruct (Qeq_bool _ 0.0); reflexivity.
      * cbn [ScoringBreakdown.set_semantic_similarity
               ScoringBreakdown.salary_match].
        rewrite Hsal0. unfold SALARY_MAX. lra.
      * cbn [ScoringBreakdown.set_semantic_similarity
               ScoringBreakdown.requirements_match].
        rewrite Hreq0. unfold REQUIREMENTS_MAX. lra.
Qed.

(** C1 on the job that pays at most 8000 and the candidate who expects
    9000. *)
Lemma hard_reject_forces_zero_witness :
  exists m st',
    _calculate_match Sample.env Sample.python_job Sample.expensive_dev
      Sample.service = (Ok m, st') /\
    MatchResult.score m = 0.0 /\
    MatchResult.semantic_score m = 0.5 * 100 /\
    last (MatchResult.match_reasons m) ""
    = Icon.cross ++ " REJECTED: Salary mismatch".
Proof.
  destruct (hard_reject_forces_zero Sample.env Sample.python_job
              Sample.expensive_dev Sample.service)
    as (m & st' & sem & Hrun & Hsem & H & _).
  exists m, st'. split; [exact Hrun|].
  assert (Hm : exists m0 st0,
             _calculate_match Sample.env Sample.python_job
               Sample.expensive_dev Sample.service = (Ok m0, st0) /\
             (exists b, MatchResult.breakdown m0 = Some b /\
                        ScoringBreakdown.salary_match b == 0.0) /\
             last (MatchResult.match_reasons m0) ""
             = Icon.cross ++ " REJECTED: Salary mismatch").
  { eexists. eexists. split; [vm_compute; reflexivity|].
    split; [eexists; split; [reflexivity | reflexivity] | reflexivity]. }
  destruct Hm as (m0 & st0 & Hrun0 & (b & Hb & Hzero) & Hlast).
  rewrite Hrun in Hrun0. injection Hrun0 as <- <-.
  destruct (H b Hb (or_introl Hzero)) as (Hscore & Hsemantic & _ & _).
  split; [exact Hscore|]. split; [|exact Hlast].
  rewrite Hsemantic. f_equal.
  assert (Hs : _calculate_semantic_score Sample.env Sample.python_job
                 Sample.expensive_dev Sample.service = (Ok 0.5, st'))
    by (rewrite Hsem; vm_compute in Hsem; congruence).
  rewrite Hsem in Hs. now injection Hs.
Defined.

(** C2. The three scores of the result of [_calculate_match] are
    percentages: each is at least 0 and at most 100. *)
Theorem match_scores_are_percentages (E : Env) (job : JobDB.t)
  (candidate : CandidateDB.t) (st : Service) :
  exists m st',
    _calculate_match E job candidate st = (Ok m, st') /\
    0 <= MatchResult.score m <= 100 /\
    0 <= MatchResult.semantic_score m <= 100 /\
    0 <= MatchResult.rule_score m <= 100.
Proof.
  destruct (_calculate_match_cases E job candidate st)
    as (sem & st' & _ & Hsem & [(s & msg & _ & _ & Hrun)
        |(rule & b & reasons & _ & _ & Hrule & _ & _ & Hrun)]).
  - exists (error_result job candidate msg), st'.
    split; [exact Hrun|]. simpl. repeat split; discriminate.
  - exists (assembled job candidate sem rule b reasons), st'.
    split; [exact Hrun|].
    assert (Hs : 0 <= sem * 100 <= 100) by lra.
    assert (Hr : 0 <= rule * 100 <= 100) by lra.
    assert (Hf : 0 <= (SEMANTIC_WEIGHT * sem + RULE_WEIGHT * rule) * 100
                 <= 100).
    { unfold SEMANTIC_WEIGHT, RULE_WEIGHT. lra. }
    unfold assembled. cbv zeta.
    destruct (Qeq_bool _ 0.0);
      [|destruct (Qeq_bool _ 0.0)]; cbn [MatchResult.score
         MatchResult.semantic_score MatchResult.rule_score];
      repeat split; try apply Hs; try apply Hr;
      try apply round2_percentage; try assumption; discriminate.
Qed.

(* ------------------------------------------------------------------ *)
(** ** Sorting by score *)

Section SortReverse.

Context {A : Type} (key : A -> Q).

Lemma insert_reverse_perm (x : A) (l : list A) :
  Permutation (insert_reverse key x l) (x :: l).
Proof.
  induction l as [|y l IH]; simpl; [reflexivity|].
  destruct (Qltb (key x) (key y)); [|reflexivity].
  rewrite IH. apply perm_swap.
Qed.

Lemma sort_reverse_perm (l : list A) : Permutation (sort_reverse key l) l.
Proof.
  induction l as [|x l IH]; simpl; [reflexivity|].
  rewrite insert_reverse_perm. now apply perm_skip.
Qed.

Lemma insert_reverse_descending (x : A) (l : list A) :
  descending key l -> descending key (insert_reverse key x l).
Proof.
  unfold descending. induction 1 as [|y l Hl IH Hy]; simpl.
  - constructor; constructor.
  - destruct (Qltb (key x) (key y)) eqn:Hc.
    + apply Qltb_lt in Hc. constructor; [exact IH|].
      apply Forall_forall. intros z Hz.
      apply (Permutation_in _ (insert_reverse_perm x l)) in Hz.
      destruct Hz as [<-|Hz].
      * now apply Qlt_le_weak.
      * rewrite Forall_forall in Hy. now apply Hy.
    + apply Qltb_ge in Hc. constructor.
      * now constructor.
      * constructor; [exact Hc|].
        apply Forall_forall. intros z Hz.
        rewrite Forall_forall in Hy. specialize (Hy z Hz).
        now apply Qle_trans with (key y).
Qed.

Lemma sort_reverse_descending (l : list A) :
  descending key (sort_reverse key l).
Proof.
  induction l as [|x l IH]; simpl.
  - constructor.
  - now apply insert_reverse_descending.
Qed.

(** Insertion keeps the new element in front of the elements of its own
    score, and leaves the other scores as they were. *)
Lemma insert_reverse_ties (q : Q) (x : A) (l : list A) :
  filter (fun y => Qeq_bool (key y) q) (insert_reverse key x l)
  = filter (fun y => Qeq_bool (key y) q) (x :: l).
Proof.
  induction l as [|y l IH]; [reflexivity|].
  cbn [insert_reverse].
  destruct (Qltb (key x) (key y)) eqn:Hc; [|reflexivity].
  apply Qltb_lt in Hc.
  cbn [filter] in *. rewrite IH.
  destruct (Qeq_bool (key x) q) eqn:Hx; [|reflexivity].
  destruct (Qeq_bool (key y) q) eqn:Hy; [|reflexivity].
  apply Qeq_bool_iff in Hx, Hy. exfalso.
  rewrite Hx, Hy in Hc. exact (Qlt_irrefl _ Hc).
Qed.

Lemma sort_reverse_ties (l : list A) :
  keeps_order_of_ties key l (sort_reverse key l).
Proof.
  intro q. induction l as [|x l IH]; [reflexivity|].
  cbn [sort_reverse fold_right].
  rewrite insert_reverse_ties. cbn [filter].
  fold (sort_reverse key l). now rewrite IH.
Qed.

End SortReverse.

(* ------------------------------------------------------------------ *)
(** ** The ranker *)

Lemma _calculate_match_returns (E : Env) (job : JobDB.t)
  (candidate : CandidateDB.t) (st : Service) :
  exists m st', _calculate_match E job candidate st = (Ok m, st').
Proof.
  destruct (_calculate_match_cases E job candidate st)
    as (sem & st' & _ & _ & [(s & msg & _ & _ & Hrun)
        |(rule & b & reasons & _ & _ & _ & _ & _ & Hrun)]);
    eexists; eexists; exact Hrun.
Qed.

(** The loop of [rank_candidates_for_job] evaluates every candidate and
    appends, in the order of the candidates, the entries of the results
    that reach the threshold. *)
Lemma rank_candidates_loop_spec (E : Env) (job : JobDB.t) (min_score : Q)
  (candidates : list CandidateDB.t) :
  forall (results : list CandidateEntry.t) (st : Service),
  exists ms st',
    evaluate_candidates E job candidates st = (Ok ms, st') /\
    List.length ms = List.length candidates /\
    rank_candidates_loop E job min_score candidates results st
    = (Ok (results ++ map CandidateEntry.of_match (kept min_score ms))%list,
       st').
Proof.
  induction candidates as [|c cs IH]; intros results st.
  - exists [], st. repeat split. simpl. unfold ret. now rewrite app_nil_r.
  - destruct (_calculate_match_returns E job c st) as (m & s1 & Hm).
    set (results1 :=
           if Qltb (MatchResult.score m) min_score then results
           else append results (CandidateEntry.of_match m)).
    destruct (IH results1 s1) as (ms & st' & Hev & Hlen & Hloop).
    exists (m :: ms), st'. split; [|split].
    + cbn [evaluate_candidates]. unfold bind. rewrite Hm, Hev. reflexivity.
    + simpl. now rewrite Hlen.
    + cbn [rank_candidates_loop]. unfold bind at 1.
      unfold rank_candidates_step, try_except, bind. rewrite Hm.
      fold results1.
      assert (Hstep : (if Qltb (MatchResult.score m) min_score
                       then ret results
                       else ret (append results (CandidateEntry.of_match m)))
                        s1 = (Ok results1, s1)).
      { subst results1. now destruct (Qltb (MatchResult.score m) min_score). }
      rewrite Hstep, Hloop. f_equal. f_equal.
      subst results1. unfold kept. cbn [filter].
      destruct (Qltb (MatchResult.score m) min_score); cbn [negb map].
      * reflexivity.
      * unfold append. now rewrite <- app_assoc.
Qed.

Lemma rank_jobs_loop_spec (E : Env) (candidate : CandidateDB.t)
  (min_score : Q) (jobs : list JobDB.t) :
  forall (results : list JobEntry.t) (st : Service),
  exists ms st',
    evaluate_jobs E candidate jobs st = (Ok ms, st') /\
    List.length ms = List.length jobs /\
    rank_jobs_loop E candidate min_score jobs results st
    = (Ok (results ++ map JobEntry.of_match (kept min_score ms))%list, st').
Proof.
  induction jobs as [|j js IH]; intros results st.
  - exists [], st. repeat split. simpl. unfold ret. now rewrite app_nil_r.
  - destruct (_calculate_match_returns E j candidate st) as (m & s1 & Hm).
    set (results1 :=
           if Qltb (MatchResult.score m) min_score then results
           else append results (JobEntry.of_match m)).
    destruct (IH results1 s1) as (ms & st' & Hev & Hlen & Hloop).
    exists (m :: ms), st'. split; [|split].
    + cbn [evaluate_jobs]. unfold bind. rewrite Hm, Hev. reflexivity.
    + simpl. now rewrite Hlen.
    + cbn [rank_jobs_loop]. unfold bind at 1.
      unfold rank_jobs_step, try_except, bind. rewrite Hm.
      fold results1.
      assert (Hstep : (if Qltb (MatchResult.score m) min_score
                       then ret results
                       else ret (append results (JobEntry.of_match m)))
                        s1 = (Ok results1, s1)).
      { subst results1. now destruct (Qltb (MatchResult.score m) min_score). }
      rewrite Hstep, Hloop. f_equal. f_equal.
      subst results1. unfold kept. cbn [filter].
      destruct (Qltb (MatchResult.score m) min_score); cbn [negb map].
      * reflexivity.
      * unfold append. now rewrite <- app_assoc.
Qed.

(** C5. Both ranking operations evaluate every counterpart and return
    exactly the entries of the results whose score is not strictly below
    the threshold, from the highest score to the lowest, entries of equal
    score in the order of the collection. *)
Theorem ranking_filters_and_sorts (E : Env) (job : JobDB.t)
  (candidate : CandidateDB.t) (candidates : list CandidateDB.t)
  (jobs : list JobDB.t) (min_score : Q) (st : Service) :
  (exists ms st' out,
      evaluate_candidates E job candidates st = (Ok ms, st') /\
      rank_candidates_for_job E job candidates min_score st = (Ok out, st') /\
      let expected := map CandidateEntry.of_match (kept min_score ms) in
      Permutation out expected /\
      descending CandidateEntry.score out /\
      keeps_order_of_ties CandidateEntry.score expected out) /\
  (exists ms st' out,
      evaluate_jobs E candidate jobs st = (Ok ms, st') /\
      rank_jobs_for_candidate E candidate jobs min_score st = (Ok out, st') /\
      let expected := map JobEntry.of_match (kept min_score ms) in
      Permutation out expected /\
      descending JobEntry.score out /\
      keeps_order_of_ties JobEntry.score expected out).
Proof.
  split.
  - destruct (rank_candidates_loop_spec E job min_score candidates [] st)
      as (ms & st' & Hev & _ & Hloop).
    exists ms, st'. eexists. split; [exact Hev|]. split.
    + unfold rank_candidates_for_job, bind. rewrite Hloop. reflexivity.
    + cbn [app]. split; [apply sort_reverse_perm|].
      split; [apply sort_reverse_descending | apply sort_reverse_ties].
  - destruct (rank_jobs_loop_spec E candidate min_score jobs [] st)
      as (ms & st' & Hev & _ & Hloop).
    exists ms, st'. eexists. split; [exact Hev|]. split.
    + unfold rank_jobs_for_candidate, bind. rewrite Hloop. reflexivity.
    + cbn [app]. split; [apply sort_reverse_perm|].
      split; [apply sort_reverse_descending | apply sort_reverse_ties].
Qed.

(** *** Pairs whose evaluation raises *)

Lemma raising_pair_gives_error_result (E : Env) (job : JobDB.t)
  (candidate : CandidateDB.t) (s : scorer) (msg : string) (st : Service) :
  default_mode_scorer s = true ->
  unexpected E s job candidate = Some msg ->
  exists msg' st',
    _calculate_match E job candidate st
    = (Ok (error_result job candidate msg'), st').
Proof.
  intros Hs Hmsg.
  destruct (_calculate_match_cases E job candidate st)
    as (sem & st' & _ & _ & [(s' & msg' & _ & _ & Hrun)
        |(rule & b & reasons & Hclean & _)]).
  - now exists msg', st'.
  - rewrite (Hclean s Hs) in Hmsg. discriminate.
Qed.

Lemma evaluate_candidates_app (E : Env) (job : JobDB.t)
  (before after : list CandidateDB.t) :
  forall st ms st',
    evaluate_candidates E job (before ++ after) st = (Ok ms, st') ->
    exists ms1 s1 ms2,
      evaluate_candidates E job before st = (Ok ms1, s1) /\
      evaluate_candidates E job after s1 = (Ok ms2, st') /\
      ms = (ms1 ++ ms2)%list /\
      List.length ms1 = List.length before.
Proof.
  induction before as [|c cs IH]; intros st ms st' H.
  - exists [], st, ms. repeat split. exact H.
  - cbn [app evaluate_candidates] in H. unfold bind in H.
    destruct (_calculate_match_returns E job c st) as (m & s0 & Hm).
    rewrite Hm in H.
    destruct (evaluate_candidates E job (cs ++ after) s0)
      as [[ms0|e] s2] eqn:Hrest; [|discriminate].
    unfold ret in H. injection H as <- <-.
    destruct (IH s0 ms0 s2 Hrest) as (ms1 & s1 & ms2 & H1 & H2 & -> & Hlen).
    exists (m :: ms1), s1, ms2. repeat split.
    + cbn [evaluate_candidates]. unfold bind. now rewrite Hm, H1.
    + exact H2.
    + simpl. now rewrite Hlen.
Qed.

(** C9. When a scorer of the default mode raises on a pair,
    [_calculate_match] returns for that pair a result with score 0.0 whose
    only reason reports the error; and a ranking call with that pair in it
    still evaluates every candidate, those after the failing one included,
    and returns the ranking of all the results. *)
Theorem pair_failure_is_absorbed (E : Env) (job : JobDB.t)
  (candidate : CandidateDB.t) (s : scorer) (msg : string) :
  default_mode_scorer s = true ->
  unexpected E s job candidate = Some msg ->
  (forall st, exists m msg' st',
      _calculate_match E job candidate st = (Ok m, st') /\
      MatchResult.score m = 0.0 /\
      MatchResult.match_reasons m
      = [Icon.cross ++ " Error during matching: " ++ msg']) /\
  (forall before after min_score st,
      exists ms1 m ms2 msg' st',
        evaluate_candidates E job (before ++ candidate :: after) st
        = (Ok (ms1 ++ m :: ms2)%list, st') /\
        List.length ms1 = List.length before /\
        List.length ms2 = List.length after /\
        m = error_result job candidate msg' /\
        rank_candidates_for_job E job (before ++ candidate :: after)
          min_score st
        = (Ok (sort_reverse CandidateEntry.score
                 (map CandidateEntry.of_match
                    (kept min_score (ms1 ++ m :: ms2)))),
           st')).
Proof.
  intros Hs Hmsg. split.
  - intro st.
    destruct (raising_pair_gives_error_result E job candidate s msg st
                Hs Hmsg) as (msg' & st' & Hrun).
    exists (error_result job candidate msg'), msg', st'.
    split; [exact Hrun|]. split; reflexivity.
  - intros before after min_score st.
    destruct (rank_candidates_loop_spec E job min_score
                (before ++ candidate :: after) [] st)
      as (ms & st' & Hev & _ & Hloop).
    destruct (evaluate_candidates_app E job before (candidate :: after)
                st ms st' Hev) as (ms1 & s1 & ms2' & H1 & H2 & -> & Hlen1).
    cbn [evaluate_candidates] in H2. unfold bind in H2.
    destruct (raising_pair_gives_error_result E job candidate s msg s1
                Hs Hmsg) as (msg' & s2 & Hrun).
    rewrite Hrun in H2.
    destruct (rank_candidates_loop_spec E job min_score after [] s2)
      as (ms2 & s3 & Hev2 & Hlen2 & _).
    rewrite Hev2 in H2. unfold ret in H2. injection H2 as <- <-.
    exists ms1, (error_result job candidate msg'), ms2, msg', s3.
    split; [exact Hev|]. split; [exact Hlen1|]. split; [exact Hlen2|].
    split; [reflexivity|].
    unfold rank_candidates_for_job, bind. rewrite Hloop. reflexivity.
Qed.

(** C9 in the environment where the salary scorer raises on the candidate
    who expects 4000, ranked between two other candidates: the three of
    them are in the ranking, the python developer first. *)
Lemma pair_failure_is_absorbed_witness :
  exists out st',
    rank_candidates_for_job Sample.faulty_env Sample.python_job
      [Sample.cook; Sample.cheap_dev; Sample.python_dev] 0 Sample.service
    = (Ok out, st') /\
    map CandidateEntry.candidate out
    = [Some Sample.python_dev; Some Sample.cook; Some Sample.cheap_dev].
Proof.
  destruct (proj2 (pair_failure_is_absorbed Sample.faulty_env
                     Sample.python_job Sample.cheap_dev SSalary
                     "unsupported operand" eq_refl eq_refl)
              [Sample.cook] [Sample.python_dev] 0 Sample.service)
    as (ms1 & m & ms2 & msg' & st' & _ & _ & _ & _ & Hrank).
  eexists. exists st'. split; [exact Hrank|].
  assert (Hc : exists out0 st0,
             rank_candidates_for_job Sample.faulty_env Sample.python_job
               ([Sample.cook] ++ Sample.cheap_dev :: [Sample.python_dev])
               0 Sample.service = (Ok out0, st0) /\
             map CandidateEntry.candidate out0
             = [Some Sample.python_dev; Some Sample.cook;
                Some Sample.cheap_dev]).
  { eexists. eexists. split; vm_compute; reflexivity. }
  destruct Hc as (out0 & st0 & Hrank0 & Hout).
  rewrite Hrank in Hrank0. injection Hrank0 as <- <-. exact Hout.
Defined.

(* ------------------------------------------------------------------ *)
(** ** The embedding cache *)

Lemma find_remove_snoc (k : string) (x : Tensor * Q)
  (es : list (string * (Tensor * Q))) :
  TTLCache.find k (TTLCache.remove k es ++ [(k, x)])%list = Some x.
Proof.
  induction es as [|[k' y] es IH]; simpl.
  - now rewrite String.eqb_refl.
  - destruct (String.eqb k k') eqn:Hk; simpl; [exact IH|].
    now rewrite Hk.
Qed.

Lemma setitem_stores (time : Q) (k : string) (v : Tensor) (c c' : TTLCache.t) :
  TTLCache.setitem time k v c = (Ok tt, c') ->
  TTLCache.find k (TTLCache.entries c') = Some (v, time + TTLCache.ttl c').
Proof.
  unfold TTLCache.setitem.
  destruct (1 >? TTLCache.maxsize (TTLCache.expire time c))%Z; [discriminate|].
  destruct (match TTLCache.find k (TTLCache.entries (TTLCache.expire time c))
            with
            | Some _ => _
            | None => _
            end) as [[[]|msg] c2]; [|discriminate].
  intros [= <-]. simpl. apply find_remove_snoc.
Qed.

(** A lookup that returns a vector leaves that vector stored under the
    hash of the text. *)
Lemma _get_embedding_stores (E : Env) (text : string) (st st1 : Service)
  (v : Tensor) :
  _get_embedding E text st = (Ok v, st1) ->
  exists expires,
    TTLCache.find (_get_text_hash E text)
      (TTLCache.entries (_embedding_cache st1)) = Some (v, expires).
Proof.
  unfold _get_embedding. set (key := _get_text_hash E text).
  unfold bind at 1.
  assert (Hhit : forall s, TTLCache.entries (_embedding_cache s)
                           = TTLCache.entries (_embedding_cache st) ->
                 cache_getitem E key s = (Ok v, st1) ->
                 exists expires,
                   TTLCache.find key (TTLCache.entries (_embedding_cache st1))
                   = Some (v, expires)).
  { intros s Hs. unfold cache_getitem, bind, get_cache, put_cache, read_timer,
      ret, raise.
    destruct (TTLCache.find key (TTLCache.entries (_embedding_cache s)))
      as [[value expires]|] eqn:Hfind; [|discriminate].
    cbn [_embedding_cache clock_reads encode_calls].
    destruct (Qltb _ expires); [|discriminate].
    intros [= <- <-]. exists expires. exact Hfind. }
  assert (Hmiss : forall s,
             try_except
               (embedding <- model_encode E text;;
                _ <- cache_setitem E key embedding;;
                ret embedding)
               (fun e => raise e) s = (Ok v, st1) ->
             exists expires,
               TTLCache.find key (TTLCache.entries (_embedding_cache st1))
               = Some (v, expires)).
  { intros s. unfold try_except, bind, model_encode, cache_setitem, bind,
      read_timer, get_cache, put_cache, lift, ret, raise.
    destruct (encode E text) as [embedding|e]; [|discriminate].
    cbn [_embedding_cache clock_reads encode_calls].
    destruct (TTLCache.setitem (timer E (clock_reads s)) key embedding
                (_embedding_cache s)) as [[[]|msg] c'] eqn:Hset;
      [|discriminate].
    intros [= <- <-]. cbn [_embedding_cache].
    eexists. exact (setitem_stores _ _ _ _ _ Hset). }
  unfold cache_contains, bind, get_cache, read_timer, ret.
  destruct (TTLCache.find key (TTLCache.entries (_embedding_cache st)))
    as [[value expires]|] eqn:Hfind.
  - destruct (Qltb (timer E (clock_reads st)) expires).
    + apply Hhit. reflexivity.
    + apply Hmiss.
  - apply Hmiss.
Qed.

(** A lookup of a stored text that is not due at the two clock readings
    of the lookup returns the stored vector; only the recency order and
    the count of clock readings change. *)
Lemma _get_embedding_hit (E : Env) (text : string) (st : Service)
  (v : Tensor) (expires : Q) :
  TTLCache.find (_get_text_hash E text)
    (TTLCache.entries (_embedding_cache st)) = Some (v, expires) ->
  timer E (clock_reads st) < expires ->
  timer E (S (clock_reads st)) < expires ->
  _get_embedding E text st
  = (Ok v,
     {| _embedding_cache :=
          TTLCache.mk (TTLCache.maxsize (_embedding_cache st))
            (TTLCache.ttl (_embedding_cache st))
            (TTLCache.entries (_embedding_cache st))
            (TTLCache.move_to_end (_get_text_hash E text)
               (TTLCache.lru (_embedding_cache st)));
        clock_reads := S (S (clock_reads st));
        encode_calls := encode_calls st |}).
Proof.
  intros Hfind H1 H2.
  apply Qltb_lt in H1, H2.
  unfold _get_embedding, cache_contains, cache_getitem, bind, get_cache,
    put_cache, read_timer, ret.
  rewrite Hfind. cbn [_embedding_cache clock_reads encode_calls].
  rewrite H1. cbn [_embedding_cache clock_reads encode_calls].
  rewrite Hfind. cbn [_embedding_cache clock_reads encode_calls].
  now rewrite H2.
Qed.

(** C6, as the code has it.  After a lookup that returned a vector, a
    second lookup of the same text, made while the stored entry is not due
    at the two clock readings the lookup takes, returns the same vector
    without a call of the model, and leaves the entries of the cache, and
    so its size at any time, as they were. *)
Theorem second_lookup_is_cached (E : Env) (text : string)
  (st st1 : Service) (v : Tensor) :
  _get_embedding E text st = (Ok v, st1) ->
  (forall expires, expiry_of E st1 text = Some expires ->
     timer E (clock_reads st1) < expires /\
     timer E (S (clock_reads st1)) < expires) ->
  exists st2,
    _get_embedding E text st1 = (Ok v, st2) /\
    encode_calls st2 = encode_calls st1 /\
    TTLCache.entries (_embedding_cache st2)
    = TTLCache.entries (_embedding_cache st1) /\
    forall time,
      TTLCache.len time (_embedding_cache st2)
      = TTLCache.len time (_embedding_cache st1).
Proof.
  intros Hfirst Hfresh.
  destruct (_get_embedding_stores E text st st1 v Hfirst) as (expires & Hfind).
  destruct (Hfresh expires) as [H1 H2].
  { unfold expiry_of. now rewrite Hfind. }
  eexists. split; [exact (_get_embedding_hit E text st1 v expires Hfind H1 H2)|].
  repeat split.
Qed.

(** C6 on the service as [__init__] leaves it, the clock advancing by one
    second per reading. *)
Lemma second_lookup_is_cached_witness :
  exists st1 st2,
    _get_embedding Sample.env "python developer" Sample.service
    = (Ok [16], st1) /\
    _get_embedding Sample.env "python developer" st1 = (Ok [16], st2) /\
    encode_calls st2 = encode_calls st1.
Proof.
  assert (Hfirst : exists st1,
             _get_embedding Sample.env "python developer" Sample.service
             = (Ok [16], st1) /\
             expiry_of Sample.env st1 "python developer" = Some 3600 /\
             clock_reads st1 = 1%nat).
  { eexists. split; [vm_compute; reflexivity|]. split; reflexivity. }
  destruct Hfirst as (st1 & Hfirst & Hexp & Hclock).
  destruct (second_lookup_is_cached Sample.env "python developer"
              Sample.service st1 [16] Hfirst) as (st2 & Hsecond & Hcalls & _).
  - intros expires Hexpires. rewrite Hexp in Hexpires.
    injection Hexpires as <-. rewrite Hclock.
    split; vm_compute; reflexivity.
  - exists st1, st2. repeat split; assumption.
Defined.

(** C6, as the spec has it, fails: when more than the time to live passes
    between the two lookups the model is called again. *)
Lemma second_lookup_after_expiry :
  ~ (forall (E : Env) (text : string) (st st1 : Service) (v : Tensor),
       _get_embedding E text st = (Ok v, st1) ->
       exists st2,
         _get_embedding E text st1 = (Ok v, st2) /\
         encode_calls st2 = encode_calls st1 /\
         (forall time,
            TTLCache.len time (_embedding_cache st2)
            = TTLCache.len time (_embedding_cache st1))).
Proof.
  intro H.
  assert (Hfirst : exists st1,
             _get_embedding Sample.slow_env "python developer" Sample.service
             = (Ok [16], st1) /\
             exists r st2,
               _get_embedding Sample.slow_env "python developer" st1
               = (r, st2) /\
               List.length (encode_calls st1) = 1%nat /\
               List.length (encode_calls st2) = 2%nat).
  { eexists. split; [vm_compute; reflexivity|].
    eexists. eexists. split; [vm_compute; reflexivity|].
    split; reflexivity. }
  destruct Hfirst as (st1 & Hfirst & r & st2 & Hsecond & Hlen1 & Hlen2).
  destruct (H Sample.slow_env "python developer" Sample.service st1 [16]
              Hfirst) as (st2' & Hsecond' & Hcalls & _).
  rewrite Hsecond in Hsecond'. injection Hsecond' as _ <-.
  rewrite Hcalls in Hlen2. rewrite Hlen1 in Hlen2. discriminate.
Qed.

(* ------------------------------------------------------------------ *)
(** ** More on the rule scorers *)

Module SetFacts.
Import PyStr.

Lemma mem_In (x : string) (xs : list string) : mem x xs = true <-> In x xs.
Proof.
  unfold mem. rewrite existsb_exists. split.
  - intros (y & Hy & Heq). apply String.eqb_eq in Heq. now subst.
  - intro H. exists x. split; [exact H | apply String.eqb_refl].
Qed.

Lemma In_to_set (y : string) (xs : list string) :
  In y (to_set xs) <-> In y xs.
Proof.
  induction xs as [|x xs IH]; [reflexivity|].
  cbn [to_set In]. rewrite filter_In, IH.
  destruct (String.eqb x y) eqn:Hxy.
  - apply String.eqb_eq in Hxy. subst. tauto.
  - apply String.eqb_neq in Hxy. simpl. tauto.
Qed.

Lemma filter_nil_iff {A} (f : A -> bool) (l : list A) :
  filter f l = [] <-> forall x, In x l -> f x = false.
Proof.
  induction l as [|x l IH]; simpl.
  - split; [intros _ y [] | reflexivity].
  - destruct (f x) eqn:Hx.
    + split; [discriminate|]. intro H. rewrite (H x (or_introl eq_refl)) in Hx.
      discriminate.
    + rewrite IH. split.
      * intros H y [<-|Hy]; [exact Hx | now apply H].
      * intros H y Hy. apply H. now right.
Qed.

Lemma filter_all_iff {A} (f : A -> bool) (l : list A) :
  List.length (filter f l) = List.length l <->
  forall x, In x l -> f x = true.
Proof.
  induction l as [|x l IH]; simpl.
  - split; [intros _ y [] | reflexivity].
  - assert (Hle := filter_length_le f l).
    destruct (f x) eqn:Hx; simpl.
    + split.
      * intros H y [<-|Hy]; [exact Hx|]. apply IH; [lia | exact Hy].
      * intro H. f_equal. apply IH. intros y Hy. apply H. now right.
    + split; [lia|]. intro H. rewrite (H x (or_introl eq_refl)) in Hx.
      discriminate.
Qed.

(** Membership in the set of the images of a list. *)
Lemma mem_to_set_map (f : string -> string) (y : string)
  (xs : list string) :
  mem (f y) (to_set (map f xs)) = existsb (fun x => String.eqb (f y) (f x)) xs.
Proof.
  apply eq_true_iff_eq.
  rewrite mem_In, In_to_set, in_map_iff, existsb_exists.
  split.
  - intros (x & Heq & Hx). exists x. split; [exact Hx|].
    rewrite Heq. apply String.eqb_refl.
  - intros (x & Hx & Heq). exists x. apply String.eqb_eq in Heq.
    split; [now symmetry | exact Hx].
Qed.

End SetFacts.

(** X1. The location score is never below 0.3, it is 1.0 exactly when the
    two locations agree once case and surrounding white space are set
    aside, and it is the same when the two locations change sides. *)
Theorem location_score_symmetric (job job' : JobDB.t)
  (candidate candidate' : CandidateDB.t) :
  0.3 <= fst (_score_location job candidate) <= 1 /\
  (fst (_score_location job candidate) == 1.0 <->
   PyStr.strip (PyStr.lower (JobDB.location job))
   = PyStr.strip (PyStr.lower (CandidateDB.location candidate))) /\
  (JobDB.location job' = CandidateDB.location candidate ->
   CandidateDB.location candidate' = JobDB.location job ->
   fst (_score_location job' candidate') = fst (_score_location job candidate)).
Proof.
  unfold _score_location. split; [|split].
  - destruct (String.eqb _ _); [split; discriminate|].
    destruct (_ || _); split; discriminate.
  - destruct (String.eqb _ _) eqn:Heq.
    + apply String.eqb_eq in Heq. split; [intros _; exact Heq | reflexivity].
    + apply String.eqb_neq in Heq.
      destruct (_ || _); split; try discriminate; intro H; now elim Heq.
  - intros -> ->.
    rewrite (String.eqb_sym
               (PyStr.strip (PyStr.lower (CandidateDB.location candidate)))).
    rewrite (orb_comm
               (PyStr.contains
                  (PyStr.strip (PyStr.lower (CandidateDB.location candidate)))
                  _)).
    reflexivity.
Qed.

(** X1 on a job in "Tel Aviv" and a candidate in " tel aviv ", and on the two
    sides exchanged. *)
Lemma location_score_symmetric_witness :
  fst (_score_location
         (Sample.job OTHER None None [] [] [] false false)
         (CandidateDB.mk "c" "Noa" " tel aviv " None None None "" [] None None
            [] [] [] false false None 0 None None)) == 1.0 /\
  fst (_score_location
         (JobDB.mk "j" "t" "Haifa, Israel" "" OTHER FULL_TIME JUNIOR None None
            [] [] [] None [] false false [])
         (CandidateDB.mk "c" "Noa" "Haifa" None None None "" [] None None
            [] [] [] false false None 0 None None))
  = fst (_score_location
           (JobDB.mk "j" "t" "Haifa" "" OTHER FULL_TIME JUNIOR None None
              [] [] [] None [] false false [])
           (CandidateDB.mk "c" "Noa" "Haifa, Israel" None None None "" []
              None None [] [] [] false false None 0 None None)).
Proof.
  split.
  - apply (proj1 (proj2 (location_score_symmetric _
                           (Sample.job OTHER None None [] [] [] false false)
                           _ Sample.cook))). reflexivity.
  - apply (proj2 (proj2 (location_score_symmetric _ _ _ _))); reflexivity.
Defined.

Lemma matched_advantages_found (job : JobDB.t) (candidate : CandidateDB.t) :
  matched_in (JobDB.advantages job) (combined_text candidate)
  = advantages_found job candidate.
Proof.
  unfold matched_in, advantages_found, occurs_ignoring_case.
  now rewrite combined_text_lower.
Qed.

(** X2. The advantages bonus is 0.2 for each advantage found, case
    ignored, in the candidate's experience and skills text, up to five; from
    five advantages on it is 1.0; it is 0.0 exactly when none is found. *)
Theorem advantages_bonus_capped (job : JobDB.t) (candidate : CandidateDB.t) :
  let bonus := fst (_score_advantages job candidate) in
  let found := List.length (advantages_found job candidate) in
  ((found <= 5)%nat -> bonus == 0.2 * inject_Z (Z.of_nat found)) /\
  ((5 <= found)%nat -> bonus == 1.0) /\
  (bonus == 0.0 <-> found = 0%nat) /\
  0 <= bonus <= 1.
Proof.
  cbv zeta. rewrite <- matched_advantages_found.
  unfold _score_advantages.
  destruct (JobDB.advantages job) as [|a advs] eqn:Hadv.
  - cbn [matched_in filter List.length fst].
    split; [intros _; reflexivity|].
    split; [intro H; exfalso; lia|].
    split; [split; reflexivity | split; discriminate].
  - cbv zeta.
    set (matched := matched_in (a :: advs) (combined_text candidate)).
    destruct matched as [|m ms] eqn:Hm.
    + cbn [List.length fst].
      split; [intros _; reflexivity|].
      split; [intro H; exfalso; lia|].
      split; [split; reflexivity | split; discriminate].
    + set (k := List.length (m :: ms)).
      assert (Hk : (1 <= k)%nat) by (subst k; simpl; lia).
      assert (Hq : 1 <= inject_Z (Z.of_nat k)).
      { change 1 with (inject_Z 1). rewrite <- Zle_Qle. lia. }
      cbn [fst].
      destruct (py_min_spec 1.0 (inject_Z (Z.of_nat k) * 0.2))
        as [[Hlt ->]|[Hge ->]].
      * assert (Hk5 : (k < 5)%nat).
        { destruct (Nat.lt_ge_cases k 5) as [H|H]; [exact H|].
          exfalso.
          assert (H5 : 5 <= inject_Z (Z.of_nat k)).
          { change 5 with (inject_Z 5). rewrite <- Zle_Qle. lia. }
          lra. }
        split; [intros _; lra|]. split; [intro; lia|].
        split; [split; [intro H; exfalso; lra | intro; lia] | lra].
      * assert (Hk5 : (5 <= k)%nat).
        { destruct (Nat.lt_ge_cases k 5) as [H|H]; [|exact H].
          exfalso.
          assert (H4 : inject_Z (Z.of_nat k) <= 4).
          { change 4 with (inject_Z 4). rewrite <- Zle_Qle. lia. }
          lra. }
        split.
        { intro H. assert (k = 5)%nat by lia.
          replace (Z.of_nat k) with 5%Z by lia. reflexivity. }
        split; [intros _; reflexivity|].
        split; [split; [intro H; exfalso; revert H; discriminate
                       | intro; lia]
               | split; discriminate].
Qed.

(** X2 on a job with six advantages, all of which the candidate has. *)
Lemma advantages_bonus_capped_witness :
  fst (_score_advantages Sample.bonus_job Sample.all_rounder) == 1.0.
Proof.
  apply (proj1 (proj2 (advantages_bonus_capped Sample.bonus_job
                         Sample.all_rounder))).
  vm_compute. lia.
Defined.

(** The languages the scorer counts: the required ones, normalised, that
    the candidate speaks. *)
Lemma languages_matched_all (candidate : CandidateDB.t)
  (required : list string) :
  let normal lang := PyStr.strip (PyStr.lower lang) in
  let required_set := PyStr.to_set (map normal required) in
  let candidate_langs :=
    PyStr.to_set (map normal (CandidateDB.languages candidate)) in
  let matched := filter (fun l => PyStr.mem l candidate_langs) required_set in
  (List.length matched = List.length required_set <->
   forall lang, In lang required -> speaks candidate lang = true) /\
  (matched = [] <->
   forall lang, In lang required -> speaks candidate lang = false) /\
  (required <> [] -> (0 < List.length required_set)%nat) /\
  (List.length matched <= List.length required_set)%nat.
Proof.
  cbv zeta.
  assert (Hspeaks : forall lang,
             PyStr.mem (normal_language lang)
               (PyStr.to_set (map normal_language
                                (CandidateDB.languages candidate)))
             = speaks candidate lang).
  { intro lang. apply SetFacts.mem_to_set_map. }
  change (fun lang => PyStr.strip (PyStr.lower lang)) with normal_language.
  split; [|split; [|split]].
  - rewrite SetFacts.filter_all_iff. split.
    + intros H lang Hin. rewrite <- Hspeaks. apply H.
      rewrite SetFacts.In_to_set. now apply in_map.
    + intros H x Hx. rewrite SetFacts.In_to_set in Hx.
      apply in_map_iff in Hx. destruct Hx as (lang & <- & Hin).
      rewrite Hspeaks. now apply H.
  - rewrite SetFacts.filter_nil_iff. split.
    + intros H lang Hin. rewrite <- Hspeaks. apply H.
      rewrite SetFacts.In_to_set. now apply in_map.
    + intros H x Hx. rewrite SetFacts.In_to_set in Hx.
      apply in_map_iff in Hx. destruct Hx as (lang & <- & Hin).
      rewrite Hspeaks. now apply H.
  - intro Hne. destruct required as [|r rs]; [congruence|]. simpl. lia.
  - apply filter_length_le.
Qed.

(** X3. Without required languages the language score is 0.0.  With
    some, it lies between 0 and 1; it is 1.0 exactly when the candidate speaks
    every required language and 0.0 exactly when the candidate speaks none,
    languages being compared without case and surrounding white space. *)
Theorem language_score_share (job : JobDB.t) (candidate : CandidateDB.t) :
  let score := fst (_score_languages job candidate) in
  (JobDB.required_languages job = [] -> score == 0.0) /\
  (JobDB.required_languages job <> [] ->
   0 <= score <= 1 /\
   (score == 1.0 <->
    forall lang, In lang (JobDB.required_languages job) ->
                 speaks candidate lang = true) /\
   (score == 0.0 <->
    forall lang, In lang (JobDB.required_languages job) ->
                 speaks candidate lang = false)).
Proof.
  cbv zeta. unfold _score_languages. split.
  - intros ->. reflexivity.
  - intro Hne.
    destruct (JobDB.required_languages job) as [|r rs] eqn:Hreq;
      [congruence|].
    destruct (languages_matched_all candidate (r :: rs))
      as (Hall & Hnone & Hpos & Hle).
    cbv zeta in *.
    set (required_set :=
           PyStr.to_set
             (map (fun lang => PyStr.strip (PyStr.lower lang)) (r :: rs))) in *.
    set (matched := filter _ required_set) in *.
    specialize (Hpos Hne).
    destruct (Nat.eqb (List.length matched) (List.length required_set))
      eqn:Hlen.
    + apply Nat.eqb_eq in Hlen. cbn [fst].
      split; [split; discriminate|]. split.
      * split; [intros _; now apply Hall | reflexivity].
      * split; [discriminate|]. intro H. apply Hnone in H.
        rewrite H in Hlen. simpl in Hlen. lia.
    + apply Nat.eqb_neq in Hlen.
      destruct matched as [|m ms] eqn:Hm.
      * cbn [fst]. split; [split; discriminate|]. split.
        -- split; [discriminate|]. intro H. apply Hall in H.
           simpl in H. lia.
        -- split; [intros _; now apply Hnone | reflexivity].
      * cbn [fst].
        set (k := List.length (m :: ms)) in *.
        set (n := List.length required_set) in *.
        assert (Hk : (0 < k)%nat) by (subst k; simpl; lia).
        split; [now apply div_len_unit|]. split.
        -- assert (H1 : 1.0 == 1) by reflexivity. rewrite H1.
           rewrite (div_len_one k n Hpos). split; [congruence|].
           intro H. apply Hall in H. congruence.
        -- assert (H0 : 0.0 == 0) by reflexivity. rewrite H0.
           rewrite (div_len_zero k n Hpos). split; [lia|].
           intro H. apply Hnone in H. discriminate H.
Qed.

(** X3 on the job that asks for "English" and " hebrew ": the nurse who
    lists "HEBREW" and "english" scores 1.0. *)
Lemma language_score_share_witness :
  fst (_score_languages Sample.clinic_job Sample.nurse) == 1.0 /\
  fst (_score_languages Sample.open_job Sample.nurse) == 0.0.
Proof.
  split.
  - apply (proj2 (language_score_share Sample.clinic_job Sample.nurse)).
    + discriminate.
    + intros lang [<-|[<-|[]]]; reflexivity.
  - apply (proj1 (language_score_share Sample.open_job Sample.nurse)).
    reflexivity.
Defined.

(** X4. The certification score is 1.0 when the candidate holds every
    required certification, case apart, and 0.0 as soon as one is missing:
    there is nothing in between. *)
Theorem certifications_all_or_nothing (job : JobDB.t)
  (candidate : CandidateDB.t) :
  let score := fst (score_certifications job candidate) in
  ((forall cert, In cert (JobDB.certifications_required job) ->
                 holds_certification candidate cert = true) ->
   score == 1.0) /\
  ((exists cert, In cert (JobDB.certifications_required job) /\
                 holds_certification candidate cert = false) ->
   score == 0.0).
Proof.
  cbv zeta. unfold score_certifications.
  assert (Hholds : forall cert,
             PyStr.mem (PyStr.lower cert)
               (PyStr.to_set (map PyStr.lower
                                (CandidateDB.certifications candidate)))
             = holds_certification candidate cert).
  { intro cert. apply SetFacts.mem_to_set_map. }
  set (candidate_certs :=
         PyStr.to_set (map PyStr.lower (CandidateDB.certifications candidate)))
    in *.
  destruct (PyStr.to_set (map PyStr.lower (JobDB.certifications_required job)))
    as [|c cs] eqn:Hset.
  - split; [reflexivity|].
    intros (cert & Hin & _). exfalso.
    assert (H : In (PyStr.lower cert) []).
    { rewrite <- Hset. rewrite SetFacts.In_to_set. now apply in_map. }
    exact H.
  - rewrite <- Hset.
    destruct (filter (fun c0 => negb (PyStr.mem c0 candidate_certs))
                (PyStr.to_set
                   (map PyStr.lower (JobDB.certifications_required job))))
      as [|x xs] eqn:Hmissing.
    + split; [reflexivity|].
      intros (cert & Hin & Hno). exfalso.
      rewrite SetFacts.filter_nil_iff in Hmissing.
      specialize (Hmissing (PyStr.lower cert)).
      rewrite Hholds, Hno in Hmissing.
      assert (H : negb false = false).
      { apply Hmissing. rewrite SetFacts.In_to_set. now apply in_map. }
      discriminate H.
    + split; [|reflexivity].
      intro Hall. exfalso.
      assert (Hx : In x (filter (fun c0 => negb (PyStr.mem c0 candidate_certs))
                            (PyStr.to_set
                               (map PyStr.lower
                                  (JobDB.certifications_required job))))).
      { rewrite Hmissing. now left. }
      apply filter_In in Hx. destruct Hx as [Hx Hno].
      rewrite SetFacts.In_to_set in Hx. apply in_map_iff in Hx.
      destruct Hx as (cert & <- & Hin).
      rewrite Hholds, (Hall cert Hin) in Hno. discriminate Hno.
Qed.

(** X4 on the job that asks for "First Aid" and "CPR": the nurse holds
    both, in lower case; the other candidate holds one. *)
Lemma certifications_all_or_nothing_witness :
  fst (score_certifications Sample.clinic_job Sample.nurse) == 1.0 /\
  fst (score_certifications Sample.clinic_job Sample.english_only) == 0.0.
Proof.
  split.
  - apply (proj1 (certifications_all_or_nothing Sample.clinic_job
                    Sample.nurse)).
    intros cert [<-|[<-|[]]]; reflexivity.
  - apply (proj2 (certifications_all_or_nothing Sample.clinic_job
                    Sample.english_only)).
    exists "First Aid". split; [left; reflexivity | reflexivity].
Defined.

(** *** The range of every scorer *)

Lemma _score_location_bounds (job : JobDB.t) (candidate : CandidateDB.t) :
  0.3 <= fst (_score_location job candidate) <= 1.
Proof.
  unfold _score_location.
  destruct (String.eqb _ _); [split; discriminate|].
  destruct (_ || _); split; discriminate.
Qed.

Lemma _score_salary_values (E : Env) (job : JobDB.t)
  (candidate : CandidateDB.t) :
  fst (_score_salary E job candidate) = 0.0 \/
  fst (_score_salary E job candidate) = 0.5 \/
  fst (_score_salary E job candidate) = 1.0.
Proof.
  unfold _score_salary.
  destruct (JobDB.salary_min job) as [lo|], (JobDB.salary_max job) as [hi|];
    cbv zeta;
    repeat match goal with
           | |- context [Qltb ?a ?b] => destruct (Qltb a b)
           end; cbn [fst]; tauto.
Qed.

Lemma _score_requirements_unit (job : JobDB.t) (candidate : CandidateDB.t) :
  0 <= fst (_score_requirements job candidate) <= 1.
Proof.
  destruct (JobDB.requirements job) as [|r rs] eqn:Hreq.
  - unfold _score_requirements. rewrite Hreq. split; discriminate.
  - assert (Hne : JobDB.requirements job <> []) by congruence.
    rewrite (requirements_score_ratio job candidate Hne).
    apply div_len_unit.
    + apply filter_length_le.
    + rewrite Hreq. simpl. lia.
Qed.

Lemma _score_advantages_unit (job : JobDB.t) (candidate : CandidateDB.t) :
  0 <= fst (_score_advantages job candidate) <= 1.
Proof.
  unfold _score_advantages.
  destruct (JobDB.advantages job) as [|a advs]; [split; discriminate|].
  cbv zeta.
  destruct (matched_in (a :: advs) (combined_text candidate)) as [|m ms];
    [split; discriminate|].
  cbn [fst].
  set (k := List.length (m :: ms)).
  assert (Hq : 0 <= inject_Z (Z.of_nat k)).
  { change 0 with (inject_Z 0). rewrite <- Zle_Qle. lia. }
  destruct (py_min_spec 1.0 (inject_Z (Z.of_nat k) * 0.2))
    as [[Hlt ->]|[Hge ->]]; [lra | split; discriminate].
Qed.

Lemma _score_languages_unit (job : JobDB.t) (candidate : CandidateDB.t) :
  0 <= fst (_score_languages job candidate) <= 1.
Proof.
  unfold _score_languages.
  destruct (JobDB.required_languages job) as [|r rs];
    [split; discriminate|].
  destruct (languages_matched_all candidate (r :: rs))
    as (_ & _ & Hpos & Hle).
  cbv zeta in *.
  destruct (Nat.eqb _ _); [split; discriminate|].
  destruct (filter _ _) as [|m ms] eqn:Hm; [split; discriminate|].
  cbn [fst]. apply div_len_unit; [exact Hle|]. apply Hpos. discriminate.
Qed.



(** Rule scoring when no scorer raises: the state is as before, the
    breakdown holds what the scorers returned, and the score is the clamped
    sum. *)
Lemma _calculate_rule_score_clean (E : Env) (job : JobDB.t)
  (candidate : CandidateDB.t) (st : Service) :
  (forall s, default_mode_scorer s = true ->
             unexpected E s job candidate = None) ->
  exists rule b reasons,
    _calculate_rule_score E job candidate st = (Ok (rule, b, reasons), st) /\
    ScoringBreakdown.location_match b
    = fst (_score_location job candidate) * LOCATION_MAX /\
    ScoringBreakdown.salary_match b
    = fst (_score_salary E job candidate) * SALARY_MAX /\
    ScoringBreakdown.requirements_match b
    = fst (_score_requirements job candidate) * REQUIREMENTS_MAX /\
    ScoringBreakdown.advantages_match b
    = fst (_score_advantages job candidate) /\
    ScoringBreakdown.language_match b
    = fst (_score_languages job candidate) /\
    rule = py_max 0.0
             (py_min 1.0
                ((ScoringBreakdown.location_match b
                  + ScoringBreakdown.salary_match b
                  + ScoringBreakdown.requirements_match b) / 3.0
                 + (ScoringBreakdown.advantages_match b
                    + ScoringBreakdown.language_match b) * 0.1)) /\
    (3 <= List.length reasons <= 5)%nat.
Proof.
  intro Hclean.
  unfold _calculate_rule_score, bind.
  rewrite !scoring_clean by (apply Hclean; reflexivity).
  destruct (_score_location job candidate) as [loc_score loc_reason].
  destruct (_score_salary E job candidate) as [sal_score sal_reason].
  destruct (_score_requirements job candidate) as [req_score req_reason].
  rewrite !scoring_clean by (apply Hclean; reflexivity).
  destruct (_score_advantages job candidate) as [adv_score adv_reason].
  rewrite !scoring_clean by (apply Hclean; reflexivity).
  destruct (_score_languages job candidate) as [lang_score lang_reason].
  eexists. eexists. eexists.
  split; [reflexivity|].
  repeat (split; [reflexivity|]).
  unfold append.
  destruct (Qltb 0 adv_score);
    destruct (Qltb 0 lang_score || _); simpl; lia.
Qed.



(** X6. The final score is 0 exactly for a hard reject and for an error
    result; every other pair scores at least 10.66, the least a pair with an
    accepted salary and a met requirement can get from the rule score
    alone. *)
Theorem zero_score_means_rejected (E : Env) (job : JobDB.t)
  (candidate : CandidateDB.t) (st : Service) :
  exists m st',
    _calculate_match E job candidate st = (Ok m, st') /\
    (rejected_or_failed m -> MatchResult.score m == 0) /\
    (~ rejected_or_failed m -> 10.66 <= MatchResult.score m).
Proof.
  destruct (_calculate_match_cases E job candidate st)
    as (sem & st' & _ & Hsem & [(s & msg & _ & _ & Hrun)
        |(rule & b & reasons & Hclean & Hrule & _ & _ & _ & Hrun)]).
  - exists (error_result job candidate msg), st'.
    split; [exact Hrun|]. split; [reflexivity|].
    intro H. exfalso. apply H. exact I.
  - exists (assembled job candidate sem rule b reasons), st'.
    split; [exact Hrun|].
    destruct (_calculate_rule_score_clean E job candidate st' Hclean)
      as (rule' & b' & reasons' & Hrun' & Hloc & Hsal & Hreq & Hadv & Hlang
          & Hvalue & _).
    rewrite Hrule in Hrun'. injection Hrun' as <- <- <-.
    unfold assembled, rejected_or_failed. cbv zeta.
    destruct (Qeq_bool (ScoringBreakdown.salary_match
                          (ScoringBreakdown.set_semantic_similarity b sem))
                0.0) eqn:Hs.
    { cbn [MatchResult.score MatchResult.breakdown].
      split; [reflexivity|]. intro H. exfalso. apply H. left.
      now apply Qeq_bool_iff. }
    destruct (Qeq_bool (ScoringBreakdown.requirements_match
                          (ScoringBreakdown.set_semantic_similarity b sem))
                0.0) eqn:Hr.
    { cbn [MatchResult.score MatchResult.breakdown].
      split; [reflexivity|]. intro H. exfalso. apply H. right.
      now apply Qeq_bool_iff. }
    cbn [MatchResult.score MatchResult.breakdown].
    cbn [ScoringBreakdown.set_semantic_similarity
           ScoringBreakdown.salary_match
           ScoringBreakdown.requirements_match] in *.
    apply Qeq_bool_neq in Hs, Hr.
    assert (Bloc := _score_location_bounds job candidate).
    assert (Breq := _score_requirements_unit job candidate).
    assert (Badv := _score_advantages_unit job candidate).
    assert (Blang := _score_languages_unit job candidate).
    rewrite Hloc, Hsal, Hreq, Hadv, Hlang in Hvalue.
    rewrite Hsal in Hs. rewrite Hreq in Hr.
    unfold LOCATION_MAX, SALARY_MAX, REQUIREMENTS_MAX in *.
    set (loc := fst (_score_location job candidate)) in *.
    set (sal := fst (_score_salary E job candidate)) in *.
    set (req := fst (_score_requirements job candidate)) in *.
    set (adv := fst (_score_advantages job candidate)) in *.
    set (lang := fst (_score_languages job candidate)) in *.
    assert (Bsal : 0.5 <= sal <= 1).
    { destruct (_score_salary_values E job candidate) as [H|[H|H]];
        fold sal in H; rewrite H in *.
      - exfalso. apply Hs. reflexivity.
      - split; discriminate.
      - split; discriminate. }
    set (total := (loc * 1.0 + sal * 1.0 + req * 1.0) / 3.0
                  + (adv + lang) * 0.1) in *.
    assert (Htotal : total == (loc + sal + req) * (1 # 3)
                              + (adv + lang) * (1 # 10)).
    { subst total. field. }
    assert (Brule : 4 # 15 <= rule <= 1).
    { rewrite Hvalue.
      destruct (py_min_spec 1.0 total) as [[H1 E1]|[H1 E1]];
        destruct (py_max_spec 0.0 (py_min 1.0 total)) as [[H2 E2]|[H2 E2]];
        rewrite E2; rewrite ?E1 in *; lra. }
    split.
    + intros [H|H]; exfalso.
      * apply Hs. rewrite <- Hsal. exact H.
      * apply Hr. rewrite <- Hreq. exact H.
    + intros _.
      set (x := (SEMANTIC_WEIGHT * sem + RULE_WEIGHT * rule) * 100).
      assert (Hx : inject_Z 1066 <= x * 100 /\ x * 100 <= inject_Z 10000).
      { subst x. unfold SEMANTIC_WEIGHT, RULE_WEIGHT, inject_Z. lra. }
      destruct (round_half_even_bounds (x * 100) 1066 10000
                  (proj1 Hx) (proj2 Hx)) as [Hk _].
      unfold round2. rewrite Zle_Qle in Hk. unfold inject_Z in Hk at 1.
      apply Qle_shift_div_l; [reflexivity|].
      eapply Qle_trans; [|exact Hk]. discriminate.
Qed.

(** X6 on the python job: the python developer is kept with a score of at
    least 10.66, the candidate who expects 9000 gets 0. *)
Lemma zero_score_means_rejected_witness :
  (exists m st',
      _calculate_match Sample.env Sample.python_job Sample.python_dev
        Sample.service = (Ok m, st') /\
      10.66 <= MatchResult.score m) /\
  (exists m st',
      _calculate_match Sample.env Sample.python_job Sample.expensive_dev
        Sample.service = (Ok m, st') /\
      MatchResult.score m == 0).
Proof.
  split.
  - destruct (zero_score_means_rejected Sample.env Sample.python_job
                Sample.python_dev Sample.service)
      as (m & st' & Hrun & _ & Hkept).
    exists m, st'. split; [exact Hrun|]. apply Hkept.
    assert (Hm : exists m0 st0,
               _calculate_match Sample.env Sample.python_job
                 Sample.python_dev Sample.service = (Ok m0, st0) /\
               ~ rejected_or_failed m0).
    { eexists. eexists. split; [vm_compute; reflexivity|].
      unfold rejected_or_failed. cbn [MatchResult.breakdown].
      intros [H|H]; revert H; discriminate. }
    destruct Hm as (m0 & st0 & Hrun0 & Hnot).
    rewrite Hrun in Hrun0. injection Hrun0 as <- <-. exact Hnot.
  - destruct (zero_score_means_rejected Sample.env Sample.python_job
                Sample.expensive_dev Sample.service)
      as (m & st' & Hrun & Hzero & _).
    exists m, st'. split; [exact Hrun|]. apply Hzero.
    assert (Hm : exists m0 st0,
               _calculate_match Sample.env Sample.python_job
                 Sample.expensive_dev Sample.service = (Ok m0, st0) /\
               rejected_or_failed m0).
    { eexists. eexists. split; [vm_compute; reflexivity|].
      unfold rejected_or_failed. cbn [MatchResult.breakdown].
      left. reflexivity. }
    destruct Hm as (m0 & st0 & Hrun0 & Hrej).
    rewrite Hrun in Hrun0. injection Hrun0 as <- <-. exact Hrej.
Defined.



(* ------------------------------------------------------------------ *)
(** ** More on the ranker *)

Section SortAndFilter.

Context {A : Type} (key : A -> Q).

Lemma insert_reverse_front (x : A) (l : list A) :
  Forall (fun z => key z <= key x) l -> insert_reverse key x l = x :: l.
Proof.
  destruct l as [|z l]; [reflexivity|].
  intro H. apply Forall_inv in H. cbn [insert_reverse].
  destruct (Qltb (key x) (key z)) eqn:Hc; [|reflexivity].
  apply Qltb_lt in Hc. exfalso. exact (Qlt_not_le _ _ Hc H).
Qed.

Lemma filter_insert_reverse (p : A -> bool) (x : A) (l : list A) :
  descending key l ->
  filter p (insert_reverse key x l)
  = if p x then insert_reverse key x (filter p l) else filter p l.
Proof.
  unfold descending. induction 1 as [|y l Hl IH Hy].
  - simpl. now destruct (p x).
  - cbn [insert_reverse].
    destruct (Qltb (key x) (key y)) eqn:Hc.
    + cbn [filter]. rewrite IH.
      destruct (p x), (p y); try reflexivity.
      cbn [insert_reverse]. now rewrite Hc.
    + apply Qltb_ge in Hc. cbn [filter].
      destruct (p x) eqn:Hx; [|reflexivity].
      destruct (p y) eqn:Hpy.
      * cbn [insert_reverse].
        destruct (Qltb (key x) (key y)) eqn:Hc'; [|reflexivity].
        apply Qltb_lt in Hc'. exfalso. exact (Qlt_not_le _ _ Hc' Hc).
      * symmetry. apply insert_reverse_front.
        apply Forall_forall. intros z Hz. apply filter_In in Hz.
        rewrite Forall_forall in Hy.
        apply Qle_trans with (key y); [apply Hy; tauto | exact Hc].
Qed.

(** Sorting and then dropping entries is dropping them and then sorting. *)
Lemma filter_sort_reverse (p : A -> bool) (l : list A) :
  filter p (sort_reverse key l) = sort_reverse key (filter p l).
Proof.
  induction l as [|x l IH]; [reflexivity|].
  cbn [sort_reverse fold_right]. fold (sort_reverse key l).
  rewrite filter_insert_reverse by apply sort_reverse_descending.
  cbn [filter]. destruct (p x); [|exact IH].
  cbn [sort_reverse fold_right]. fold (sort_reverse key (filter p l)).
  now rewrite IH.
Qed.

(** The first element of a descending list has the highest score. *)
Lemma descending_head (x : A) (l : list A) :
  descending key (x :: l) -> Forall (fun z => key z <= key x) l.
Proof.
  unfold descending. intro H. now apply StronglySorted_inv in H.
Qed.

End SortAndFilter.

Lemma _calculate_match_score_range (E : Env) (job : JobDB.t)
  (candidate : CandidateDB.t) (st : Service) :
  exists m st',
    _calculate_match E job candidate st = (Ok m, st') /\
    0 <= MatchResult.score m <= 100.
Proof.
  destruct (_calculate_match_cases E job candidate st)
    as (sem & st' & _ & Hsem & [(s & msg & _ & _ & Hrun)
        |(rule & b & reasons & _ & _ & Hrule & _ & _ & Hrun)]).
  - exists (error_result job candidate msg), st'.
    split; [exact Hrun | split; discriminate].
  - exists (assembled job candidate sem rule b reasons), st'.
    split; [exact Hrun|].
    unfold assembled. cbv zeta.
    destruct (Qeq_bool _ 0.0); [split; discriminate|].
    destruct (Qeq_bool _ 0.0); [split; discriminate|].
    cbn [MatchResult.score]. apply round2_percentage.
    unfold SEMANTIC_WEIGHT, RULE_WEIGHT. lra.
Qed.

Lemma evaluate_candidates_scores (E : Env) (job : JobDB.t)
  (candidates : list CandidateDB.t) :
  forall st ms st',
    evaluate_candidates E job candidates st = (Ok ms, st') ->
    Forall (fun m => 0 <= MatchResult.score m <= 100) ms.
Proof.
  induction candidates as [|c cs IH]; intros st ms st' H.
  - injection H as <- _. constructor.
  - cbn [evaluate_candidates] in H. unfold bind in H.
    destruct (_calculate_match_score_range E job c st)
      as (m & s1 & Hm & Hrange).
    rewrite Hm in H.
    destruct (evaluate_candidates E job cs s1) as [[ms0|e] s2] eqn:Hrest;
      [|discriminate].
    injection H as <- _. constructor; [exact Hrange|].
    exact (IH _ _ _ Hrest).
Qed.

Lemma evaluate_jobs_scores (E : Env) (candidate : CandidateDB.t)
  (jobs : list JobDB.t) :
  forall st ms st',
    evaluate_jobs E candidate jobs st = (Ok ms, st') ->
    Forall (fun m => 0 <= MatchResult.score m <= 100) ms.
Proof.
  induction jobs as [|j js IH]; intros st ms st' H.
  - injection H as <- _. constructor.
  - cbn [evaluate_jobs] in H. unfold bind in H.
    destruct (_calculate_match_score_range E j candidate st)
      as (m & s1 & Hm & Hrange).
    rewrite Hm in H.
    destruct (evaluate_jobs E candidate js s1) as [[ms0|e] s2] eqn:Hrest;
      [|discriminate].
    injection H as <- _. constructor; [exact Hrange|].
    exact (IH _ _ _ Hrest).
Qed.

(** What the two ranking operations return, in one expression. *)
Lemma rank_candidates_closed_form (E : Env) (job : JobDB.t)
  (candidates : list CandidateDB.t) (min_score : Q) (st : Service) :
  exists ms st',
    evaluate_candidates E job candidates st = (Ok ms, st') /\
    List.length ms = List.length candidates /\
    rank_candidates_for_job E job candidates min_score st
    = (Ok (sort_reverse CandidateEntry.score
             (map CandidateEntry.of_match (kept min_score ms))), st').
Proof.
  destruct (rank_candidates_loop_spec E job min_score candidates [] st)
    as (ms & st' & Hev & Hlen & Hloop).
  exists ms, st'. split; [exact Hev|]. split; [exact Hlen|].
  unfold rank_candidates_for_job, bind. now rewrite Hloop.
Qed.

Lemma rank_jobs_closed_form (E : Env) (candidate : CandidateDB.t)
  (jobs : list JobDB.t) (min_score : Q) (st : Service) :
  exists ms st',
    evaluate_jobs E candidate jobs st = (Ok ms, st') /\
    List.length ms = List.length jobs /\
    rank_jobs_for_candidate E candidate jobs min_score st
    = (Ok (sort_reverse JobEntry.score
             (map JobEntry.of_match (kept min_score ms))), st').
Proof.
  destruct (rank_jobs_loop_spec E candidate min_score jobs [] st)
    as (ms & st' & Hev & Hlen & Hloop).
  exists ms, st'. split; [exact Hev|]. split; [exact Hlen|].
  unfold rank_jobs_for_candidate, bind. now rewrite Hloop.
Qed.

Lemma kept_all (min_score : Q) (ms : list MatchResult.t) :
  min_score <= 0 ->
  Forall (fun m => 0 <= MatchResult.score m <= 100) ms ->
  kept min_score ms = ms.
Proof.
  intros Hmin Hall. unfold kept.
  induction Hall as [|m ms [H0 _] _ IH]; [reflexivity|].
  cbn [filter].
  destruct (Qltb (MatchResult.score m) min_score) eqn:Hc.
  - apply Qltb_lt in Hc. exfalso. lra.
  - cbn [negb]. now rewrite IH.
Qed.

Lemma kept_raise (lo hi : Q) (ms : list MatchResult.t) :
  lo <= hi ->
  kept hi ms
  = filter (fun m => negb (Qltb (MatchResult.score m) hi)) (kept lo ms).
Proof.
  intro Hle. unfold kept.
  induction ms as [|m ms IH]; [reflexivity|].
  cbn [filter].
  destruct (Qltb (MatchResult.score m) hi) eqn:Hhi;
    destruct (Qltb (MatchResult.score m) lo) eqn:Hlo; cbn [negb filter];
    rewrite ?Hhi; cbn [negb]; try (now rewrite IH).
  apply Qltb_lt in Hlo. apply Qltb_ge in Hhi. exfalso. lra.
Qed.

Lemma map_filter_score {A B} (f : A -> B) (p : B -> bool) (l : list A) :
  map f (filter (fun a => p (f a)) l) = filter p (map f l).
Proof.
  induction l as [|a l IH]; [reflexivity|].
  simpl. destruct (p (f a)); simpl; now rewrite IH.
Qed.

(** X8. With a threshold of 0 or less nothing is filtered: each ranking
    operation returns one entry for every counterpart it was given, error
    results and hard rejects included. *)
Theorem ranking_without_threshold_keeps_everyone (E : Env) (job : JobDB.t)
  (candidate : CandidateDB.t) (candidates : list CandidateDB.t)
  (jobs : list JobDB.t) (min_score : Q) (st : Service) :
  min_score <= 0 ->
  (exists out st',
      rank_candidates_for_job E job candidates min_score st = (Ok out, st') /\
      List.length out = List.length candidates) /\
  (exists out st',
      rank_jobs_for_candidate E candidate jobs min_score st = (Ok out, st') /\
      List.length out = List.length jobs).
Proof.
  intro Hmin. split.
  - destruct (rank_candidates_closed_form E job candidates min_score st)
      as (ms & st' & Hev & Hlen & Hrank).
    eexists. exists st'. split; [exact Hrank|].
    rewrite (Permutation_length (sort_reverse_perm _ _)).
    rewrite (kept_all min_score ms Hmin
               (evaluate_candidates_scores E job candidates st ms st' Hev)).
    now rewrite length_map.
  - destruct (rank_jobs_closed_form E candidate jobs min_score st)
      as (ms & st' & Hev & Hlen & Hrank).
    eexists. exists st'. split; [exact Hrank|].
    rewrite (Permutation_length (sort_reverse_perm _ _)).
    rewrite (kept_all min_score ms Hmin
               (evaluate_jobs_scores E candidate jobs st ms st' Hev)).
    now rewrite length_map.
Qed.

(** X8 on the python job and four candidates, two of them hard
    rejects. *)
Lemma ranking_without_threshold_keeps_everyone_witness :
  exists out st',
    rank_candidates_for_job Sample.env Sample.python_job
      [Sample.expensive_dev; Sample.python_dev; Sample.cook; Sample.cheap_dev]
      0 Sample.service = (Ok out, st') /\
    List.length out = 4%nat.
Proof.
  apply (proj1 (ranking_without_threshold_keeps_everyone Sample.env
                  Sample.python_job Sample.cook
                  [Sample.expensive_dev; Sample.python_dev; Sample.cook;
                   Sample.cheap_dev] [] 0 Sample.service
                  (Qle_refl 0))).
Defined.

(** X9. Every entry of a ranking has a score between the threshold and
    100, and no entry scores more than the first one: the head of the list
    is the best match. *)
Theorem ranking_head_is_best (E : Env) (job : JobDB.t)
  (candidate : CandidateDB.t) (candidates : list CandidateDB.t)
  (jobs : list JobDB.t) (min_score : Q) (st : Service) :
  (exists out st',
      rank_candidates_for_job E job candidates min_score st = (Ok out, st') /\
      Forall (fun e => min_score <= CandidateEntry.score e /\
                       0 <= CandidateEntry.score e <= 100) out /\
      Forall (fun e => CandidateEntry.score e
                       <= CandidateEntry.score (hd e out)) out) /\
  (exists out st',
      rank_jobs_for_candidate E candidate jobs min_score st = (Ok out, st') /\
      Forall (fun e => min_score <= JobEntry.score e /\
                       0 <= JobEntry.score e <= 100) out /\
      Forall (fun e => JobEntry.score e <= JobEntry.score (hd e out)) out).
Proof.
  split.
  - destruct (rank_candidates_closed_form E job candidates min_score st)
      as (ms & st' & Hev & _ & Hrank).
    eexists. exists st'. split; [exact Hrank|]. split.
    + apply Forall_forall. intros e He.
      apply (Permutation_in _ (sort_reverse_perm _ _)) in He.
      apply in_map_iff in He. destruct He as (m & <- & Hm).
      unfold kept in Hm. apply filter_In in Hm. destruct Hm as [Hm Hkeep].
      apply negb_true_iff, Qltb_ge in Hkeep.
      assert (Hall := evaluate_candidates_scores E job candidates st ms st'
                        Hev).
      rewrite Forall_forall in Hall. split; [exact Hkeep | now apply Hall].
    + assert (Hd := sort_reverse_descending CandidateEntry.score
                      (map CandidateEntry.of_match (kept min_score ms))).
      destruct (sort_reverse CandidateEntry.score _) as [|top rest];
        [constructor|].
      cbn [hd]. constructor; [apply Qle_refl|].
      now apply (descending_head CandidateEntry.score).
  - destruct (rank_jobs_closed_form E candidate jobs min_score st)
      as (ms & st' & Hev & _ & Hrank).
    eexists. exists st'. split; [exact Hrank|]. split.
    + apply Forall_forall. intros e He.
      apply (Permutation_in _ (sort_reverse_perm _ _)) in He.
      apply in_map_iff in He. destruct He as (m & <- & Hm).
      unfold kept in Hm. apply filter_In in Hm. destruct Hm as [Hm Hkeep].
      apply negb_true_iff, Qltb_ge in Hkeep.
      assert (Hall := evaluate_jobs_scores E candidate jobs st ms st' Hev).
      rewrite Forall_forall in Hall. split; [exact Hkeep | now apply Hall].
    + assert (Hd := sort_reverse_descending JobEntry.score
                      (map JobEntry.of_match (kept min_score ms))).
      destruct (sort_reverse JobEntry.score _) as [|top rest];
        [constructor|].
      cbn [hd]. constructor; [apply Qle_refl|].
      now apply (descending_head JobEntry.score).
Qed.

(** X10. Raising the threshold only removes entries: the ranking at a
    higher threshold is the ranking at a lower one without the entries that
    fall below the higher threshold, in the same order, and the service is
    left in the same state. *)
Theorem raising_threshold_drops_entries (E : Env) (job : JobDB.t)
  (candidate : CandidateDB.t) (candidates : list CandidateDB.t)
  (jobs : list JobDB.t) (lo hi : Q) (st : Service) :
  lo <= hi ->
  (exists out st',
      rank_candidates_for_job E job candidates lo st = (Ok out, st') /\
      rank_candidates_for_job E job candidates hi st
      = (Ok (filter (fun e => negb (Qltb (CandidateEntry.score e) hi)) out),
         st')) /\
  (exists out st',
      rank_jobs_for_candidate E candidate jobs lo st = (Ok out, st') /\
      rank_jobs_for_candidate E candidate jobs hi st
      = (Ok (filter (fun e => negb (Qltb (JobEntry.score e) hi)) out), st')).
Proof.
  intro Hle. split.
  - destruct (rank_candidates_closed_form E job candidates lo st)
      as (ms & st' & Hev & _ & Hlo).
    destruct (rank_candidates_closed_form E job candidates hi st)
      as (ms' & st'' & Hev' & _ & Hhi).
    rewrite Hev in Hev'. injection Hev' as <- <-.
    eexists. exists st'. split; [exact Hlo|].
    rewrite Hhi. f_equal. f_equal.
    rewrite filter_sort_reverse.
    rewrite <- (map_filter_score CandidateEntry.of_match
                  (fun e => negb (Qltb (CandidateEntry.score e) hi))).
    now rewrite (kept_raise lo hi ms Hle).
  - destruct (rank_jobs_closed_form E candidate jobs lo st)
      as (ms & st' & Hev & _ & Hlo).
    destruct (rank_jobs_closed_form E candidate jobs hi st)
      as (ms' & st'' & Hev' & _ & Hhi).
    rewrite Hev in Hev'. injection Hev' as <- <-.
    eexists. exists st'. split; [exact Hlo|].
    rewrite Hhi. f_equal. f_equal.
    rewrite filter_sort_reverse.
    rewrite <- (map_filter_score JobEntry.of_match
                  (fun e => negb (Qltb (JobEntry.score e) hi))).
    now rewrite (kept_raise lo hi ms Hle).
Qed.

(** X10 on the python job: at threshold 40 only the python developer is
    left of the four candidates ranked at threshold 0. *)
Lemma raising_threshold_drops_entries_witness :
  exists out st',
    rank_candidates_for_job Sample.env Sample.python_job
      [Sample.expensive_dev; Sample.python_dev; Sample.cook; Sample.cheap_dev]
      0 Sample.service = (Ok out, st') /\
    rank_candidates_for_job Sample.env Sample.python_job
      [Sample.expensive_dev; Sample.python_dev; Sample.cook; Sample.cheap_dev]
      40 Sample.service
    = (Ok (filter (fun e => negb (Qltb (CandidateEntry.score e) 40)) out),
       st').
Proof.
  assert (Hle : 0 <= 40) by discriminate.
  apply (proj1 (raising_threshold_drops_entries Sample.env Sample.python_job
                  Sample.cook
                  [Sample.expensive_dev; Sample.python_dev; Sample.cook;
                   Sample.cheap_dev] [] 0 40 Sample.service Hle)).
Defined.

(* ------------------------------------------------------------------ *)
(** ** When the embedding model fails *)

(** A lookup that misses and whose encoding fails raises what the model
    raised; nothing is stored and the clock is not read. *)
Lemma _get_embedding_failure (E : Env) (text : string) (st : Service)
  (msg : string) :
  expiry_of E st text = None ->
  encode E text = Raise msg ->
  _get_embedding E text st
  = (Raise msg,
     {| _embedding_cache := _embedding_cache st;
        clock_reads := clock_reads st;
        encode_calls := text :: encode_calls st |}).
Proof.
  intros Hmiss Hencode.
  unfold expiry_of in Hmiss.
  unfold _get_embedding, cache_contains, bind, get_cache, ret, try_except,
    model_encode.
  destruct (TTLCache.find (_get_text_hash E text)
              (TTLCache.entries (_embedding_cache st))) as [[v e]|];
    [discriminate|].
  now rewrite Hencode.
Qed.

(** X11. When the text of the job is not in the cache and the model fails
    to encode it, the failure stays inside the semantic scorer: the semantic
    score is 0.0, the cache is as before, and [_calculate_match] still
    returns a result, with a semantic score of 0 and a final score of at
    most 40, the share of the rule score. *)
Theorem model_failure_degrades_to_rules (E : Env) (job : JobDB.t)
  (candidate : CandidateDB.t) (st : Service) (msg : string) :
  expiry_of E st (_build_job_text job) = None ->
  encode E (_build_job_text job) = Raise msg ->
  exists m st',
    _calculate_semantic_score E job candidate st = (Ok 0.0, st') /\
    _embedding_cache st' = _embedding_cache st /\
    _calculate_match E job candidate st = (Ok m, st') /\
    MatchResult.semantic_score m == 0 /\
    0 <= MatchResult.score m <= 40.
Proof.
  intros Hmiss Hencode.
  assert (Hsem0 : _calculate_semantic_score E job candidate st
                  = (Ok 0.0,
                     {| _embedding_cache := _embedding_cache st;
                        clock_reads := clock_reads st;
                        encode_calls :=
                          _build_job_text job :: encode_calls st |})).
  { unfold _calculate_semantic_score, try_except, bind.
    now rewrite (_get_embedding_failure E _ st msg Hmiss Hencode). }
  destruct (_calculate_match_cases E job candidate st)
    as (sem & st' & Hsem & _ & [(s & msg' & _ & _ & Hrun)
        |(rule & b & reasons & _ & _ & Hrule & _ & _ & Hrun)]);
    rewrite Hsem0 in Hsem; injection Hsem as <- <-.
  - eexists. eexists. split; [exact Hsem0|]. split; [reflexivity|].
    split; [exact Hrun|]. split; [reflexivity | split; discriminate].
  - eexists. eexists. split; [exact Hsem0|]. split; [reflexivity|].
    split; [exact Hrun|].
    unfold assembled. cbv zeta.
    destruct (Qeq_bool _ 0.0); [split; [reflexivity | split; discriminate]|].
    destruct (Qeq_bool _ 0.0); [split; [reflexivity | split; discriminate]|].
    cbn [MatchResult.score MatchResult.semantic_score].
    split; [reflexivity|].
    set (x := (SEMANTIC_WEIGHT * 0.0 + RULE_WEIGHT * rule) * 100).
    assert (Hx : inject_Z 0 <= x * 100 /\ x * 100 <= inject_Z 4000).
    { subst x. unfold SEMANTIC_WEIGHT, RULE_WEIGHT, inject_Z. lra. }
    destruct (round_half_even_bounds (x * 100) 0 4000 (proj1 Hx) (proj2 Hx))
      as [Hlo Hhi].
    unfold round2. rewrite Zle_Qle in Hlo, Hhi.
    unfold inject_Z in Hlo at 1. unfold inject_Z in Hhi at 2.
    split.
    + apply Qle_shift_div_l; [reflexivity|].
      eapply Qle_trans; [|exact Hlo]. discriminate.
    + apply Qle_shift_div_r; [reflexivity|].
      eapply Qle_trans; [exact Hhi|]. discriminate.
Qed.

(** X11 with a model that cannot encode anything: the python developer
    still gets a result for the python job. *)
Lemma model_failure_degrades_to_rules_witness :
  exists m st',
    _calculate_match Sample.offline_env Sample.python_job Sample.python_dev
      Sample.service = (Ok m, st') /\
    MatchResult.semantic_score m == 0 /\
    0 <= MatchResult.score m <= 40.
Proof.
  destruct (model_failure_degrades_to_rules Sample.offline_env
              Sample.python_job Sample.python_dev Sample.service
              "model not available" eq_refl eq_refl)
    as (m & st' & _ & _ & Hrun & Hsem & Hscore).
  exists m, st'. repeat split; try assumption; apply Hscore.
Defined.

(* ------------------------------------------------------------------ *)
(** ** The recommendation service *)

Lemma to_set_nil (xs : list string) : PyStr.to_set xs = [] <-> xs = [].
Proof.
  destruct xs; simpl; split; congruence.
Qed.

(** The three strict filters, as the function tests them. *)
Lemma too_expensive_test (job : JobDB.t) (candidate : CandidateDB.t) :
  match JobDB.salary_max job with
  | Some salary_max =>
      Qltb salary_max (CandidateDB.salary_expectation candidate)
  | None => false
  end = true <-> too_expensive job candidate.
Proof.
  unfold too_expensive.
  destruct (JobDB.salary_max job) as [hi|].
  - rewrite Qltb_lt. split.
    + intro H. now exists hi.
    + intros (hi' & [= <-] & H). exact H.
  - split; [discriminate | intros (hi & H & _); discriminate].
Qed.

Lemma no_common_language_test (job : JobDB.t) (candidate : CandidateDB.t) :
  let required_langs := PyStr.to_set (JobDB.required_languages job) in
  let candidate_langs := PyStr.to_set (CandidateDB.languages candidate) in
  (required_langs <> [] /\
   List.length (filter (fun l => PyStr.mem l candidate_langs) required_langs)
   = 0%nat)
  <-> no_common_language job candidate.
Proof.
  cbv zeta. unfold no_common_language.
  rewrite to_set_nil, length_zero_iff_nil, SetFacts.filter_nil_iff.
  split; intros [Hne H]; (split; [exact Hne|]).
  - intros lang Hin Hc.
    specialize (H lang). rewrite SetFacts.In_to_set in H.
    specialize (H Hin).
    assert (Hm : PyStr.mem lang (PyStr.to_set (CandidateDB.languages candidate))
                 = true).
    { apply SetFacts.mem_In. now rewrite SetFacts.In_to_set. }
    congruence.
  - intros lang Hin. rewrite SetFacts.In_to_set in Hin.
    destruct (PyStr.mem lang (PyStr.to_set (CandidateDB.languages candidate)))
      eqn:Hm; [|reflexivity].
    apply SetFacts.mem_In in Hm. rewrite SetFacts.In_to_set in Hm.
    exfalso. exact (H lang Hin Hm).
Qed.

Lemma misses_requirement_test (job : JobDB.t) (candidate : CandidateDB.t) :
  existsb
    (fun req =>
       negb (PyStr.contains (PyStr.lower req)
               (PyStr.lower
                  (PyStr.join " " (CandidateDB.experience candidate)))))
    (PyStr.to_set (JobDB.requirements job)) = true
  <-> misses_requirement job candidate.
Proof.
  unfold misses_requirement. rewrite existsb_exists. split.
  - intros (req & Hin & H). rewrite SetFacts.In_to_set in Hin.
    exists req. split; [exact Hin | now apply negb_true_iff].
  - intros (req & Hin & H). exists req.
    rewrite SetFacts.In_to_set. split; [exact Hin | now apply negb_true_iff].
Qed.

(** X12. [calculate_recommendation_score] returns [None] exactly when the
    candidate expects more than the job's maximum salary, or the job
    requires languages and the candidate's list has none of them as
    written, or a requirement of the job does not occur, case ignored, in
    the candidate's experience text. *)
Theorem recommendation_rejects_exactly (job : JobDB.t)
  (candidate : CandidateDB.t) :
  calculate_recommendation_score job candidate = None <->
  too_expensive job candidate \/
  no_common_language job candidate \/
  misses_requirement job candidate.
Proof.
  rewrite <- too_expensive_test, <- no_common_language_test,
    <- misses_requirement_test.
  unfold calculate_recommendation_score. cbv zeta.
  destruct (JobDB.salary_max job) as [hi|].
  - destruct (Qltb hi (CandidateDB.salary_expectation candidate));
      [split; [now left | reflexivity]|].
    destruct (PyStr.to_set (JobDB.required_languages job)) as [|l ls] eqn:Hl.
    + destruct (existsb _ _).
      * split; [now right; right | reflexivity].
      * split; [discriminate|].
        intros [H|[[H _]|H]]; congruence.
    + rewrite <- Hl.
      destruct (Nat.eqb _ 0) eqn:Hz.
      * apply Nat.eqb_eq in Hz.
        split; [intros _; right; left; split; congruence | reflexivity].
      * apply Nat.eqb_neq in Hz.
        destruct (Nat.eqb _ _); destruct (existsb _ _);
          (split; [try discriminate; now right; right|]);
          try reflexivity;
          intros [H|[[_ H]|H]]; congruence.
  - destruct (PyStr.to_set (JobDB.required_languages job)) as [|l ls] eqn:Hl.
    + destruct (existsb _ _).
      * split; [now right; right | reflexivity].
      * split; [discriminate|].
        intros [H|[[H _]|H]]; congruence.
    + rewrite <- Hl.
      destruct (Nat.eqb _ 0) eqn:Hz.
      * apply Nat.eqb_eq in Hz.
        split; [intros _; right; left; split; congruence | reflexivity].
      * apply Nat.eqb_neq in Hz.
        destruct (Nat.eqb _ _); destruct (existsb _ _);
          (split; [try discriminate; now right; right|]);
          try reflexivity;
          intros [H|[[_ H]|H]]; congruence.
Qed.

(** X13. A recommendation that is returned carries the candidate, a rule
    score between 30 and 90, a semantic score between 0 and 40, and a final
    score that is their sum cut at 100, so between 30 and 100. *)
Theorem recommendation_score_range (job : JobDB.t)
  (candidate : CandidateDB.t) (r : Recommendation.t) :
  calculate_recommendation_score job candidate = Some r ->
  Recommendation.candidate r = candidate /\
  (30 <= Recommendation.rule_score r <= 90)%Z /\
  (0 <= Recommendation.semantic_score r <= 40)%Z /\
  Recommendation.score r
  = Z.min 100 (Recommendation.rule_score r
               + Recommendation.semantic_score r)%Z /\
  (30 <= Recommendation.score r <= 100)%Z.
Proof.
  unfold calculate_recommendation_score. cbv zeta.
  destruct (String.eqb _ _);
    (destruct (JobDB.salary_max job) as [hi|];
     [destruct (Qltb hi _); [discriminate|]|]);
    (destruct (PyStr.to_set (JobDB.required_languages job)) as [|l ls];
     [|destruct (Nat.eqb _ 0); [discriminate|]; destruct (Nat.eqb _ _)]);
    (destruct (existsb _ _); [discriminate|]);
    intro H; apply (f_equal (fun o => match o with Some x => x | None => r end))
      in H; subst r;
    cbv beta iota delta [Recommendation.candidate Recommendation.rule_score
                           Recommendation.semantic_score Recommendation.score];
    (split; [reflexivity|]); lia.
Qed.

(** X13 on the python job and the python developer. *)
Lemma recommendation_score_range_witness :
  exists r,
    calculate_recommendation_score Sample.python_job Sample.python_dev
    = Some r /\
    (30 <= Recommendation.score r <= 100)%Z.
Proof.
  eexists. split; [reflexivity|].
  apply (recommendation_score_range Sample.python_job Sample.python_dev).
  reflexivity.
Defined.

(** X14. A candidate the recommendation service accepts is not rejected
    for requirements by the matching service: every requirement found in the
    experience text is found in the text of experience and skills, so the
    requirements score is 1.0. *)
Theorem recommended_meets_requirements (job : JobDB.t)
  (candidate : CandidateDB.t) (r : Recommendation.t) :
  calculate_recommendation_score job candidate = Some r ->
  fst (_score_requirements job candidate) == 1.0.
Proof.
  intro Hsome.
  assert (Hnot : ~ misses_requirement job candidate).
  { intro H. apply misses_requirement_test in H.
    revert Hsome. unfold calculate_recommendation_score. cbv zeta.
    rewrite H.
    destruct (JobDB.salary_max job) as [hi|];
      [destruct (Qltb hi _); [discriminate|]|];
      (destruct (PyStr.to_set (JobDB.required_languages job)) as [|l ls];
       [|destruct (Nat.eqb _ 0); [discriminate|]; destruct (Nat.eqb _ _)]);
      discriminate. }
  destruct (JobDB.requirements job) as [|q qs] eqn:Hreq.
  - unfold _score_requirements. rewrite Hreq. reflexivity.
  - assert (Hne : JobDB.requirements job <> []) by congruence.
    rewrite (requirements_score_ratio job candidate Hne).
    assert (H1 : 1.0 == 1) by reflexivity. rewrite H1.
    apply div_len_one; [rewrite Hreq; simpl; lia|].
    apply SetFacts.filter_all_iff.
    intros req Hin.
    destruct (PyStr.contains (PyStr.lower req)
                (PyStr.lower
                   (PyStr.join " " (CandidateDB.experience candidate))))
      eqn:Hc.
    + unfold combined_text. now apply PyStrFacts.contains_append_l.
    + exfalso. apply Hnot. now exists req.
Qed.

(** X12 on the python job: the candidate who expects 9000 is turned
    down. *)
Lemma recommendation_rejects_exactly_witness :
  calculate_recommendation_score Sample.python_job Sample.expensive_dev
  = None.
Proof.
  apply (proj2 (recommendation_rejects_exactly Sample.python_job
                  Sample.expensive_dev)).
  left. exists 8000. split; [reflexivity|]. reflexivity.
Defined.

(** X14 on the python job and the python developer. *)
Lemma recommended_meets_requirements_witness :
  fst (_score_requirements Sample.python_job Sample.python_dev) == 1.0.
Proof.
  apply (recommended_meets_requirements Sample.python_job Sample.python_dev
           (Recommendation.mk Sample.python_dev 72 70 2)).
  reflexivity.
Defined.

(* ------------------------------------------------------------------ *)
(** ** The endpoints *)

Lemma recommend_loop (job : JobDB.t) (candidates : list CandidateDB.t) :
  forall results,
    fold_left
      (fun results candidate =>
         match calculate_recommendation_score job candidate with
         | Some match_ => append results match_
         | None => results
         end)
      candidates results
    = (results ++ recommendations job candidates)%list.
Proof.
  induction candidates as [|c cs IH]; intro results.
  - simpl. now rewrite app_nil_r.
  - cbn [fold_left recommendations flat_map]. rewrite IH.
    fold (recommendations job cs).
    destruct (calculate_recommendation_score job c).
    + unfold append. now rewrite <- app_assoc.
    + reflexivity.
Qed.

(** X15. [recommend_for_job] answers 404 when the job is not found.
    Otherwise it returns the recommendations of the candidates that pass the
    strict filters, and only those: from the highest score to the lowest,
    equal scores in the order of the candidates, every score between 30 and
    100. *)
Theorem recommend_for_job_ranks_accepted (job : option JobDB.t)
  (candidates : list CandidateDB.t) :
  match job with
  | None => recommend_for_job job candidates
            = HTTPException 404 "Job not found"
  | Some j =>
      exists out,
        recommend_for_job job candidates = Response out /\
        Permutation out (recommendations j candidates) /\
        descending (fun r => inject_Z (Recommendation.score r)) out /\
        keeps_order_of_ties (fun r => inject_Z (Recommendation.score r))
          (recommendations j candidates) out /\
        Forall (fun r => (30 <= Recommendation.score r <= 100)%Z /\
                         In (Recommendation.candidate r) candidates) out
  end.
Proof.
  destruct job as [j|]; [|reflexivity].
  eexists. split.
  - unfold recommend_for_job. rewrite recommend_loop. reflexivity.
  - cbn [app]. split; [apply sort_reverse_perm|].
    split; [apply sort_reverse_descending|].
    split; [apply sort_reverse_ties|].
    apply Forall_forall. intros r Hr.
    apply (Permutation_in _ (sort_reverse_perm _ _)) in Hr.
    unfold recommendations in Hr. apply in_flat_map in Hr.
    destruct Hr as (c & Hc & Hr).
    destruct (calculate_recommendation_score j c) as [r'|] eqn:Hcalc;
      [|destruct Hr].
    destruct Hr as [<-|[]].
    unfold calculate_recommendation_score in Hcalc. cbv zeta in Hcalc.
    revert Hcalc.
    destruct (String.eqb _ _);
      (destruct (JobDB.salary_max j) as [hi|];
       [destruct (Qltb hi _); [discriminate|]|]);
      (destruct (PyStr.to_set (JobDB.required_languages j)) as [|l ls];
       [|destruct (Nat.eqb _ 0); [discriminate|]; destruct (Nat.eqb _ _)]);
      (destruct (existsb _ _); [discriminate|]);
      intro H;
      apply (f_equal (fun o => match o with Some x => x | None => r' end))
        in H; subst r';
      cbv beta iota delta [Recommendation.candidate Recommendation.score];
      (split; [lia | exact Hc]).
Qed.

Lemma rank_jobs_raise (E : Env) (candidate : CandidateDB.t)
  (jobs : list JobDB.t) (lo hi : Q) (st : Service) :
  lo <= hi ->
  exists out st',
    rank_jobs_for_candidate E candidate jobs lo st = (Ok out, st') /\
    rank_jobs_for_candidate E candidate jobs hi st
    = (Ok (filter (fun e => negb (Qltb (JobEntry.score e) hi)) out), st').
Proof.
  intro Hle.
  destruct (rank_jobs_closed_form E candidate jobs lo st)
    as (ms & st' & Hev & _ & Hlo).
  destruct (rank_jobs_closed_form E candidate jobs hi st)
    as (ms' & st'' & Hev' & _ & Hhi).
  rewrite Hev in Hev'. injection Hev' as <- <-.
  eexists. exists st'. split; [exact Hlo|].
  rewrite Hhi. f_equal. f_equal.
  rewrite filter_sort_reverse.
  rewrite <- (map_filter_score JobEntry.of_match
                (fun e => negb (Qltb (JobEntry.score e) hi))).
  now rewrite (kept_raise lo hi ms Hle).
Qed.

(** X16. [recommended_jobs_for_candidate] answers 404 when the candidate
    is not found.  Otherwise its ranking without threshold followed by the
    cut at 40 gives what a ranking with threshold 40 on a fresh service
    gives: the same jobs with the same scores in the same order. *)
Theorem recommended_jobs_is_ranking_at_40 (E : Env) (settings : Settings)
  (candidate : option CandidateDB.t) (jobs : list JobDB.t) :
  match candidate with
  | None => recommended_jobs_for_candidate E settings candidate jobs
            = HTTPException 404 "Candidate not found"
  | Some c =>
      exists out st',
        rank_jobs_for_candidate E c jobs 40 (__init__ settings)
        = (Ok out, st') /\
        recommended_jobs_for_candidate E settings candidate jobs
        = Response (map RecommendedJob.of_entry out)
  end.
Proof.
  destruct candidate as [c|]; [|reflexivity].
  assert (Hle : 0.0 <= 40) by discriminate.
  destruct (rank_jobs_raise E c jobs 0.0 40 (__init__ settings) Hle)
    as (out & st' & Hlo & Hhi).
  eexists. exists st'. split; [exact Hhi|].
  unfold recommended_jobs_for_candidate. rewrite Hlo.
  f_equal. f_equal. apply filter_ext. intro e.
  unfold Qltb. now rewrite negb_involutive.
Qed.

(** X17. A request whose filters are all absent or empty (no location or
    the empty one, no salary bound or 0, no skills or the empty list) keeps
    every job, in the order of the collection. *)
Theorem inactive_filters_keep_every_job (filters : MatchFilters.t)
  (all_jobs : list JobDB.t) :
  no_filter filters ->
  filtered_jobs filters all_jobs = all_jobs.
Proof.
  intros (Hloc & Hmin & Hmax & Hskills).
  unfold filtered_jobs.
  assert (Hpass : forall job, passes_filters filters job = true).
  { intro job. unfold passes_filters.
    destruct Hloc as [-> | ->];
      destruct Hmin as [-> | (q1 & -> & H1)];
      destruct Hmax as [-> | (q2 & -> & H2)];
      destruct Hskills as [-> | ->];
      try (apply Qeq_bool_iff in H1; rewrite H1);
      try (apply Qeq_bool_iff in H2; rewrite H2);
      reflexivity. }
  induction all_jobs as [|j js IH]; [reflexivity|].
  cbn [filter]. now rewrite Hpass, IH.
Qed.

(** X17 on a request with an empty location, a minimum salary of 0 and an
    empty list of skills. *)
Lemma inactive_filters_keep_every_job_witness :
  filtered_jobs Sample.idle_filter
    [Sample.python_job; Sample.open_job; Sample.shift_job]
  = [Sample.python_job; Sample.open_job; Sample.shift_job].
Proof.
  apply (inactive_filters_keep_every_job Sample.idle_filter).
  split; [right; reflexivity|].
  split; [right; exists 0; split; reflexivity|].
  split; [left; reflexivity | right; reflexivity].
Defined.

(** X18. A job that passes an active salary filter states the bound the
    filter looks at: with a minimum salary asked for, the job has a maximum
    salary that is not below it; with a maximum salary asked for, the job has
    a minimum salary that is not above it.  Jobs without that bound are
    dropped. *)
Theorem salary_filter_needs_stated_bound (filters : MatchFilters.t)
  (all_jobs : list JobDB.t) (job : JobDB.t) :
  In job (filtered_jobs filters all_jobs) ->
  In job all_jobs /\
  (forall q, MatchFilters.min_salary filters = Some q -> ~ q == 0 ->
             exists hi, JobDB.salary_max job = Some hi /\ q <= hi) /\
  (forall q, MatchFilters.max_salary filters = Some q -> ~ q == 0 ->
             exists lo, JobDB.salary_min job = Some lo /\ lo <= q).
Proof.
  unfold filtered_jobs. rewrite filter_In. intros [Hin Hpass].
  split; [exact Hin|].
  unfold passes_filters in Hpass. cbv zeta in Hpass.
  repeat match type of Hpass with
         | (if ?b then false else _) = true =>
             let Hb := fresh "Hout" in
             destruct b eqn:Hb; [discriminate Hpass|]
         end.
  clear Hpass.
  assert (Hactive : forall q, ~ q == 0 -> Qeq_bool q 0 = false).
  { intros q Hnz. destruct (Qeq_bool q 0) eqn:Hb; [|reflexivity].
    apply Qeq_bool_iff in Hb. now elim Hnz. }
  split.
  - intros q Hq Hnz. rewrite Hq, (Hactive q Hnz) in Hout0.
    cbn [negb andb] in Hout0.
    destruct (JobDB.salary_max job) as [hi|]; [|discriminate].
    exists hi. split; [reflexivity | now apply Qltb_ge].
  - intros q Hq Hnz. rewrite Hq, (Hactive q Hnz) in Hout1.
    cbn [negb andb] in Hout1.
    destruct (JobDB.salary_min job) as [lo|]; [|discriminate].
    exists lo. split; [reflexivity | now apply Qltb_ge].
Qed.

(** X18 on a request for at least 6000: of the python job, which pays up
    to 8000, and the open job, which states no salary, the first is kept. *)
Lemma salary_filter_needs_stated_bound_witness :
  filtered_jobs Sample.salary_filter [Sample.python_job; Sample.open_job]
  = [Sample.python_job] /\
  exists hi, JobDB.salary_max Sample.python_job = Some hi /\ 6000 <= hi.
Proof.
  split; [reflexivity|].
  apply (proj1 (proj2 (salary_filter_needs_stated_bound Sample.salary_filter
                         [Sample.python_job; Sample.open_job]
                         Sample.python_job (or_introl eq_refl)))
           6000 eq_refl).
  discriminate.
Defined.

(** X19. [match_with_filters] answers 404, the service untouched, when
    the candidate is not found.  Otherwise it returns a summary: the number
    of jobs fetched, the number left by the filters, which is not greater,
    and the number of matches, which is not greater again; every match
    reaches the threshold; and when the filters leave no job the service is
    not used. *)
Theorem filtered_match_summary (E : Env) (candidate : option CandidateDB.t)
  (all_jobs : list JobDB.t) (filters : MatchFilters.t) (min_score : Q)
  (st : Service) :
  match candidate with
  | None =>
      match_with_filters E candidate all_jobs filters min_score st
      = (HTTPException 404 "Candidate not found", st)
  | Some _ =>
      exists r st',
        match_with_filters E candidate all_jobs filters min_score st
        = (Response r, st') /\
        FilteredMatches.total_jobs r = List.length all_jobs /\
        FilteredMatches.after_filters r
        = List.length (filtered_jobs filters all_jobs) /\
        (FilteredMatches.matches_found r
         <= FilteredMatches.after_filters r
         <= FilteredMatches.total_jobs r)%nat /\
        FilteredMatches.matches_found r
        = List.length (FilteredMatches.matches r) /\
        Forall (fun e => min_score <= JobEntry.score e)
               (FilteredMatches.matches r) /\
        (FilteredMatches.after_filters r = 0%nat -> st' = st)
  end.
Proof.
  destruct candidate as [c|]; [|reflexivity].
  unfold match_with_filters.
  assert (Hfl : (List.length (filtered_jobs filters all_jobs)
                 <= List.length all_jobs)%nat) by apply filter_length_le.
  destruct (filtered_jobs filters all_jobs) as [|j js] eqn:Hf.
  - eexists. eexists. split; [reflexivity|].
    cbn [FilteredMatches.total_jobs FilteredMatches.after_filters
           FilteredMatches.matches_found FilteredMatches.matches List.length].
    repeat split; try lia. constructor.
  - destruct (rank_jobs_closed_form E c (j :: js) min_score st)
      as (ms & st' & Hev & Hlen & Hrank).
    rewrite Hrank.
    eexists. eexists. split; [reflexivity|].
    cbn [FilteredMatches.total_jobs FilteredMatches.after_filters
           FilteredMatches.matches_found FilteredMatches.matches].
    assert (Hout : (List.length
                      (sort_reverse JobEntry.score
                         (map JobEntry.of_match (kept min_score ms)))
                    <= List.length (j :: js))%nat).
    { rewrite (Permutation_length (sort_reverse_perm _ _)), length_map,
        <- Hlen. apply filter_length_le. }
    split; [reflexivity|]. split; [reflexivity|].
    split; [split; [exact Hout | exact Hfl]|].
    split; [reflexivity|]. split.
    + apply Forall_forall. intros e He.
      apply (Permutation_in _ (sort_reverse_perm _ _)) in He.
      apply in_map_iff in He. destruct He as (m & <- & Hm).
      unfold kept in Hm. apply filter_In in Hm. destruct Hm as [_ Hkeep].
      now apply negb_true_iff, Qltb_ge in Hkeep.
    + simpl. discriminate.
Qed.

(** X19 on a request that asks for a language no job mentions: nothing is
    left to rank and the service is as before. *)
Lemma filtered_match_summary_witness :
  exists r,
    match_with_filters Sample.env (Some Sample.python_dev)
      [Sample.python_job; Sample.open_job]
      (MatchFilters.mk None None None (Some ["cobol"])) 40 Sample.service
    = (Response r, Sample.service) /\
    FilteredMatches.matches_found r = 0%nat.
Proof.
  destruct (filtered_match_summary Sample.env (Some Sample.python_dev)
              [Sample.python_job; Sample.open_job]
              (MatchFilters.mk None None None (Some ["cobol"])) 40
              Sample.service)
    as (r & st' & Hrun & _ & Hafter & [Hfound _] & _ & _ & Hidle).
  assert (H0 : FilteredMatches.after_filters r = 0%nat)
    by (rewrite Hafter; reflexivity).
  rewrite (Hidle H0) in Hrun.
  exists r. split; [exact Hrun | lia].
Defined.

(* ------------------------------------------------------------------ *)
(** ** The capacity of the embedding cache *)

Module CacheFacts.
Import TTLCache.

Lemma Permutation_filter {A} (f : A -> bool) (l l' : list A) :
  Permutation l l' -> Permutation (filter f l) (filter f l').
Proof.
  induction 1 as [|x l l' _ IH|x y l|l l' l'' _ IH1 _ IH2]; simpl.
  - constructor.
  - destruct (f x); [now constructor | exact IH].
  - destruct (f x), (f y); try reflexivity. apply perm_swap.
  - now transitivity (filter f l').
Qed.

Lemma remove_key_absent (k : string) (ks : list string) :
  ~ In k ks -> remove_key k ks = ks.
Proof.
  unfold remove_key. induction ks as [|x ks IH]; intro H; [reflexivity|].
  simpl. destruct (String.eqb k x) eqn:Hk.
  - apply String.eqb_eq in Hk. subst. elim H. now left.
  - simpl. rewrite IH; [reflexivity|]. intro Hin. apply H. now right.
Qed.

Lemma remove_key_not_in (k : string) (ks : list string) :
  ~ In k (remove_key k ks).
Proof.
  unfold remove_key. intro H. apply filter_In in H. destruct H as [_ H].
  now rewrite String.eqb_refl in H.
Qed.

Lemma map_fst_remove (k : string) (es : list (string * (Tensor * Q))) :
  map fst (remove k es) = remove_key k (map fst es).
Proof.
  unfold remove, remove_key.
  induction es as [|[k' x] es IH]; [reflexivity|].
  simpl. destruct (String.eqb k k'); simpl; now rewrite IH.
Qed.

(** Taking the key [k] out of both orders keeps them in step. *)
Lemma orders_without (k : string) (keys lru : list string) :
  NoDup lru -> Permutation keys lru ->
  NoDup (remove_key k lru) /\
  Permutation (remove_key k keys) (remove_key k lru).
Proof.
  intros Hnd Hperm. split.
  - now apply NoDup_filter.
  - now apply Permutation_filter.
Qed.

Lemma remove_length (k : string) (es : list (string * (Tensor * Q))) :
  (List.length (remove k es) <= List.length es)%nat.
Proof.
  apply filter_length_le.
Qed.

Lemma remove_length_found (k : string) (es : list (string * (Tensor * Q)))
  (x : Tensor * Q) :
  find k es = Some x ->
  (List.length (remove k es) + 1 <= List.length es)%nat.
Proof.
  induction es as [|[k' y] es IH]; [discriminate|].
  simpl. destruct (String.eqb k k') eqn:Hk; simpl.
  - intros _. assert (H := remove_length k es). lia.
  - intro H. specialize (IH H). lia.
Qed.

Lemma expire_orders (time : Q) (es : list (string * (Tensor * Q))) :
  forall ks,
    NoDup ks -> Permutation (map fst es) ks ->
    NoDup (fold_left (fun ks k => remove_key k ks)
             (expired_prefix time es) ks) /\
    Permutation (map fst (drop_expired time es))
      (fold_left (fun ks k => remove_key k ks) (expired_prefix time es) ks) /\
    (List.length (drop_expired time es) <= List.length es)%nat.
Proof.
  induction es as [|[k [v e]] es IH]; intros ks Hnd Hperm.
  - simpl. repeat split; try assumption. lia.
  - cbn [expired_prefix drop_expired].
    destruct (Qltb time e).
    + simpl. repeat split; try assumption. lia.
    + cbn [fold_left].
      assert (Hnd' : NoDup (k :: map fst es)).
      { apply (Permutation_NoDup (Permutation_sym Hperm) Hnd). }
      destruct (orders_without k (map fst ((k, (v, e)) :: es)) ks Hnd Hperm)
        as [Hnd1 Hperm1].
      cbn [map fst] in Hperm1. unfold remove_key at 1 in Hperm1.
      cbn [filter] in Hperm1. rewrite String.eqb_refl in Hperm1.
      cbn [negb] in Hperm1. fold (remove_key k (map fst es)) in Hperm1.
      rewrite remove_key_absent in Hperm1 by (now inversion Hnd').
      destruct (IH (remove_key k ks) Hnd1 Hperm1) as (H1 & H2 & H3).
      repeat split; try assumption. simpl. lia.
Qed.

Lemma expire_TTLCache_in_step (time : Q) (c : t) :
  TTLCache_in_step c ->
  TTLCache_in_step (expire time c) /\
  (List.length (entries (expire time c)) <= List.length (entries c))%nat.
Proof.
  intros [Hnd Hperm].
  destruct (expire_orders time (entries c) (lru c) Hnd Hperm)
    as (H1 & H2 & H3).
  unfold TTLCache_in_step, expire. cbn [lru entries]. tauto.
Qed.

Lemma popitem_TTLCache_in_step (c c' : t) (r : result unit) :
  TTLCache_in_step c -> popitem c = (r, c') ->
  TTLCache_in_step c' /\ maxsize c' = maxsize c /\ ttl c' = ttl c /\
  (List.length (entries c') <= List.length (entries c))%nat.
Proof.
  intros [Hnd Hperm]. unfold popitem.
  destruct (lru c) as [|k ks] eqn:Hlru.
  - intros [= _ <-]. unfold TTLCache_in_step. rewrite Hlru. repeat split; auto.
  - intros [= _ <-]. unfold TTLCache_in_step. cbn [lru entries maxsize ttl].
    rewrite map_fst_remove.
    destruct (orders_without k (map fst (entries c)) (k :: ks) Hnd Hperm)
      as [Hnd1 Hperm1].
    unfold remove_key at 2 in Hperm1. cbn [filter] in Hperm1.
    rewrite String.eqb_refl in Hperm1. cbn [negb] in Hperm1.
    fold (remove_key k ks) in Hperm1.
    apply NoDup_cons_iff in Hnd. destruct Hnd as [Hk Hks].
    rewrite (remove_key_absent k ks Hk) in Hperm1.
    repeat split; try assumption.
    apply remove_length.
Qed.

Lemma make_room_TTLCache_in_step (fuel : nat) :
  forall (c c' : t) (r : result unit),
    TTLCache_in_step c -> make_room fuel c = (r, c') ->
    TTLCache_in_step c' /\ maxsize c' = maxsize c /\ ttl c' = ttl c /\
    (List.length (entries c') <= List.length (entries c))%nat /\
    (r = Ok tt ->
     (Z.of_nat (List.length (entries c')) + 1 <= maxsize c')%Z).
Proof.
  induction fuel as [|fuel IH]; intros c c' r Hstep; cbn [make_room];
    destruct (Z.of_nat (List.length (entries c)) + 1 >? maxsize c)%Z eqn:Hfull.
  - intros [= <- <-]. repeat split; try apply Hstep; auto. discriminate.
  - intros [= <- <-]. repeat split; try apply Hstep; auto. intros _. lia.
  - destruct (popitem c) as [[[]|msg] c1] eqn:Hpop.
    + intro Hroom.
      destruct (popitem_TTLCache_in_step c c1 _ Hstep Hpop) as (H1 & H2 & H3 & H4).
      destruct (IH c1 c' r H1 Hroom) as (G1 & G2 & G3 & G4 & G5).
      repeat split; try apply G1; try congruence; try lia. exact G5.
    + intros [= <- <-].
      destruct (popitem_TTLCache_in_step c c1 _ Hstep Hpop) as (H1 & H2 & H3 & H4).
      repeat split; try apply H1; auto. discriminate.
  - intros [= <- <-]. repeat split; try apply Hstep; auto. intros _. lia.
Qed.

(** A store keeps the cache within its capacity, whether it succeeds or
    raises. *)
Lemma setitem_within_capacity (time : Q) (k : string) (v : Tensor)
  (c c' : t) (r : result unit) :
  within_capacity c -> setitem time k v c = (r, c') ->
  within_capacity c' /\ maxsize c' = maxsize c /\ ttl c' = ttl c.
Proof.
  intros (Hcap & Hnd & Hperm). unfold setitem.
  destruct (expire_TTLCache_in_step time c (conj Hnd Hperm)) as [Hstep1 Hlen1].
  set (c1 := expire time c) in *.
  assert (Hmax1 : maxsize c1 = maxsize c) by reflexivity.
  assert (Httl1 : ttl c1 = ttl c) by reflexivity.
  destruct (1 >? maxsize c1)%Z eqn:Hsmall.
  { intros [= <- <-]. split; [|tauto].
    split; [|exact Hstep1]. lia. }
  assert (Hroom : forall c2,
             TTLCache_in_step c2 -> maxsize c2 = maxsize c -> ttl c2 = ttl c ->
             (Z.of_nat (List.length (remove k (entries c2))) + 1
              <= maxsize c)%Z ->
             within_capacity
               (mk (maxsize c2) (ttl c2)
                   (remove k (entries c2) ++ [(k, (v, time + ttl c2))])
                   (move_to_end k (lru c2)))).
  { intros c2 [Hnd2 Hperm2] Hmax2 _ Hlen2.
    unfold within_capacity. cbn [entries lru maxsize].
    rewrite length_app, map_app, map_fst_remove. cbn [List.length map fst].
    destruct (orders_without k (map fst (entries c2)) (lru c2) Hnd2 Hperm2)
      as [Hnd3 Hperm3].
    split; [lia|]. unfold move_to_end. split.
    - apply NoDup_app; [exact Hnd3 | repeat constructor; intros [] |].
      intros x Hx [<-|[]]. exact (remove_key_not_in _ _ Hx).
    - now apply Permutation_app_tail. }
  destruct (find k (entries c1)) as [x|] eqn:Hfind.
  - intros [= <- <-]. split; [|tauto].
    apply (Hroom c1); try tauto.
    assert (H := remove_length_found k (entries c1) x Hfind). lia.
  - destruct (make_room (List.length (entries c1)) c1) as [[[]|msg] c2]
      eqn:Hmake;
      destruct (make_room_TTLCache_in_step _ c1 c2 _ Hstep1 Hmake)
        as (G1 & G2 & G3 & G4 & G5).
    + intros [= <- <-]. cbn [maxsize ttl]. split; [|split; congruence].
      apply (Hroom c2); try congruence; try exact G1.
      assert (H := remove_length k (entries c2)).
      specialize (G5 eq_refl). lia.
    + intros [= <- <-]. split; [|split; congruence].
      split; [|exact G1]. lia.
Qed.

Lemma move_to_end_within_capacity (k : string) (c : t) (x : Tensor * Q) :
  within_capacity c -> find k (entries c) = Some x ->
  within_capacity (mk (maxsize c) (ttl c) (entries c)
                      (move_to_end k (lru c))).
Proof.
  intros (Hcap & Hnd & Hperm) Hfind.
  unfold within_capacity. cbn [entries lru maxsize].
  split; [exact Hcap|].
  assert (Hin : In k (lru c)).
  { apply (Permutation_in _ Hperm).
    clear - Hfind. induction (entries c) as [|[k' y] es IH]; [discriminate|].
    simpl in *. destruct (String.eqb k k') eqn:Hk.
    - apply String.eqb_eq in Hk. now left.
    - right. now apply IH. }
  assert (Hsplit : Permutation (remove_key k (lru c) ++ [k]) (lru c)).
  { clear - Hnd Hin. induction (lru c) as [|y ks IH]; [destruct Hin|].
    inversion Hnd as [|? ? Hy Hks]; subst.
    unfold remove_key in *. cbn [filter].
    destruct (String.eqb k y) eqn:Hk.
    - apply String.eqb_eq in Hk. subst y. cbn [negb].
      fold (remove_key k ks). rewrite remove_key_absent by exact Hy.
      rewrite <- Permutation_cons_append. reflexivity.
    - cbn [negb app]. apply perm_skip. apply IH; [exact Hks|].
      destruct Hin as [->|Hin]; [|exact Hin].
      now rewrite String.eqb_refl in Hk. }
  unfold move_to_end. split.
  - apply (Permutation_NoDup (Permutation_sym Hsplit) Hnd).
  - now rewrite Hsplit.
Qed.

End CacheFacts.

Lemma capacity_kept_refl (st : Service) :
  within_capacity (_embedding_cache st) -> capacity_kept st st.
Proof.
  intro H. now split.
Qed.

Lemma capacity_kept_same_cache (st st' : Service) :
  _embedding_cache st' = _embedding_cache st ->
  within_capacity (_embedding_cache st) -> capacity_kept st st'.
Proof.
  intros Hs H. unfold capacity_kept. rewrite Hs. now split.
Qed.

Lemma capacity_kept_trans (st1 st2 st3 : Service) :
  capacity_kept st1 st2 -> capacity_kept st2 st3 -> capacity_kept st1 st3.
Proof.
  intros (_ & Hm1 & Ht1) (Hc & Hm2 & Ht2).
  split; [exact Hc | split; congruence].
Qed.

(** A lookup, whatever its outcome, leaves the cache within its
    capacity. *)
Lemma _get_embedding_capacity (E : Env) (text : string)
  (st st' : Service) (r : result Tensor) :
  within_capacity (_embedding_cache st) ->
  _get_embedding E text st = (r, st') ->
  capacity_kept st st'.
Proof.
  intros Hcap.
  unfold _get_embedding. set (key := _get_text_hash E text).
  assert (Hhit : forall s,
             _embedding_cache s = _embedding_cache st ->
             cache_getitem E key s = (r, st') -> capacity_kept st st').
  { intros s Hs. unfold cache_getitem, bind, get_cache, put_cache,
      read_timer, ret, raise. rewrite Hs.
    destruct (TTLCache.find key (TTLCache.entries (_embedding_cache st)))
      as [[value expires]|] eqn:Hfind.
    - cbn [_embedding_cache clock_reads encode_calls].
      assert (Hmoved := CacheFacts.move_to_end_within_capacity key
                          (_embedding_cache st) _ Hcap Hfind).
      destruct (Qltb _ expires); intros [= _ <-];
        (split; [exact Hmoved | split; reflexivity]).
    - intros [= _ <-]. now apply capacity_kept_same_cache. }
  assert (Hmiss : forall s,
             _embedding_cache s = _embedding_cache st ->
             try_except
               (embedding <- model_encode E text;;
                _ <- cache_setitem E key embedding;;
                ret embedding)
               (fun e => raise e) s = (r, st') ->
             capacity_kept st st').
  { intros s Hs. unfold try_except, bind, model_encode, cache_setitem, bind,
      read_timer, get_cache, put_cache, lift, ret, raise.
    destruct (encode E text) as [embedding|e].
    - cbn [_embedding_cache clock_reads encode_calls]. rewrite Hs.
      destruct (TTLCache.setitem (timer E (clock_reads s)) key embedding
                  (_embedding_cache st)) as [res c'] eqn:Hset.
      destruct (CacheFacts.setitem_within_capacity _ _ _ _ _ _ Hcap Hset)
        as (H1 & H2 & H3).
      cbn [_embedding_cache clock_reads encode_calls].
      destruct res as [[]|msg]; intros [= _ <-];
        (split; [exact H1 | split; assumption]).
    - intros [= _ <-]. now apply capacity_kept_same_cache. }
  unfold bind at 1.
  unfold cache_contains, bind, get_cache, read_timer, ret.
  destruct (TTLCache.find key (TTLCache.entries (_embedding_cache st)))
    as [[value expires]|] eqn:Hfind.
  - destruct (Qltb (timer E (clock_reads st)) expires).
    + apply Hhit. reflexivity.
    + apply Hmiss. reflexivity.
  - apply Hmiss. reflexivity.
Qed.

Lemma _calculate_semantic_score_capacity (E : Env) (job : JobDB.t)
  (candidate : CandidateDB.t) (st st' : Service) (r : result Q) :
  within_capacity (_embedding_cache st) ->
  _calculate_semantic_score E job candidate st = (r, st') ->
  capacity_kept st st'.
Proof.
  intros Hcap. unfold _calculate_semantic_score, try_except, bind, lift, ret.
  destruct (_get_embedding E (_build_job_text job) st) as [r1 s1] eqn:H1.
  assert (K1 := _get_embedding_capacity E _ st s1 r1 Hcap H1).
  destruct r1 as [job_emb|e1]; [|intros [= _ <-]; exact K1].
  destruct (_get_embedding E (_build_candidate_text candidate) s1)
    as [r2 s2] eqn:H2.
  assert (K2 := _get_embedding_capacity E _ s1 s2 r2 (proj1 K1) H2).
  assert (K := capacity_kept_trans _ _ _ K1 K2).
  destruct r2 as [cand_emb|e2]; [|intros [= _ <-]; exact K].
  destruct (pytorch_cos_sim E job_emb cand_emb); intros [= _ <-]; exact K.
Qed.

Lemma _calculate_match_capacity (E : Env) (job : JobDB.t)
  (candidate : CandidateDB.t) (st st' : Service)
  (r : result MatchResult.t) :
  within_capacity (_embedding_cache st) ->
  _calculate_match E job candidate st = (r, st') ->
  capacity_kept st st'.
Proof.
  intros Hcap Hrun.
  destruct (_calculate_match_cases E job candidate st)
    as (sem & s1 & Hsem & _ & [(s & msg & _ & _ & Hrun')
        |(rule & b & reasons & _ & _ & _ & _ & _ & Hrun')]);
    rewrite Hrun in Hrun'; injection Hrun' as _ <-;
    exact (_calculate_semantic_score_capacity E job candidate st st' _
             Hcap Hsem).
Qed.

Lemma evaluate_candidates_capacity (E : Env) (job : JobDB.t)
  (candidates : list CandidateDB.t) :
  forall st ms st',
    within_capacity (_embedding_cache st) ->
    evaluate_candidates E job candidates st = (Ok ms, st') ->
    capacity_kept st st'.
Proof.
  induction candidates as [|c cs IH]; intros st ms st' Hcap H.
  - injection H as _ <-. now apply capacity_kept_refl.
  - cbn [evaluate_candidates] in H. unfold bind in H.
    destruct (_calculate_match E job c st) as [r s1] eqn:Hm.
    assert (K1 := _calculate_match_capacity E job c st s1 r Hcap Hm).
    destruct r as [m|e]; [|discriminate].
    destruct (evaluate_candidates E job cs s1) as [[ms0|e] s2] eqn:Hrest;
      [|discriminate].
    injection H as _ <-.
    exact (capacity_kept_trans _ _ _ K1 (IH _ _ _ (proj1 K1) Hrest)).
Qed.

Lemma evaluate_jobs_capacity (E : Env) (candidate : CandidateDB.t)
  (jobs : list JobDB.t) :
  forall st ms st',
    within_capacity (_embedding_cache st) ->
    evaluate_jobs E candidate jobs st = (Ok ms, st') ->
    capacity_kept st st'.
Proof.
  induction jobs as [|j js IH]; intros st ms st' Hcap H.
  - injection H as _ <-. now apply capacity_kept_refl.
  - cbn [evaluate_jobs] in H. unfold bind in H.
    destruct (_calculate_match E j candidate st) as [r s1] eqn:Hm.
    assert (K1 := _calculate_match_capacity E j candidate st s1 r Hcap Hm).
    destruct r as [m|e]; [|discriminate].
    destruct (evaluate_jobs E candidate js s1) as [[ms0|e] s2] eqn:Hrest;
      [|discriminate].
    injection H as _ <-.
    exact (capacity_kept_trans _ _ _ K1 (IH _ _ _ (proj1 K1) Hrest)).
Qed.

Lemma fresh_service_within_capacity (settings : Settings) :
  within_capacity (_embedding_cache (__init__ settings)).
Proof.
  unfold within_capacity. cbn. split; [lia|]. split; constructor.
Qed.

(** X20. The embedding cache never outgrows its capacity.  From a
    service whose cache is within capacity, and so from a new one, a lookup,
    a match and a ranking of any length leave a cache that holds at most
    [maxsize] entries, none when [maxsize] is below 1, with the capacity
    and the time to live unchanged. *)
Theorem cache_stays_within_capacity (E : Env) (job : JobDB.t)
  (candidate : CandidateDB.t) (candidates : list CandidateDB.t)
  (jobs : list JobDB.t) (min_score : Q) (text : string) (st : Service) :
  within_capacity (_embedding_cache st) ->
  capacity_kept st (snd (_get_embedding E text st)) /\
  capacity_kept st (snd (_calculate_match E job candidate st)) /\
  capacity_kept st
    (snd (rank_candidates_for_job E job candidates min_score st)) /\
  capacity_kept st
    (snd (rank_jobs_for_candidate E candidate jobs min_score st)).
Proof.
  intro Hcap. split; [|split; [|split]].
  - destruct (_get_embedding E text st) as [r st'] eqn:H.
    exact (_get_embedding_capacity E text st st' r Hcap H).
  - destruct (_calculate_match E job candidate st) as [r st'] eqn:H.
    exact (_calculate_match_capacity E job candidate st st' r Hcap H).
  - destruct (rank_candidates_closed_form E job candidates min_score st)
      as (ms & st' & Hev & _ & Hrank).
    rewrite Hrank.
    exact (evaluate_candidates_capacity E job candidates st ms st' Hcap Hev).
  - destruct (rank_jobs_closed_form E candidate jobs min_score st)
      as (ms & st' & Hev & _ & Hrank).
    rewrite Hrank.
    exact (evaluate_jobs_capacity E candidate jobs st ms st' Hcap Hev).
Qed.

(** X20 on a service whose cache holds one embedding: after the ranking
    of three candidates the cache holds one entry. *)
Lemma cache_stays_within_capacity_witness :
  (Z.of_nat
     (List.length
        (TTLCache.entries
           (_embedding_cache
              (snd (rank_candidates_for_job Sample.env Sample.python_job
                      [Sample.python_dev; Sample.cook; Sample.cheap_dev] 0
                      Sample.tiny_service)))))
   <= 1)%Z.
Proof.
  destruct (proj1 (proj2 (proj2 (cache_stays_within_capacity Sample.env
                            Sample.python_job Sample.cook
                            [Sample.python_dev; Sample.cook; Sample.cheap_dev]
                            [] 0 "" Sample.tiny_service
                            (fresh_service_within_capacity _)))))
    as ((Hlen & _) & Hmax & _).
  rewrite Hmax in Hlen. exact Hlen.
Defined.

(** X21. A job that passes the filters honours the location and the
    skills asked for: its location contains the requested one, case ignored,
    and every requested skill is, case apart, one of its requirements or
    advantages. *)
Theorem filters_are_honoured (filters : MatchFilters.t)
  (all_jobs : list JobDB.t) (job : JobDB.t) :
  In job (filtered_jobs filters all_jobs) ->
  (forall location,
      MatchFilters.location filters = Some location -> location <> "" ->
      occurs_ignoring_case location (JobDB.location job) = true) /\
  (forall skills skill,
      MatchFilters.required_skills filters = Some skills ->
      In skill skills ->
      exists s, In s (JobDB.requirements job ++ JobDB.advantages job)%list /\
                PyStr.lower s = PyStr.lower skill).
Proof.
  unfold filtered_jobs. rewrite filter_In. intros [Hin Hpass].
  unfold passes_filters in Hpass. cbv zeta in Hpass.
  repeat match type of Hpass with
         | (if ?b then false else _) = true =>
             let Hb := fresh "Hout" in
             destruct b eqn:Hb; [discriminate Hpass|]
         end.
  clear Hpass. split.
  - intros location Hloc Hne. rewrite Hloc in Hout.
    apply String.eqb_neq in Hne. rewrite Hne in Hout.
    cbn [negb andb] in Hout. apply negb_false_iff in Hout. exact Hout.
  - intros skills skill Hskills Hskill. rewrite Hskills in Hout2.
    destruct skills as [|s0 rest]; [destruct Hskill|].
    apply negb_false_iff in Hout2. unfold issubset in Hout2.
    rewrite forallb_forall in Hout2.
    specialize (Hout2 (PyStr.lower skill)).
    rewrite SetFacts.In_to_set in Hout2.
    specialize (Hout2 (in_map PyStr.lower _ _ Hskill)).
    apply SetFacts.mem_In in Hout2. rewrite SetFacts.In_to_set in Hout2.
    apply in_map_iff in Hout2. destruct Hout2 as (s & Hs & Hin').
    now exists s.
Qed.

(** X21 on a request for "PYTHON" in "tel aviv": of the python job and
    the open job, the first is kept. *)
Lemma filters_are_honoured_witness :
  filtered_jobs
    (MatchFilters.mk (Some "tel aviv") None None (Some ["PYTHON"]))
    [Sample.python_job; Sample.open_job]
  = [Sample.python_job] /\
  occurs_ignoring_case "tel aviv" (JobDB.location Sample.python_job) = true.
Proof.
  split; [reflexivity|].
  apply (proj1 (filters_are_honoured
                  (MatchFilters.mk (Some "tel aviv") None None
                     (Some ["PYTHON"]))
                  [Sample.python_job; Sample.open_job] Sample.python_job
                  (or_introl eq_refl))
           "tel aviv" eq_refl).
  discriminate.
Defined.
